(** * Home broadcast system: scanner and LC3 broadcast source

    A shallow embedding of the two Zephyr applications of the repository
    (the broadcast-audio scanner and the broadcast source with its LC3
    encoder thread), and the properties of their specification that were
    checked against them, followed by further properties of the code: of
    the scanner's [main], of the advertising data, of the USB callback, of
    the buffers, of the credits and of the start-up of the broadcast
    source.

    C integers are [Z] with the wrap-around written out, byte buffers are
    [list Z], the array of streams is a [list] read with [!!] and written
    with [<[i:=x]>], and the threads of the broadcast source are a step
    function over an explicit system state. *)

From Stdlib Require Import ZArith Lia Bool List String.
From stdpp Require Import base tactics option list numbers.
Import ListNotations.

Set Default Proof Using "Type".

(* ===================================================================== *)
(** * The scanner application *)
(* ===================================================================== *)

Module Scanner.

Local Open Scope Z_scope.

(** Values of Zephyr's Bluetooth headers used by the scanner. *)
Definition BT_DATA_SVC_DATA16 : Z := 0x16.
Definition BT_DATA_BROADCAST_NAME : Z := 0x30.
Definition BT_UUID_SIZE_16 : Z := 2.
Definition BT_AUDIO_BROADCAST_ID_SIZE : Z := 3.
Definition BT_UUID_BROADCAST_AUDIO_VAL : Z := 0x1852.
Definition BT_AUDIO_BROADCAST_NAME_LEN_MIN : Z := 4.
Definition BT_AUDIO_BROADCAST_NAME_LEN_MAX : Z := 128.
Definition BT_GAP_ADV_PROP_CONNECTABLE : Z := 1.

(** [struct bt_data]: one advertising field; [data_len] is the length of
    [data]. *)
Record bt_data := { type : Z; data : list Z }.

Definition data_len (d : bt_data) : Z := Z.of_nat (length (data d)).

(** [struct bt_scan_recv_info]. *)
Record bt_scan_recv_info := {
  broadcast_id : Z;
  broadcast_name : list Z
}.

(** The fields of [struct bt_le_scan_recv_info] the scanner reads. *)
Record bt_le_scan_recv_info := { adv_props : Z; interval : Z }.

Definition byte_at (p : list Z) (i : nat) : Z := nth i p 0.

Definition sys_get_le16 (p : list Z) : Z :=
  Z.lor (byte_at p 0) (Z.shiftl (byte_at p 1) 8).

Definition sys_get_le24 (p : list Z) : Z :=
  Z.lor (byte_at p 0)
        (Z.lor (Z.shiftl (byte_at p 1) 8) (Z.shiftl (byte_at p 2) 16)).

(** [bt_uuid_create] accepts the 2, 4 and 16 byte encodings; the scanner
    calls it with [BT_UUID_SIZE_16] only, where it yields the 16-bit value
    read little-endian. *)
Definition bt_uuid_create (p : list Z) (len : Z) : option Z :=
  if len =? BT_UUID_SIZE_16 then Some (sys_get_le16 p) else None.

(** [bt_uuid_cmp] on two 16-bit UUIDs: zero when equal. *)
Definition bt_uuid_cmp (u v : Z) : Z := u - v.

Definition IN_RANGE (v lo hi : Z) : bool := (lo <=? v) && (v <=? hi).

Section WithUtf8.

(** Zephyr's [utf8_lcpy dst src n]: the string stored in [dst], from the
    source bytes and the size [n]. *)
Variable utf8_lcpy : list Z -> Z -> list Z.

(** [broadcast_source_found], the callback given to [bt_data_parse]: what
    it returns and what it leaves in [sr_info]. *)
Definition broadcast_source_found (d : bt_data) (sr_info : bt_scan_recv_info)
  : bool * bt_scan_recv_info :=
  if type d =? BT_DATA_SVC_DATA16 then
    if data_len d <? BT_UUID_SIZE_16 + BT_AUDIO_BROADCAST_ID_SIZE then
      (true, sr_info)
    else
      match bt_uuid_create (data d) BT_UUID_SIZE_16 with
      | None => (true, sr_info)
      | Some adv_uuid =>
          if negb (bt_uuid_cmp adv_uuid BT_UUID_BROADCAST_AUDIO_VAL =? 0) then
            (true, sr_info)
          else
            (true,
             {| broadcast_id :=
                  sys_get_le24 (skipn (Z.to_nat BT_UUID_SIZE_16) (data d));
                broadcast_name := broadcast_name sr_info |})
      end
  else if type d =? BT_DATA_BROADCAST_NAME then
    if negb (IN_RANGE (data_len d) BT_AUDIO_BROADCAST_NAME_LEN_MIN
                      BT_AUDIO_BROADCAST_NAME_LEN_MAX) then
      (true, sr_info)
    else
      (true,
       {| broadcast_id := broadcast_id sr_info;
          broadcast_name := utf8_lcpy (data d) (data_len d + 1) |})
  else
    (true, sr_info).

(** Zephyr's [bt_data_parse], on the list of fields of the advertising
    data: the callback runs on each field in order until it returns
    [false]. *)
Fixpoint bt_data_parse {A : Type} (ad : list bt_data)
    (func : bt_data -> A -> bool * A) (user_data : A) : A :=
  match ad with
  | [] => user_data
  | d :: rest =>
      let '(continue, user_data') := func d user_data in
      if continue then bt_data_parse rest func user_data' else user_data'
  end.

(** What [broadcast_scan_recv] writes to the log. *)
Inductive log_line :=
| LOG_INF_found (name : list Z) (id : Z).

(** [broadcast_scan_recv]: the log lines it produces for one report. *)
Definition broadcast_scan_recv (info : bt_le_scan_recv_info)
    (ad : list bt_data) : list log_line :=
  let sr_info := {| broadcast_id := 0; broadcast_name := [] |} in
  if negb (Z.land (adv_props info) BT_GAP_ADV_PROP_CONNECTABLE =? 0)
     || (interval info =? 0) then
    []
  else
    let sr_info := bt_data_parse ad broadcast_source_found sr_info in
    [LOG_INF_found (broadcast_name sr_info) (broadcast_id sr_info)].

(** A service-data field the scanner takes the broadcast id from. *)
Definition carries_broadcast_id (d : bt_data) : bool :=
  (type d =? BT_DATA_SVC_DATA16)
  && (BT_UUID_SIZE_16 + BT_AUDIO_BROADCAST_ID_SIZE <=? data_len d)
  && (sys_get_le16 (data d) =? BT_UUID_BROADCAST_AUDIO_VAL).

(** A field the scanner takes the broadcast name from. *)
Definition carries_broadcast_name (d : bt_data) : bool :=
  (type d =? BT_DATA_BROADCAST_NAME)
  && (BT_AUDIO_BROADCAST_NAME_LEN_MIN <=? data_len d)
  && (data_len d <=? BT_AUDIO_BROADCAST_NAME_LEN_MAX).

(** The broadcast id and the name such a field carries. *)
Definition id_of (d : bt_data) : Z :=
  sys_get_le24 (skipn 2 (data d)).

Definition name_of (d : bt_data) : list Z :=
  utf8_lcpy (data d) (data_len d + 1).

(** The last element of [l] satisfying [p], mapped by [f]; [dflt] when
    there is none. *)
Definition last_of {A B : Type} (p : A -> bool) (f : A -> B) (dflt : B)
    (l : list A) : B :=
  fold_left (fun acc x => if p x then f x else acc) l dflt.

End WithUtf8.

(* --------------------------------------------------------------------- *)
(** ** Beyond the report callback *)

(** ** [main] of the scanner *)

Definition EALREADY : Z := 120.

(** What [bt_enable] and [bt_le_scan_start] return to [main]. *)
Record scan_env := { bt_enable : Z; bt_le_scan_start : Z }.

(** The calls [main] makes and the lines it logs. *)
Inductive main_effect :=
| BtEnable
| LOG_ERR (fmt : string) (args : list Z)
| LOG_INF (fmt : string) (args : list Z)
| BtLeScanCbRegister
| BtLeScanStart.

Arguments LOG_ERR fmt%_string args.
Arguments LOG_INF fmt%_string args.

(** How [main] ends: it returns a value, or stays in
    [k_sleep(K_FOREVER)]. *)
Inductive main_end :=
| main_returns (code : Z)
| main_sleeps.

(** [main]. *)
Definition main (env : scan_env) : list main_effect * main_end :=
  let err := bt_enable env in
  if negb (err =? 0) then
    ([BtEnable; LOG_ERR "Bluetooth enable failed (err %d)" [err]],
     main_returns err)
  else
    let out := [BtEnable; LOG_INF "Bluetooth initialized" [];
                BtLeScanCbRegister;
                LOG_INF "Scanning for broadcast sources" [];
                BtLeScanStart] in
    let err := bt_le_scan_start env in
    if negb (err =? 0) && negb (err =? - EALREADY) then
      (out ++ [LOG_INF "Unable to start scan for broadcast sources: %d" [err]],
       main_returns 0)
    else (out, main_sleeps).

(** [sizeof(sr_info->broadcast_name)]. *)
Definition sizeof_broadcast_name : Z := BT_AUDIO_BROADCAST_NAME_LEN_MAX + 1.

(** The bytes of the fields of a report are bytes. *)
Definition bytes_of_report (ad : list bt_data) : Prop :=
  Forall (fun d => Forall (fun b => 0 <= b < 256) (data d)) ad.

End Scanner.


(* ===================================================================== *)
(** * The broadcast source application *)
(* ===================================================================== *)

Module Broadcaster.

(** ** Build configuration *)

Inductive preset :=
| BAP_BROADCAST_16_2_1
| BAP_BROADCAST_24_2_1
| BAP_BROADCAST_48_2_1.

(** The Kconfig options the source reads. [CONFIG_MAIN_THREAD_PRIORITY] is
    the priority of the thread that runs [main]; Zephyr runs a ready
    thread only while no thread of a numerically lower priority is
    ready. *)
Record config := {
  CONFIG_BT_BAP_BROADCAST_SRC_STREAM_COUNT : nat;
  CONFIG_BT_BAP_BROADCAST_SRC_SUBGROUP_COUNT : nat;
  CONFIG_BAP_BROADCAST : preset;
  CONFIG_USB_DEVICE_AUDIO : bool;
  CONFIG_STATIC_BROADCAST_ID : bool;
  CONFIG_MAIN_THREAD_PRIORITY : Z
}.

Definition BROADCAST_ENQUEUE_COUNT : nat := 3.

Definition TOTAL_BUF_NEEDED (cfg : config) : nat :=
  BROADCAST_ENQUEUE_COUNT * CONFIG_BT_BAP_BROADCAST_SRC_STREAM_COUNT cfg.

Definition LC3_ENCODER_PRIORITY : Z := 5.

Definition USEC_PER_SEC : Z := 1000000.

(** The limits of [int] and of [unsigned int] (32 bits). *)
Definition INT_MIN : Z := -2147483648.
Definition INT_MAX : Z := 2147483647.
Definition UINT_MAX : Z := 4294967295.

Definition BROADCAST_SAMPLE_RATE (cfg : config) : Z :=
  match CONFIG_BAP_BROADCAST cfg with
  | BAP_BROADCAST_16_2_1 => 16000
  | BAP_BROADCAST_24_2_1 => 24000
  | BAP_BROADCAST_48_2_1 => 48000
  end.

Definition MAX_SAMPLE_RATE (cfg : config) : Z := BROADCAST_SAMPLE_RATE cfg.
Definition MAX_FRAME_DURATION_US : Z := 10000.

Definition MAX_NUM_SAMPLES (cfg : config) : Z :=
  (MAX_FRAME_DURATION_US * MAX_SAMPLE_RATE cfg) / USEC_PER_SEC.

(** [sizeof(send_pcm_data)]: [MAX_NUM_SAMPLES] samples of 16 bits. *)
Definition sizeof_send_pcm_data (cfg : config) : nat :=
  Z.to_nat (2 * MAX_NUM_SAMPLES cfg).

Definition USB_SAMPLE_RATE : Z := 48000.
Definition USB_FRAME_DURATION_US : Z := 1000.
Definition USB_BYTES_PER_SAMPLE : Z := 2.
Definition USB_CHANNELS : Z := 2.
Definition RING_BUF_USB_FRAMES : Z := 20.

Definition USB_NUM_SAMPLES (cfg : config) : Z :=
  (USB_FRAME_DURATION_US * BROADCAST_SAMPLE_RATE cfg) / USEC_PER_SEC.

Definition AUDIO_RING_BUF_BYTES (cfg : config) : nat :=
  Z.to_nat (USB_NUM_SAMPLES cfg * USB_BYTES_PER_SAMPLE * RING_BUF_USB_FRAMES).

Definition UINT16_MAX : Z := 65535.

(** [size_t] of the 32-bit target. *)
Definition SIZE_MAX : Z := 4294967295.

Definition EALREADY : Z := 120.

(** ** Zephyr primitives *)

(** A counting semaphore, [K_SEM_DEFINE name initial limit]. *)
Record k_sem := { count : nat; limit : nat }.

Definition K_SEM_DEFINE (initial lim : nat) : k_sem :=
  {| count := initial; limit := lim |}.

(** [k_sem_give]: one more, unless the limit is reached. *)
Definition k_sem_give (s : k_sem) : k_sem :=
  if (count s <? limit s)%nat
  then {| count := S (count s); limit := limit s |}
  else s.

(** [k_sem_take sem K_FOREVER]: [None] when the caller has to wait. *)
Definition k_sem_take (s : k_sem) : option k_sem :=
  match count s with
  | O => None
  | S c => Some {| count := c; limit := limit s |}
  end.

(** [ring_buf_get]: up to [size] bytes from the head of the queue, never
    waiting; the bytes read and what is left. *)
Definition ring_buf_get (rb : list Z) (size : nat) : list Z * list Z :=
  (take size rb, drop size rb).

(** [ring_buf_put] on a ring of capacity [cap]: the number of bytes
    accepted and the new content. *)
Definition ring_buf_put (cap : nat) (rb : list Z) (bytes : list Z)
  : nat * list Z :=
  let n := Nat.min (length bytes) (cap - length rb) in
  (n, rb ++ take n bytes).

(** [memset(&buf[from], 0, n)]. *)
Definition memset0 (buf : list Z) (from n : nat) : list Z :=
  take from buf ++ replicate n 0%Z ++ drop (from + n) buf.

(** ** What the program does to the outside *)

(** The calls and callbacks an execution consists of, as far as the
    properties need them:
    - [Printk fmt args]: a call of [printk] (the format without its
      newline, pointers to streams as the index of the stream);
    - [NetBufAlloc got]: a call of [net_buf_alloc] on [tx_pool], and
      whether it yielded a buffer;
    - [NetBufUnref]: a call of [net_buf_unref];
    - [StreamSend stream seq ret]: a call of [bt_bap_stream_send] for the
      stream with that index, the sequence number given and the value
      returned;
    - [Started], [Stopped], [Sent]: the stack calls [stream_started_cb],
      [stream_stopped_cb], [stream_sent_cb] for a stream;
    - [Seeded stream]: [main] calls [stream_sent_cb] for the stream in its
      loop that initializes sending;
    - [TookStarted]: a [k_sem_take] of [sem_started] by [main] has
      returned;
    - [TookCredit]: a [k_sem_take] of [lc3_encoder_sem] by the encoder
      thread has returned. *)
Inductive effect :=
| Printk (fmt : string) (args : list Z)
| NetBufAlloc (got : bool)
| NetBufUnref
| StreamSend (stream : nat) (seq : Z) (ret : Z)
| Started (stream : nat)
| Stopped (stream : nat)
| Sent (stream : nat)
| Seeded (stream : nat)
| TookStarted
| TookCredit.

Arguments Printk fmt%_string args.

(** ** Streams *)

(** [lc3_encoder_t]: an encoder instance as set up by [lc3_setup_encoder]. *)
Record lc3_encoder_t := { dt_us : Z; sr_hz : Z }.

(** [struct broadcast_source_stream]; [lc3_encoder] is [None] for the
    [NULL] handle. [audio_ring_buf] exists with [CONFIG_USB_DEVICE_AUDIO]
    only. *)
Record broadcast_source_stream := {
  seq_num : Z;
  sent_cnt : Z;
  lc3_encoder : option lc3_encoder_t;
  audio_ring_buf : list Z
}.

(** A stream as the program is loaded: all zero. *)
Definition stream0 : broadcast_source_stream :=
  {| seq_num := 0; sent_cnt := 0; lc3_encoder := None; audio_ring_buf := [] |}.

(** What the callees of [send_data] answer in one call: whether
    [net_buf_alloc] yields [NULL], the value of [lc3_encode] and the value
    of [bt_bap_stream_send]. *)
Record send_env := {
  net_buf_alloc_null : bool;
  lc3_encode_ret : Z;
  bt_bap_stream_send_ret : Z
}.

Local Open Scope Z_scope.

(** [send_data(&streams[i])]: the stream, the PCM buffer and the effects
    after the call. *)
Definition send_data (cfg : config) (i : nat) (env : send_env)
    (source_stream : broadcast_source_stream) (send_pcm_data : list Z)
  : broadcast_source_stream * list Z * list effect :=
  if net_buf_alloc_null env then
    (source_stream, send_pcm_data,
     [NetBufAlloc false;
      Printk "Could not allocate buffer when sending on %p" [Z.of_nat i]])
  else
    match lc3_encoder source_stream with
    | None =>
        (source_stream, send_pcm_data,
         [NetBufAlloc true;
          Printk "LC3 encoder not setup, cannot encode data." [];
          NetBufUnref])
    | Some _ =>
        let '(source_stream, send_pcm_data) :=
          if CONFIG_USB_DEVICE_AUDIO cfg then
            let '(bytes, rb) :=
              ring_buf_get (audio_ring_buf source_stream)
                           (sizeof_send_pcm_data cfg) in
            let size := length bytes in
            let pcm := bytes ++ drop size send_pcm_data in
            let pcm :=
              if (size <? sizeof_send_pcm_data cfg)%nat then
                let padding_size := (sizeof_send_pcm_data cfg - size)%nat in
                memset0 pcm size padding_size
              else pcm in
            ({| seq_num := seq_num source_stream;
                sent_cnt := sent_cnt source_stream;
                lc3_encoder := lc3_encoder source_stream;
                audio_ring_buf := rb |}, pcm)
          else (source_stream, send_pcm_data) in
        let ret := lc3_encode_ret env in
        if ret =? -1 then
          (source_stream, send_pcm_data,
           [NetBufAlloc true;
            Printk "LC3 encoder failed - wrong parameters?: %d" [ret];
            NetBufUnref])
        else
          let ret := bt_bap_stream_send_ret env in
          let seq := seq_num source_stream in
          let source_stream :=
            {| seq_num := (seq + 1) mod (UINT16_MAX + 1);
               sent_cnt := sent_cnt source_stream;
               lc3_encoder := lc3_encoder source_stream;
               audio_ring_buf := audio_ring_buf source_stream |} in
          if ret <? 0 then
            (source_stream, send_pcm_data,
             [NetBufAlloc true;
              StreamSend i seq ret;
              Printk "Unable to broadcast data on %p: %d" [Z.of_nat i; ret];
              NetBufUnref])
          else
            let cnt := (sent_cnt source_stream + 1) mod (SIZE_MAX + 1) in
            let source_stream :=
              {| seq_num := seq_num source_stream;
                 sent_cnt := cnt;
                 lc3_encoder := lc3_encoder source_stream;
                 audio_ring_buf := audio_ring_buf source_stream |} in
            (source_stream, send_pcm_data,
             [NetBufAlloc true; StreamSend i seq ret]
             ++ (if cnt mod 1000 =? 0
                 then [Printk "Stream %p: Sent %u total ISO packets"
                              [Z.of_nat i; cnt]]
                 else []))
    end.

(** [stream_started_cb]. *)
Definition stream_started_cb (source_stream : broadcast_source_stream)
    (sem_started : k_sem) : broadcast_source_stream * k_sem :=
  ({| seq_num := 0;
      sent_cnt := 0;
      lc3_encoder := lc3_encoder source_stream;
      audio_ring_buf := audio_ring_buf source_stream |},
   k_sem_give sem_started).

(** [stream_stopped_cb]. *)
Definition stream_stopped_cb (sem_stopped : k_sem) : k_sem :=
  k_sem_give sem_stopped.

(** [stream_sent_cb]: the stream it is called for is not looked at. *)
Definition stream_sent_cb (stream : nat) (lc3_encoder_sem : k_sem) : k_sem :=
  k_sem_give lc3_encoder_sem.

(** ** The encoder thread *)

(** The globals [freq_hz], [frame_duration_us], [frames_per_sdu] and
    [octets_per_frame]. *)
Record codec_globals := {
  freq_hz : Z;
  frame_duration_us : Z;
  frames_per_sdu : Z;
  octets_per_frame : Z
}.

(** What the codec-configuration getters and liblc3 answer to
    [init_lc3_thread]; [lc3_setup_encoder] is given the index of the stream
    whose memory it is to use. [fill_audio_buf_sin] (floating point) is
    taken as a function from the buffer and its three integer arguments to
    the buffer it leaves. *)
Record codec_env := {
  bt_audio_codec_cfg_get_freq : Z;
  bt_audio_codec_cfg_freq_to_freq_hz : Z -> Z;
  bt_audio_codec_cfg_get_frame_dur : Z;
  bt_audio_codec_cfg_frame_dur_to_frame_dur_us : Z -> Z;
  bt_audio_codec_cfg_get_octets_per_frame : Z;
  bt_audio_codec_cfg_get_frame_blocks_per_sdu : Z;
  lc3_setup_encoder : nat -> Z -> Z -> option lc3_encoder_t;
  fill_audio_buf_sin : list Z -> Z -> Z -> Z -> list Z
}.

Definition AUDIO_TONE_FREQUENCY_HZ : Z := 1000.

(** The loop of [init_lc3_thread] that creates the encoder instances, from
    stream [i] on. *)
Fixpoint setup_encoders (env : codec_env) (g : codec_globals) (i : nat)
    (streams : list broadcast_source_stream)
  : list broadcast_source_stream * list effect :=
  match streams with
  | [] => ([], [])
  | st :: rest =>
      let enc := lc3_setup_encoder env i (frame_duration_us g) (freq_hz g) in
      let st' :=
        {| seq_num := seq_num st;
           sent_cnt := sent_cnt st;
           lc3_encoder := enc;
           audio_ring_buf := audio_ring_buf st |} in
      let '(rest', out) := setup_encoders env g (S i) rest in
      (st' :: rest',
       Printk "Initializing lc3 encoder for stream %zu" [Z.of_nat i]
       :: (match enc with
           | None =>
               [Printk "ERROR: Failed to setup LC3 encoder - wrong parameters?" []]
           | Some _ => []
           end)
       ++ out)
  end.

(** What [init_lc3_thread] has done when it reaches [while (true)], or
    when it returns before. *)
Record init_result := {
  init_globals : codec_globals;
  init_streams : list broadcast_source_stream;
  init_pcm : list Z;
  init_out : list effect;
  init_enters_loop : bool
}.

(** [init_lc3_thread] up to its [while (true)] loop. *)
Definition init_lc3_thread (cfg : config) (env : codec_env)
    (g : codec_globals) (streams : list broadcast_source_stream)
    (send_pcm_data : list Z) : init_result :=
  let stop g out :=
    {| init_globals := g; init_streams := streams;
       init_pcm := send_pcm_data; init_out := out;
       init_enters_loop := false |} in
  let ret := bt_audio_codec_cfg_get_freq env in
  if 0 <? ret then
    let g := {| freq_hz := bt_audio_codec_cfg_freq_to_freq_hz env ret;
                frame_duration_us := frame_duration_us g;
                frames_per_sdu := frames_per_sdu g;
                octets_per_frame := octets_per_frame g |} in
    let ret := bt_audio_codec_cfg_get_frame_dur env in
    if 0 <? ret then
      let g := {| freq_hz := freq_hz g;
                  frame_duration_us :=
                    bt_audio_codec_cfg_frame_dur_to_frame_dur_us env ret;
                  frames_per_sdu :=
                    bt_audio_codec_cfg_get_frame_blocks_per_sdu env;
                  octets_per_frame :=
                    bt_audio_codec_cfg_get_octets_per_frame env |} in
      if freq_hz g <? 0 then
        stop g [Printk "Error: Codec frequency not set, cannot start codec." []]
      else if frame_duration_us g <? 0 then
        stop g [Printk "Error: Frame duration not set, cannot start codec." []]
      else if octets_per_frame g <? 0 then
        stop g [Printk "Error: Octets per frame not set, cannot start codec." []]
      else
        let pcm :=
          if CONFIG_USB_DEVICE_AUDIO cfg then send_pcm_data
          else fill_audio_buf_sin env send_pcm_data (frame_duration_us g)
                                  AUDIO_TONE_FREQUENCY_HZ (freq_hz g) in
        let '(streams', out) := setup_encoders env g 0 streams in
        {| init_globals := g; init_streams := streams';
           init_pcm := pcm; init_out := out;
           init_enters_loop := true |}
    else
      stop g [Printk "Error: Frame duration not set, cannot start codec." []]
  else
    stop g [].

(** ** The main thread *)

(** The values the calls of [main] return before it waits for the streams:
    [device_is_ready] as a boolean, the others as error codes. *)
Record main_env := {
  bt_enable : Z;
  device_is_ready : bool;
  usb_enable : Z;
  bt_le_ext_adv_create : Z;
  bt_le_per_adv_set_param : Z;
  bt_bap_broadcast_source_create : Z;
  bt_rand : Z;
  bt_le_ext_adv_set_data : Z;
  bt_bap_broadcast_source_get_base : Z;
  bt_le_per_adv_set_data : Z;
  bt_le_ext_adv_start : Z;
  bt_le_per_adv_start : Z;
  bt_bap_broadcast_source_start : Z
}.

(** A sequence of calls that may leave the function early: the effects so
    far, and either the value [main] returns or the value to go on with. *)
Definition prog (A : Type) : Type := (list effect * (Z + A))%type.

Definition pure {A : Type} (a : A) : prog A := ([], inr a).
Definition emit (e : effect) : prog unit := ([e], inr tt).
Definition return_ {A : Type} (code : Z) : prog A := ([], inl code).

Definition bind {A B : Type} (m : prog A) (k : A -> prog B) : prog B :=
  match m with
  | (out, inl code) => (out, inl code)
  | (out, inr a) => let '(out', r) := k a in (out ++ out', r)
  end.

Notation "m ;; k" := (bind m (fun _ => k))
  (at level 100, k at level 200, right associativity).

(** [if (err) { printk(fmt, err); return code; }]. *)
Definition fail_if (cond : bool) (fmt : string) (args : list Z) (code : Z)
  : prog unit :=
  if cond then emit (Printk fmt args) ;; return_ code else pure tt.

Definition nonzero (err : Z) : bool := negb (err =? 0).

(** The mock data [main] writes: sample [i] is [i], two bytes each, low
    byte first. *)
Definition mock_pcm_data (cfg : config) : list Z :=
  flat_map (fun i => [Z.of_nat i mod 256; Z.of_nat i / 256])
           (seq 0 (Z.to_nat (MAX_NUM_SAMPLES cfg))).

(** The messages of the [ring_buf_init] loop. *)
Definition ring_buf_init_messages (cfg : config) : list effect :=
  map (fun i => Printk "Initialized ring buf %zu: capacity: %u"
                       [Z.of_nat i; Z.of_nat (AUDIO_RING_BUF_BYTES cfg)])
      (seq 0 (CONFIG_BT_BAP_BROADCAST_SRC_STREAM_COUNT cfg)).

(** [setup_broadcast_source]. *)
Definition setup_broadcast_source (cfg : config) (env : main_env) : prog unit :=
  let streams_per_subgroup :=
    Z.of_nat (CONFIG_BT_BAP_BROADCAST_SRC_STREAM_COUNT cfg)
    / Z.of_nat (CONFIG_BT_BAP_BROADCAST_SRC_SUBGROUP_COUNT cfg) in
  emit (Printk "Creating broadcast source with %zu subgroups with %zu streams"
          [Z.of_nat (CONFIG_BT_BAP_BROADCAST_SRC_SUBGROUP_COUNT cfg);
           Z.of_nat (CONFIG_BT_BAP_BROADCAST_SRC_SUBGROUP_COUNT cfg)
           * streams_per_subgroup]) ;;
  let err := bt_bap_broadcast_source_create env in
  fail_if (nonzero err) "Unable to create broadcast source: %d" [err] err.

(** [main] up to [k_thread_start(encoder)]. *)
Definition main_before_thread (cfg : config) (env : main_env) : prog unit :=
  let err := bt_enable env in
  fail_if (nonzero err) "Bluetooth init failed (err %d)" [err] 0 ;;
  emit (Printk "Bluetooth initialized" []) ;;
  if CONFIG_USB_DEVICE_AUDIO cfg then
    fail_if (negb (device_is_ready env))
            "Device USB Headset is not ready" [] 0 ;;
    emit (Printk "Found USB Headset Device" []) ;;
    (ring_buf_init_messages cfg, inr tt) ;;
    let err := usb_enable env in
    fail_if (nonzero err && negb (err =? - EALREADY))
            "Failed to enable USB (%d)" [err] 0
  else pure tt.

(** [main] from [k_thread_start(encoder)] to the loop that waits for the
    streams to start. *)
Definition main_after_thread (cfg : config) (env : main_env) : prog unit :=
  let err := bt_le_ext_adv_create env in
  fail_if (nonzero err)
          "Unable to create extended advertising set: %d" [err] 0 ;;
  let err := bt_le_per_adv_set_param env in
  fail_if (nonzero err)
          "Failed to set periodic advertising parameters (err %d)" [err] 0 ;;
  emit (Printk "Creating broadcast source" []) ;;
  (let '(out, r) := setup_broadcast_source cfg env in
   match r with
   | inl err =>
       (out ++ [Printk "Unable to setup broadcast source: %d" [err]], inl 0)
   | inr _ => (out, inr tt)
   end) ;;
  (if CONFIG_STATIC_BROADCAST_ID cfg then pure tt
   else
     let err := bt_rand env in
     fail_if (nonzero err) "Unable to generate broadcast ID: %d" [err] err) ;;
  let err := bt_le_ext_adv_set_data env in
  fail_if (nonzero err)
          "Failed to set extended advertising data: %d" [err] 0 ;;
  let err := bt_bap_broadcast_source_get_base env in
  fail_if (nonzero err) "Failed to get encoded BASE: %d" [err] 0 ;;
  let err := bt_le_per_adv_set_data env in
  fail_if (nonzero err)
          "Failed to set periodic advertising data: %d" [err] 0 ;;
  let err := bt_le_ext_adv_start env in
  fail_if (nonzero err) "Failed to start extended advertising: %d" [err] 0 ;;
  let err := bt_le_per_adv_start env in
  fail_if (nonzero err) "Failed to enable periodic advertising: %d" [err] 0 ;;
  emit (Printk "Starting broadcast source" []) ;;
  let err := bt_bap_broadcast_source_start env in
  fail_if (nonzero err) "Unable to start broadcast source: %d" [err] 0.

(** ** The system: two threads and the callbacks of the stack *)

(** Where [main] stands: before its first statement, in iteration [i] of
    the loop that waits for the streams, about to make call [j] of
    [stream_sent_cb] for stream [i] in the loop that initializes sending,
    in [k_sleep(K_FOREVER)], or returned. *)
Inductive main_loc :=
| main_entry
| main_wait_started (i : nat)
| main_init_sending (i j : nat)
| main_sleep
| main_returned (code : Z).

(** Where the encoder thread stands: not started, at the first statement
    of [init_lc3_thread], in iteration [i] of the loop of [k_sem_take], in
    iteration [i] of the loop of [send_data], returned from
    [init_lc3_thread], or (without any stream) in the empty
    [while (true)]. *)
Inductive encoder_loc :=
| encoder_not_started
| encoder_entry
| encoder_take (i : nat)
| encoder_send (i : nat)
| encoder_returned
| encoder_spin.

(** The state of the program and of what it shares with the stack:
    [tx_pool] is the number of free buffers of the pool, [iso_queue] the
    number of buffers per stream that [bt_bap_stream_send] accepted and
    whose transmission is not yet complete, [usb_count] the
    [static int count] of [data_received], [trace] what has happened so
    far. *)
Record sys := {
  streams : list broadcast_source_stream;
  send_pcm_data : list Z;
  globals : codec_globals;
  sem_started : k_sem;
  sem_stopped : k_sem;
  lc3_encoder_sem : k_sem;
  tx_pool : nat;
  iso_queue : list nat;
  usb_count : Z;
  main_pc : main_loc;
  encoder_pc : encoder_loc;
  trace : list effect
}.

Definition stream_count (cfg : config) : nat :=
  CONFIG_BT_BAP_BROADCAST_SRC_STREAM_COUNT cfg.

(** The state the program is loaded with. *)
Definition boot (cfg : config) : sys :=
  {| streams := replicate (stream_count cfg) stream0;
     send_pcm_data := replicate (sizeof_send_pcm_data cfg) 0;
     globals := {| freq_hz := 0; frame_duration_us := 0;
                   frames_per_sdu := 0; octets_per_frame := 0 |};
     sem_started := K_SEM_DEFINE 0 (stream_count cfg);
     sem_stopped := K_SEM_DEFINE 0 (stream_count cfg);
     lc3_encoder_sem := K_SEM_DEFINE 0 (TOTAL_BUF_NEEDED cfg);
     tx_pool := TOTAL_BUF_NEEDED cfg;
     iso_queue := replicate (stream_count cfg) 0%nat;
     usb_count := 0;
     main_pc := main_entry;
     encoder_pc := encoder_not_started;
     trace := [] |}.

(** What can happen next: a thread runs up to its next call that may
    wait, or the stack calls back.
    - [ev_main_setup]: [main] runs from its start to the loop that waits
      for the streams (or returns before);
    - [ev_main]: [main] runs one iteration of the loop it is in;
    - [ev_encoder_setup]: the encoder thread runs [init_lc3_thread] up to
      its loop;
    - [ev_encoder_take], [ev_encoder_send]: the encoder thread runs one
      iteration of its loop of [k_sem_take], of [send_data];
    - [ev_started], [ev_stopped], [ev_sent]: the stack calls the stream's
      callback; [sent] comes for a buffer the stack has queued, which it
      frees;
    - [ev_usb_data]: [data_received] puts the bytes of the left and of
      the right channel into the rings of the first two streams and
      counts the call in its [static int count]; the step is not
      defined when that counter stands at [INT_MAX], where [count++]
      overflows. *)
Inductive event :=
| ev_main_setup (env : main_env)
| ev_main
| ev_encoder_setup (env : codec_env)
| ev_encoder_take
| ev_encoder_send (env : send_env)
| ev_started (stream : nat)
| ev_stopped (stream : nat)
| ev_sent (stream : nat)
| ev_usb_data (left_ch right_ch : list Z).

(** Updates of single fields. *)
Definition with_main (pc : main_loc) (out : list effect) (s : sys) : sys :=
  {| streams := streams s; send_pcm_data := send_pcm_data s;
     globals := globals s; sem_started := sem_started s;
     sem_stopped := sem_stopped s; lc3_encoder_sem := lc3_encoder_sem s;
     tx_pool := tx_pool s; iso_queue := iso_queue s;
     usb_count := usb_count s; main_pc := pc;
     encoder_pc := encoder_pc s; trace := trace s ++ out |}.

Definition with_encoder (pc : encoder_loc) (out : list effect) (s : sys)
  : sys :=
  {| streams := streams s; send_pcm_data := send_pcm_data s;
     globals := globals s; sem_started := sem_started s;
     sem_stopped := sem_stopped s; lc3_encoder_sem := lc3_encoder_sem s;
     tx_pool := tx_pool s; iso_queue := iso_queue s;
     usb_count := usb_count s; main_pc := main_pc s;
     encoder_pc := pc; trace := trace s ++ out |}.

Definition with_streams (l : list broadcast_source_stream) (pcm : list Z)
    (s : sys) : sys :=
  {| streams := l; send_pcm_data := pcm;
     globals := globals s; sem_started := sem_started s;
     sem_stopped := sem_stopped s; lc3_encoder_sem := lc3_encoder_sem s;
     tx_pool := tx_pool s; iso_queue := iso_queue s;
     usb_count := usb_count s; main_pc := main_pc s;
     encoder_pc := encoder_pc s; trace := trace s |}.

Definition with_globals (g : codec_globals) (s : sys) : sys :=
  {| streams := streams s; send_pcm_data := send_pcm_data s;
     globals := g; sem_started := sem_started s;
     sem_stopped := sem_stopped s; lc3_encoder_sem := lc3_encoder_sem s;
     tx_pool := tx_pool s; iso_queue := iso_queue s;
     usb_count := usb_count s; main_pc := main_pc s;
     encoder_pc := encoder_pc s; trace := trace s |}.

Definition with_sem_started (sem : k_sem) (s : sys) : sys :=
  {| streams := streams s; send_pcm_data := send_pcm_data s;
     globals := globals s; sem_started := sem;
     sem_stopped := sem_stopped s; lc3_encoder_sem := lc3_encoder_sem s;
     tx_pool := tx_pool s; iso_queue := iso_queue s;
     usb_count := usb_count s; main_pc := main_pc s;
     encoder_pc := encoder_pc s; trace := trace s |}.

Definition with_sem_stopped (sem : k_sem) (s : sys) : sys :=
  {| streams := streams s; send_pcm_data := send_pcm_data s;
     globals := globals s; sem_started := sem_started s;
     sem_stopped := sem; lc3_encoder_sem := lc3_encoder_sem s;
     tx_pool := tx_pool s; iso_queue := iso_queue s;
     usb_count := usb_count s; main_pc := main_pc s;
     encoder_pc := encoder_pc s; trace := trace s |}.

Definition with_lc3_encoder_sem (sem : k_sem) (s : sys) : sys :=
  {| streams := streams s; send_pcm_data := send_pcm_data s;
     globals := globals s; sem_started := sem_started s;
     sem_stopped := sem_stopped s; lc3_encoder_sem := sem;
     tx_pool := tx_pool s; iso_queue := iso_queue s;
     usb_count := usb_count s; main_pc := main_pc s;
     encoder_pc := encoder_pc s; trace := trace s |}.

Definition with_buffers (pool : nat) (queue : list nat) (s : sys) : sys :=
  {| streams := streams s; send_pcm_data := send_pcm_data s;
     globals := globals s; sem_started := sem_started s;
     sem_stopped := sem_stopped s; lc3_encoder_sem := lc3_encoder_sem s;
     tx_pool := pool; iso_queue := queue;
     usb_count := usb_count s; main_pc := main_pc s;
     encoder_pc := encoder_pc s; trace := trace s |}.

Definition with_usb_count (n : Z) (out : list effect) (s : sys) : sys :=
  {| streams := streams s; send_pcm_data := send_pcm_data s;
     globals := globals s; sem_started := sem_started s;
     sem_stopped := sem_stopped s; lc3_encoder_sem := lc3_encoder_sem s;
     tx_pool := tx_pool s; iso_queue := iso_queue s;
     usb_count := n; main_pc := main_pc s;
     encoder_pc := encoder_pc s; trace := trace s ++ out |}.

(** Whether [bt_bap_stream_send] was called and took the buffer. *)
Definition accepted (out : list effect) : bool :=
  existsb (fun e => match e with
                    | StreamSend _ _ ret => 0 <=? ret
                    | _ => false
                    end) out.

(** The loop heads: the location for iteration [i], or what follows the
    loop when there is no such iteration. *)
Definition main_at_init_sending (cfg : config) (i : nat) : main_loc :=
  if (i <? stream_count cfg)%nat then main_init_sending i 0 else main_sleep.

Definition main_after_init_sending (cfg : config) (i j : nat) : main_loc :=
  if (S j <? BROADCAST_ENQUEUE_COUNT)%nat then main_init_sending i (S j)
  else main_at_init_sending cfg (S i).

Definition main_at_wait_started (cfg : config) (i : nat)
  : main_loc * list effect :=
  if (i <? stream_count cfg)%nat then (main_wait_started i, [])
  else (main_at_init_sending cfg 0, [Printk "Broadcast source started" []]).

Definition encoder_at_loop (cfg : config) : encoder_loc :=
  if (0 <? stream_count cfg)%nat then encoder_take 0 else encoder_spin.

Definition encoder_after_take (cfg : config) (i : nat) : encoder_loc :=
  if (S i <? stream_count cfg)%nat then encoder_take (S i) else encoder_send 0.

Definition encoder_after_send (cfg : config) (i : nat) : encoder_loc :=
  if (S i <? stream_count cfg)%nat then encoder_send (S i) else encoder_take 0.

(** [main] from its first statement to the loop that waits for the
    streams. With [CONFIG_USB_DEVICE_AUDIO] it clears [streams]. *)
Definition main_setup (cfg : config) (env : main_env) (s : sys) : sys :=
  let s := if nonzero (bt_enable env) then s
           else with_streams (streams s) (mock_pcm_data cfg) s in
  match main_before_thread cfg env with
  | (out, inl code) => with_main (main_returned code) out s
  | (out, inr _) =>
      let s :=
        if CONFIG_USB_DEVICE_AUDIO cfg
        then with_streams (replicate (stream_count cfg) stream0)
                          (send_pcm_data s) s
        else s in
      let s := with_encoder encoder_entry out s in
      match main_after_thread cfg env with
      | (out, inl code) => with_main (main_returned code) out s
      | (out, inr _) =>
          let '(pc, out') := main_at_wait_started cfg 0 in
          with_main pc (out ++ out') s
      end
  end.

(** [data_received], given the bytes of the two channels after the
    downsampling: they go to the rings of the first two streams. *)
Fixpoint usb_put (cfg : config) (i : nat) (channels : list (list Z))
    (streams : list broadcast_source_stream)
  : list broadcast_source_stream * list effect :=
  match channels, streams with
  | bytes :: channels', st :: streams' =>
      let '(size_put, rb) :=
        ring_buf_put (AUDIO_RING_BUF_BYTES cfg) (audio_ring_buf st) bytes in
      let st' := {| seq_num := seq_num st; sent_cnt := sent_cnt st;
                    lc3_encoder := lc3_encoder st; audio_ring_buf := rb |} in
      let '(rest, out) := usb_put cfg (S i) channels' streams' in
      (st' :: rest,
       (if (size_put <? length bytes)%nat
        then [Printk "Not enough room for samples in %s buffer: %u < %u, total capacity: %u"
                     [Z.of_nat i; Z.of_nat size_put; Z.of_nat (length bytes);
                      Z.of_nat (AUDIO_RING_BUF_BYTES cfg)]]
        else []) ++ out)
  | _, _ => (streams, [])
  end.

(** One step of the system; [None] when the event cannot happen in this
    state: the thread is elsewhere, or it has to wait. *)
Definition step (cfg : config) (ev : event) (s : sys) : option sys :=
  match ev with
  | ev_main_setup env =>
      match main_pc s with
      | main_entry => Some (main_setup cfg env s)
      | _ => None
      end
  | ev_main =>
      match main_pc s with
      | main_wait_started i =>
          match k_sem_take (sem_started s) with
          | None => None
          | Some sem =>
              let '(pc, out) := main_at_wait_started cfg (S i) in
              Some (with_main pc (TookStarted :: out)
                      (with_sem_started sem s))
          end
      | main_init_sending i j =>
          Some (with_main (main_after_init_sending cfg i j) [Seeded i]
                  (with_lc3_encoder_sem
                     (stream_sent_cb i (lc3_encoder_sem s)) s))
      | _ => None
      end
  | ev_encoder_setup env =>
      match encoder_pc s with
      | encoder_entry =>
          let r := init_lc3_thread cfg env (globals s) (streams s)
                                   (send_pcm_data s) in
          Some (with_encoder
                  (if init_enters_loop r then encoder_at_loop cfg
                   else encoder_returned)
                  (init_out r)
                  (with_globals (init_globals r)
                     (with_streams (init_streams r) (init_pcm r) s)))
      | _ => None
      end
  | ev_encoder_take =>
      match encoder_pc s with
      | encoder_take i =>
          match k_sem_take (lc3_encoder_sem s) with
          | None => None
          | Some sem =>
              Some (with_encoder (encoder_after_take cfg i) [TookCredit]
                      (with_lc3_encoder_sem sem s))
          end
      | _ => None
      end
  | ev_encoder_send env =>
      match encoder_pc s with
      | encoder_send i =>
          match streams s !! i, tx_pool s with
          | Some st, S pool =>
              let '(st', pcm, out) :=
                send_data cfg i env st (send_pcm_data s) in
              let s := with_streams (<[i := st']> (streams s)) pcm s in
              let s :=
                if accepted out
                then with_buffers pool
                       (<[i := S (default 0%nat (iso_queue s !! i))]>
                          (iso_queue s)) s
                else s in
              Some (with_encoder (encoder_after_send cfg i) out s)
          | _, _ => None
          end
      | _ => None
      end
  | ev_started i =>
      match streams s !! i with
      | Some st =>
          let '(st', sem) := stream_started_cb st (sem_started s) in
          Some (with_main (main_pc s) [Started i]
                  (with_sem_started sem
                     (with_streams (<[i := st']> (streams s))
                                   (send_pcm_data s) s)))
      | None => None
      end
  | ev_stopped i =>
      match streams s !! i with
      | Some _ =>
          Some (with_main (main_pc s) [Stopped i]
                  (with_sem_stopped (stream_stopped_cb (sem_stopped s)) s))
      | None => None
      end
  | ev_sent i =>
      match iso_queue s !! i with
      | Some (S q) =>
          Some (with_main (main_pc s) [Sent i]
                  (with_lc3_encoder_sem
                     (stream_sent_cb i (lc3_encoder_sem s))
                     (with_buffers (S (tx_pool s)) (<[i := q]> (iso_queue s))
                        s)))
      | _ => None
      end
  | ev_usb_data left_ch right_ch =>
      if CONFIG_USB_DEVICE_AUDIO cfg then
        if usb_count s =? INT_MAX then None else
        let '(streams', out) :=
          usb_put cfg 0 [left_ch; right_ch] (streams s) in
        let n := usb_count s + 1 in
        Some (with_usb_count n
                (out ++ (if n mod 1000 =? 0
                         then [Printk "USB Data received (count = %d)" [n]]
                         else []))
                (with_streams streams' (send_pcm_data s) s))
      else None
  end.

(** Running a schedule: the events in order; [None] when one of them
    cannot happen where it stands. *)
Fixpoint run (cfg : config) (sched : list event) (s : sys) : option sys :=
  match sched with
  | [] => Some s
  | ev :: rest =>
      match step cfg ev s with
      | Some s' => run cfg rest s'
      | None => None
      end
  end.

(** The same, with Zephyr's scheduling rule: a thread runs only while the
    other one is not ready or has no priority over it (a numerically lower
    priority wins). Callbacks of the stack can always come. *)
Definition main_ready (s : sys) : bool :=
  match main_pc s with
  | main_entry => true
  | main_wait_started _ => (0 <? count (sem_started s))%nat
  | main_init_sending _ _ => true
  | main_sleep => false
  | main_returned _ => false
  end.

Definition encoder_ready (s : sys) : bool :=
  match encoder_pc s with
  | encoder_not_started => false
  | encoder_entry => true
  | encoder_take _ => (0 <? count (lc3_encoder_sem s))%nat
  | encoder_send _ => (0 <? tx_pool s)%nat
  | encoder_returned => false
  | encoder_spin => true
  end.

Definition may_run (cfg : config) (ev : event) (s : sys) : bool :=
  match ev with
  | ev_main_setup _ | ev_main =>
      negb (encoder_ready s
            && (LC3_ENCODER_PRIORITY <? CONFIG_MAIN_THREAD_PRIORITY cfg))
  | ev_encoder_setup _ | ev_encoder_take | ev_encoder_send _ =>
      negb (main_ready s
            && (CONFIG_MAIN_THREAD_PRIORITY cfg <? LC3_ENCODER_PRIORITY))
  | _ => true
  end.

Definition step_by_priority (cfg : config) (ev : event) (s : sys)
  : option sys :=
  if may_run cfg ev s then step cfg ev s else None.

Fixpoint run_by_priority (cfg : config) (sched : list event) (s : sys)
  : option sys :=
  match sched with
  | [] => Some s
  | ev :: rest =>
      match step_by_priority cfg ev s with
      | Some s' => run_by_priority cfg rest s'
      | None => None
      end
  end.

(** ** Reading the trace *)

Fixpoint count_if (p : effect -> bool) (t : list effect) : nat :=
  match t with
  | [] => 0%nat
  | e :: t' => ((if p e then 1 else 0) + count_if p t')%nat
  end.

Definition is_started (e : effect) : bool :=
  match e with Started _ => true | _ => false end.

Definition is_took_started (e : effect) : bool :=
  match e with TookStarted => true | _ => false end.

Definition is_seeded (e : effect) : bool :=
  match e with Seeded _ => true | _ => false end.

Definition is_seeded_of (i : nat) (e : effect) : bool :=
  match e with Seeded k => (k =? i)%nat | _ => false end.

Definition is_sent (e : effect) : bool :=
  match e with Sent _ => true | _ => false end.

Definition is_took_credit (e : effect) : bool :=
  match e with TookCredit => true | _ => false end.

Definition is_send_data (e : effect) : bool :=
  match e with NetBufAlloc _ => true | _ => false end.

Definition is_stream_send (e : effect) : bool :=
  match e with StreamSend _ _ _ => true | _ => false end.

(** What only happens once the streams have been waited for: seeding a
    credit, taking one, getting a buffer, sending. *)
Definition is_transmission (e : effect) : bool :=
  match e with
  | Seeded _ | TookCredit | NetBufAlloc _ | NetBufUnref | StreamSend _ _ _
  | Sent _ => true
  | _ => false
  end.

(** The streams that have signalled started, in order. *)
Fixpoint started_streams (t : list effect) : list nat :=
  match t with
  | [] => []
  | Started i :: t' => i :: started_streams t'
  | _ :: t' => started_streams t'
  end.

(** The sequence numbers given to [bt_bap_stream_send] for stream [i], in
    order, with the value it returned. *)
Fixpoint submitted (i : nat) (t : list effect) : list (Z * Z) :=
  match t with
  | [] => []
  | StreamSend k seq ret :: t' =>
      if (k =? i)%nat then (seq, ret) :: submitted i t' else submitted i t'
  | _ :: t' => submitted i t'
  end.

(** The calls of [bt_bap_stream_send] for stream [i] since the stream last
    signalled started, in order: the sequence number given and the value
    returned. [acc] is what came before [t]. *)
Fixpoint since_started (i : nat) (t : list effect) (acc : list (Z * Z))
  : list (Z * Z) :=
  match t with
  | [] => acc
  | Started k :: t' => since_started i t' (if (k =? i)%nat then [] else acc)
  | StreamSend k seq ret :: t' =>
      since_started i t' (if (k =? i)%nat then acc ++ [(seq, ret)] else acc)
  | _ :: t' => since_started i t' acc
  end.

Definition submissions (i : nat) (t : list effect) : list (Z * Z) :=
  since_started i t [].

(** A call of [bt_bap_stream_send] that took the buffer. *)
Definition taken (x : Z * Z) : bool := 0 <=? x.2.

(** [P] holds of every effect of the trace and of what came before it. *)
Definition each_after (P : list effect -> effect -> Prop) (t : list effect)
  : Prop :=
  forall t1 e t2, t = t1 ++ e :: t2 -> P t1 e.

(** The credits seeded once [main] is at [pc], and those for stream [k]. *)
Definition seeded (cfg : config) (pc : main_loc) : nat :=
  match pc with
  | main_init_sending i j => (BROADCAST_ENQUEUE_COUNT * i + j)%nat
  | main_sleep => TOTAL_BUF_NEEDED cfg
  | _ => 0%nat
  end.

Definition seeded_of (cfg : config) (pc : main_loc) (k : nat) : nat :=
  match pc with
  | main_init_sending i j =>
      if (k <? i)%nat then BROADCAST_ENQUEUE_COUNT
      else if (k =? i)%nat then j else 0%nat
  | main_sleep =>
      if (k <? stream_count cfg)%nat then BROADCAST_ENQUEUE_COUNT else 0%nat
  | _ => 0%nat
  end.

(** The iterations of the loop that waits for the streams done at [pc]. *)
Definition waited (cfg : config) (pc : main_loc) : nat :=
  match pc with
  | main_entry => 0%nat
  | main_wait_started i => i
  | main_init_sending _ _ => stream_count cfg
  | main_sleep => stream_count cfg
  | main_returned _ => 0%nat
  end.

(** Whether [main] is past the loop that waits for the streams. *)
Definition released (s : sys) : bool :=
  match main_pc s with
  | main_init_sending _ _ | main_sleep => true
  | _ => false
  end.

(** The credits the encoder thread has taken in the cycle it is in and
    not yet spent on a call of [send_data]. *)
Definition pending (cfg : config) (pc : encoder_loc) : nat :=
  match pc with
  | encoder_take i => i
  | encoder_send i => (stream_count cfg - i)%nat
  | _ => 0%nat
  end.

(** The invariant of the system. *)
Record inv (cfg : config) (s : sys) : Prop := {
  inv_streams : length (streams s) = stream_count cfg;
  inv_queue : length (iso_queue s) = stream_count cfg;
  inv_limit : limit (lc3_encoder_sem s) = TOTAL_BUF_NEEDED cfg;
  inv_limit_started : limit (sem_started s) = stream_count cfg;
  inv_pool : (tx_pool s + sum_list (iso_queue s))%nat = TOTAL_BUF_NEEDED cfg;
  inv_credit :
    (count (lc3_encoder_sem s) + sum_list (iso_queue s)
     + pending cfg (encoder_pc s) <= seeded cfg (main_pc s))%nat;
  inv_main_pc :
    match main_pc s with
    | main_wait_started i => (i < stream_count cfg)%nat
    | main_init_sending i j =>
        (i < stream_count cfg)%nat /\ (j < BROADCAST_ENQUEUE_COUNT)%nat
    | _ => True
    end;
  inv_encoder_pc :
    match encoder_pc s with
    | encoder_take i | encoder_send i => (i < stream_count cfg)%nat
    | encoder_spin => stream_count cfg = 0%nat
    | _ => True
    end;
  inv_seeded : count_if is_seeded (trace s) = seeded cfg (main_pc s);
  inv_seeded_of :
    forall k, count_if (is_seeded_of k) (trace s) = seeded_of cfg (main_pc s) k;
  inv_waited : count_if is_took_started (trace s) = waited cfg (main_pc s);
  inv_started_le :
    (count (sem_started s) + waited cfg (main_pc s)
     <= count_if is_started (trace s))%nat;
  inv_started_ge :
    (Nat.min (stream_count cfg) (count_if is_started (trace s))
     <= count (sem_started s) + waited cfg (main_pc s))%nat;
  inv_started_streams :
    Forall (fun i => (i < stream_count cfg)%nat) (started_streams (trace s))
}.

(** ** The reference scenario *)

(** Two streams in one subgroup, the 16 kHz / 10 ms preset, the sine wave
    as audio, [main] at Zephyr's default priority. *)
Definition reference_config : config :=
  {| CONFIG_BT_BAP_BROADCAST_SRC_STREAM_COUNT := 2;
     CONFIG_BT_BAP_BROADCAST_SRC_SUBGROUP_COUNT := 1;
     CONFIG_BAP_BROADCAST := BAP_BROADCAST_16_2_1;
     CONFIG_USB_DEVICE_AUDIO := false;
     CONFIG_STATIC_BROADCAST_ID := false;
     CONFIG_MAIN_THREAD_PRIORITY := 0 |}.

(** The same with the USB headset as audio. *)
Definition usb_config : config :=
  {| CONFIG_BT_BAP_BROADCAST_SRC_STREAM_COUNT := 2;
     CONFIG_BT_BAP_BROADCAST_SRC_SUBGROUP_COUNT := 1;
     CONFIG_BAP_BROADCAST := BAP_BROADCAST_16_2_1;
     CONFIG_USB_DEVICE_AUDIO := true;
     CONFIG_STATIC_BROADCAST_ID := false;
     CONFIG_MAIN_THREAD_PRIORITY := 0 |}.

(** Every call of [main] succeeds. *)
Definition main_ok : main_env :=
  {| bt_enable := 0; device_is_ready := true; usb_enable := 0;
     bt_le_ext_adv_create := 0; bt_le_per_adv_set_param := 0;
     bt_bap_broadcast_source_create := 0; bt_rand := 0;
     bt_le_ext_adv_set_data := 0; bt_bap_broadcast_source_get_base := 0;
     bt_le_per_adv_set_data := 0; bt_le_ext_adv_start := 0;
     bt_le_per_adv_start := 0; bt_bap_broadcast_source_start := 0 |}.

Definition BT_AUDIO_CODEC_CFG_FREQ_16KHZ : Z := 3.
Definition BT_AUDIO_CODEC_CFG_DURATION_10 : Z := 1.

(** The codec configuration of the 16_2_1 preset resolves, and liblc3
    sets up every encoder. *)
Definition codec_ok : codec_env :=
  {| bt_audio_codec_cfg_get_freq := BT_AUDIO_CODEC_CFG_FREQ_16KHZ;
     bt_audio_codec_cfg_freq_to_freq_hz := fun _ => 16000;
     bt_audio_codec_cfg_get_frame_dur := BT_AUDIO_CODEC_CFG_DURATION_10;
     bt_audio_codec_cfg_frame_dur_to_frame_dur_us := fun _ => 10000;
     bt_audio_codec_cfg_get_octets_per_frame := 40;
     bt_audio_codec_cfg_get_frame_blocks_per_sdu := 1;
     lc3_setup_encoder := fun _ dt sr => Some {| dt_us := dt; sr_hz := sr |};
     fill_audio_buf_sin := fun buf _ _ _ => buf |}.

(** A call of [send_data] in which nothing fails. *)
Definition send_ok : send_env :=
  {| net_buf_alloc_null := false;
     lc3_encode_ret := 0;
     bt_bap_stream_send_ret := 0 |}.

(** [bt_bap_stream_send] rejects the buffer with [-EINVAL]. *)
Definition send_rejected : send_env :=
  {| net_buf_alloc_null := false;
     lc3_encode_ret := 0;
     bt_bap_stream_send_ret := -22 |}.

(** [lc3_encode] fails. *)
Definition send_encode_error : send_env :=
  {| net_buf_alloc_null := false;
     lc3_encode_ret := -1;
     bt_bap_stream_send_ret := 0 |}.

(** Start-up of the reference scenario: [main] runs up to the loop that
    waits for the streams, the encoder thread sets up, the two streams
    signal started, [main] takes [sem_started] twice and gives the six
    initial credits. *)
Definition startup : list event :=
  [ev_main_setup main_ok; ev_encoder_setup codec_ok;
   ev_started 1; ev_started 0; ev_main; ev_main]
  ++ replicate 6 ev_main.

(** One cycle of the encoder thread in which nothing fails, followed by
    the two sent notifications. *)
Definition cycle : list event :=
  [ev_encoder_take; ev_encoder_take;
   ev_encoder_send send_ok; ev_encoder_send send_ok;
   ev_sent 0; ev_sent 1].

Fixpoint cycles (n : nat) : list event :=
  match n with
  | O => []
  | S n' => cycle ++ cycles n'
  end.

(** The state a schedule leads to ([boot] when it cannot run). *)
Definition state_after (cfg : config) (sched : list event) : sys :=
  default (boot cfg) (run cfg sched (boot cfg)).


(** Three cycles without any sent notification, three sent notifications
    for stream 0 and none for stream 1, and a fourth cycle. *)
Definition stream_1_lags : list event :=
  startup
  ++ concat (replicate 3 [ev_encoder_take; ev_encoder_take;
                          ev_encoder_send send_ok; ev_encoder_send send_ok])
  ++ [ev_sent 0; ev_sent 0; ev_sent 0]
  ++ [ev_encoder_take; ev_encoder_take;
      ev_encoder_send send_ok; ev_encoder_send send_ok].

(** A first cycle in which the stack rejects the buffer of stream 0, and
    a second cycle in which nothing fails. *)
Definition one_rejection : list event :=
  startup
  ++ [ev_encoder_take; ev_encoder_take;
      ev_encoder_send send_rejected; ev_encoder_send send_ok; ev_sent 1]
  ++ [ev_encoder_take; ev_encoder_take;
      ev_encoder_send send_ok; ev_encoder_send send_ok].

(** A first cycle in which [lc3_encode] fails for stream 0, and the takes
    of the second cycle. *)
Definition one_encode_error : list event :=
  startup
  ++ [ev_encoder_take; ev_encoder_take;
      ev_encoder_send send_encode_error; ev_encoder_send send_ok; ev_sent 1]
  ++ [ev_encoder_take; ev_encoder_take].

(** A cycle in which the stack takes the buffer of stream 0, which it
    then completes, and rejects that of stream 1. *)
Definition cycle_stream_1_rejected : list event :=
  [ev_encoder_take; ev_encoder_take;
   ev_encoder_send send_ok; ev_encoder_send send_rejected; ev_sent 0].

(** Start-up, then the stack rejects every buffer of stream 1: the five
    cycles there are credits for, and the take of the one credit left. *)
Definition stream_1_rejected : list event :=
  startup
  ++ concat (replicate 5 cycle_stream_1_rejected)
  ++ [ev_encoder_take].

(** Start-up, then [lc3_encode] fails in every call: the three cycles
    there are credits for. *)
Definition all_encode_errors : list event :=
  startup
  ++ concat (replicate 3 [ev_encoder_take; ev_encoder_take;
                          ev_encoder_send send_encode_error;
                          ev_encoder_send send_encode_error]).

(** A stream of the USB configuration with its encoder set up and three
    bytes in its ring. *)
Definition short_ring_stream : broadcast_source_stream :=
  {| seq_num := 0; sent_cnt := 0;
     lc3_encoder := Some {| dt_us := 10000; sr_hz := 16000 |};
     audio_ring_buf := [1; 2; 3] |}.

(** The codec configuration does not give the frequency. *)
Definition codec_no_freq : codec_env :=
  {| bt_audio_codec_cfg_get_freq := -2;
     bt_audio_codec_cfg_freq_to_freq_hz := fun _ => 16000;
     bt_audio_codec_cfg_get_frame_dur := BT_AUDIO_CODEC_CFG_DURATION_10;
     bt_audio_codec_cfg_frame_dur_to_frame_dur_us := fun _ => 10000;
     bt_audio_codec_cfg_get_octets_per_frame := 40;
     bt_audio_codec_cfg_get_frame_blocks_per_sdu := 1;
     lc3_setup_encoder := fun _ dt sr => Some {| dt_us := dt; sr_hz := sr |};
     fill_audio_buf_sin := fun buf _ _ _ => buf |}.

(** The codec configuration does not give the frame duration. *)
Definition codec_no_frame_dur : codec_env :=
  {| bt_audio_codec_cfg_get_freq := BT_AUDIO_CODEC_CFG_FREQ_16KHZ;
     bt_audio_codec_cfg_freq_to_freq_hz := fun _ => 16000;
     bt_audio_codec_cfg_get_frame_dur := -2;
     bt_audio_codec_cfg_frame_dur_to_frame_dur_us := fun _ => 10000;
     bt_audio_codec_cfg_get_octets_per_frame := 40;
     bt_audio_codec_cfg_get_frame_blocks_per_sdu := 1;
     lc3_setup_encoder := fun _ dt sr => Some {| dt_us := dt; sr_hz := sr |};
     fill_audio_buf_sin := fun buf _ _ _ => buf |}.

(** [lc3_setup_encoder] fails for stream 0. *)
Definition codec_encoder_0_fails : codec_env :=
  {| bt_audio_codec_cfg_get_freq := BT_AUDIO_CODEC_CFG_FREQ_16KHZ;
     bt_audio_codec_cfg_freq_to_freq_hz := fun _ => 16000;
     bt_audio_codec_cfg_get_frame_dur := BT_AUDIO_CODEC_CFG_DURATION_10;
     bt_audio_codec_cfg_frame_dur_to_frame_dur_us := fun _ => 10000;
     bt_audio_codec_cfg_get_octets_per_frame := 40;
     bt_audio_codec_cfg_get_frame_blocks_per_sdu := 1;
     lc3_setup_encoder :=
       fun i dt sr => match i with
                      | O => None
                      | S _ => Some {| dt_us := dt; sr_hz := sr |}
                      end;
     fill_audio_buf_sin := fun buf _ _ _ => buf |}.

(** Start-up with a codec configuration [codec]: as [startup]. *)
Definition startup_with (codec : codec_env) : list event :=
  [ev_main_setup main_ok; ev_encoder_setup codec;
   ev_started 1; ev_started 0; ev_main; ev_main]
  ++ replicate 6 ev_main.

(** Two cycles after a start-up in which the encoder of stream 0 could
    not be set up. *)
Definition encoder_0_missing : list event :=
  startup_with codec_encoder_0_fails
  ++ [ev_encoder_take; ev_encoder_take;
      ev_encoder_send send_ok; ev_encoder_send send_ok; ev_sent 1]
  ++ [ev_encoder_take; ev_encoder_take;
      ev_encoder_send send_ok; ev_encoder_send send_ok; ev_sent 1].

(** ** Vocabulary of the properties *)

(** A message printed. *)
Definition is_printk (e : effect) : bool :=
  match e with Printk _ _ => true | _ => false end.

(** The effects of [send_data]. *)
Definition is_send_effect (e : effect) : bool :=
  match e with
  | Printk _ _ | NetBufAlloc _ | NetBufUnref | StreamSend _ _ _ => true
  | _ => false
  end.

(** A sequence of calls whose only effects are messages. *)
Definition printk_only {A : Type} (m : prog A) : Prop :=
  forallb is_printk m.1 = true.

(** The streams are waited for before anything is transmitted: whatever
    belongs to transmission comes after [stream_count] completed takes of
    [sem_started], hence after as many started signals. *)
Definition after_barrier (cfg : config) (t1 : list effect) (e : effect)
  : Prop :=
  is_transmission e = true ->
  (stream_count cfg <= count_if is_took_started t1)%nat /\
  (stream_count cfg <= count_if is_started t1)%nat.

(** The account of the credits: those in the semaphore and those taken
    are those seeded and those returned by sent notifications; each call
    of [send_data] follows a take of its own. *)
Record balance (cfg : config) (s : sys) : Prop := {
  bal_credits :
    (count (lc3_encoder_sem s) + count_if is_took_credit (trace s)
     = count_if is_seeded (trace s) + count_if is_sent (trace s))%nat;
  bal_calls :
    count_if is_took_credit (trace s)
    = (count_if is_send_data (trace s) + pending cfg (encoder_pc s))%nat
}.

(** An effect of a cycle of the encoder thread: a credit taken, a call of
    [send_data], a buffer handed to the stack. *)
Definition is_cycle (e : effect) : bool :=
  is_took_credit e || is_send_data e || is_stream_send e.

(** The cycles of the encoder thread come after the seeding: before an
    effect of a cycle every stream has got its initial credits. *)
Definition seeded_before (cfg : config) (t1 : list effect) (e : effect)
  : Prop :=
  is_cycle e = true ->
  forall k, (k < stream_count cfg)%nat ->
            (BROADCAST_ENQUEUE_COUNT <= count_if (is_seeded_of k) t1)%nat.

(** The stream with another content of its ring. *)
Definition with_ring (rb : list Z) (st : broadcast_source_stream)
  : broadcast_source_stream :=
  {| seq_num := seq_num st; sent_cnt := sent_cnt st;
     lc3_encoder := lc3_encoder st; audio_ring_buf := rb |}.

(** What [send_data] writes, read off the counters and the encoder handle
    of the stream alone (lemma [send_data_spec] proves that [send_data]
    writes just this). *)
Definition send_data_writes (i : nat) (env : send_env)
    (st : broadcast_source_stream) : list effect :=
  if net_buf_alloc_null env then
    [NetBufAlloc false;
     Printk "Could not allocate buffer when sending on %p" [Z.of_nat i]]
  else
    match lc3_encoder st with
    | None =>
        [NetBufAlloc true;
         Printk "LC3 encoder not setup, cannot encode data." [];
         NetBufUnref]
    | Some _ =>
        if lc3_encode_ret env =? -1 then
          [NetBufAlloc true;
           Printk "LC3 encoder failed - wrong parameters?: %d"
                  [lc3_encode_ret env];
           NetBufUnref]
        else if bt_bap_stream_send_ret env <? 0 then
          [NetBufAlloc true;
           StreamSend i (seq_num st) (bt_bap_stream_send_ret env);
           Printk "Unable to broadcast data on %p: %d"
                  [Z.of_nat i; bt_bap_stream_send_ret env];
           NetBufUnref]
        else
          [NetBufAlloc true;
           StreamSend i (seq_num st) (bt_bap_stream_send_ret env)]
          ++ (if ((sent_cnt st + 1) mod (SIZE_MAX + 1)) mod 1000 =? 0
              then [Printk "Stream %p: Sent %u total ISO packets"
                           [Z.of_nat i; (sent_cnt st + 1) mod (SIZE_MAX + 1)]]
              else [])
    end.

(** The counters of the stream after [send_data] (again lemma
    [send_data_spec]). *)
Definition send_data_counters (env : send_env) (st : broadcast_source_stream)
  : Z * Z :=
  if net_buf_alloc_null env then (seq_num st, sent_cnt st)
  else
    match lc3_encoder st with
    | None => (seq_num st, sent_cnt st)
    | Some _ =>
        if lc3_encode_ret env =? -1 then (seq_num st, sent_cnt st)
        else if bt_bap_stream_send_ret env <? 0 then
          ((seq_num st + 1) mod (UINT16_MAX + 1), sent_cnt st)
        else
          ((seq_num st + 1) mod (UINT16_MAX + 1),
           (sent_cnt st + 1) mod (SIZE_MAX + 1))
    end.

(** The counters of a stream against the trace: the sequence number is
    the number of submissions since the stream started, the sent counter
    the number of those the stack took, and submission [k] carried
    sequence number [k]. *)
Definition counted (i : nat) (st : broadcast_source_stream)
    (t : list effect) : Prop :=
  seq_num st = Z.of_nat (length (submissions i t)) mod (UINT16_MAX + 1) /\
  sent_cnt st
  = Z.of_nat (length (List.filter taken (submissions i t))) mod (SIZE_MAX + 1) /\
  forall k x, submissions i t !! k = Some x ->
              x.1 = Z.of_nat k mod (UINT16_MAX + 1).

(** The counters of all streams agree with the trace, and nothing is sent
    before [main] has run. *)
Record counters (cfg : config) (s : sys) : Prop := {
  cnt_streams : forall i st, streams s !! i = Some st -> counted i st (trace s);
  cnt_entry :
    main_pc s = main_entry -> count_if is_stream_send (trace s) = 0%nat
}.

(** The sequence numbers [0 .. n-1], each with the answer 0 of the
    stack. *)
Definition run_of_frames (n : nat) : list (Z * Z) :=
  map (fun k => (Z.of_nat k, 0)) (seq 0 n).

(** The encoder thread is in its loop and stream [i] has its encoder. *)
Definition encoding (i : nat) (enc : lc3_encoder_t) (s : sys) : Prop :=
  main_pc s <> main_entry /\
  (exists k, encoder_pc s = encoder_take k \/ encoder_pc s = encoder_send k) /\
  exists st, streams s !! i = Some st /\ lc3_encoder st = Some enc.

(** The encoder thread waits in iteration [k] of its loop of [k_sem_take]
    for a credit that cannot come: [main] sleeps, the semaphore is empty,
    the stack holds no buffer. [calls] and [sends] are the numbers of calls
    of [send_data] and of [bt_bap_stream_send] so far. *)
Definition stalled (k calls sends : nat) (s : sys) : Prop :=
  main_pc s = main_sleep /\
  encoder_pc s = encoder_take k /\
  count (lc3_encoder_sem s) = 0%nat /\
  iso_queue s = [0%nat; 0%nat] /\
  count_if is_send_data (trace s) = calls /\
  count_if is_stream_send (trace s) = sends.

(** The messages of a trace with the format [fmt]. *)
Definition is_message (fmt : string) (e : effect) : bool :=
  match e with Printk f _ => String.eqb f fmt | _ => false end.

(** The streams from [i] on, [n] of them, for which [lc3_setup_encoder]
    fails. *)
Fixpoint failed_setups (env : codec_env) (g : codec_globals) (i n : nat)
  : nat :=
  match n with
  | O => 0%nat
  | S n' =>
      ((match lc3_setup_encoder env i (frame_duration_us g) (freq_hz g) with
        | None => 1
        | Some _ => 0
        end) + failed_setups env g (S i) n')%nat
  end.

(** The sequence numbers of [n] frames in a row, each taken by the
    stack. *)
Definition frames (n : nat) : list (Z * Z) :=
  map (fun k => (Z.of_nat k mod (UINT16_MAX + 1), 0)) (seq 0 n).

(** The reference scenario between two cycles, [n] cycles done. *)
Definition between_cycles (n : nat) (s : sys) : Prop :=
  main_pc s = main_sleep /\
  encoder_pc s = encoder_take 0 /\
  lc3_encoder_sem s = {| count := 6; limit := 6 |} /\
  tx_pool s = 6%nat /\
  iso_queue s = [0%nat; 0%nat] /\
  (exists e0 e1 r0 r1,
      streams s
      = [ {| seq_num := Z.of_nat n mod (UINT16_MAX + 1);
             sent_cnt := Z.of_nat n mod (SIZE_MAX + 1);
             lc3_encoder := Some e0; audio_ring_buf := r0 |};
          {| seq_num := Z.of_nat n mod (UINT16_MAX + 1);
             sent_cnt := Z.of_nat n mod (SIZE_MAX + 1);
             lc3_encoder := Some e1; audio_ring_buf := r1 |} ]) /\
  submissions 0 (trace s) = frames n /\
  submissions 1 (trace s) = frames n.

(** A stream with its encoder set up. *)
Definition stream_with (a b : Z) (e : lc3_encoder_t) (r : list Z)
  : broadcast_source_stream :=
  {| seq_num := a; sent_cnt := b; lc3_encoder := Some e;
     audio_ring_buf := r |}.

(** The message of [send_data] every 1000 frames. *)
Definition total_message (i : nat) (cnt : Z) : list effect :=
  if cnt mod 1000 =? 0
  then [Printk "Stream %p: Sent %u total ISO packets" [Z.of_nat i; cnt]]
  else [].

(* --------------------------------------------------------------------- *)
(** ** The advertising data, the USB callback, the source parameters, the sine wave *)

(** ** The extended advertising data *)

Definition BT_DATA_MANUFACTURER_DATA : Z := 0xff.

(** [ad_data_1]: 0x57, seventeen bytes 0x00, 0xDF, 0xFD. *)
Definition ad_data_1 : list Z :=
  [0x57] ++ replicate 17 0x00 ++ [0xDF; 0xFD].

(** [struct net_buf_simple]: the bytes added so far and the size of the
    buffer. *)
Record net_buf_simple := { nb_data : list Z; nb_size : nat }.

Definition NET_BUF_SIMPLE_DEFINE (size : nat) : net_buf_simple :=
  {| nb_data := []; nb_size := size |}.

(** [net_buf_simple_add]: [None] where the buffer has no room for the
    bytes (Zephyr asserts that it has). *)
Definition net_buf_simple_add (buf : net_buf_simple) (bytes : list Z)
  : option net_buf_simple :=
  if (length (nb_data buf) + length bytes <=? nb_size buf)%nat
  then Some {| nb_data := nb_data buf ++ bytes; nb_size := nb_size buf |}
  else None.

Definition sys_put_le16 (val : Z) : list Z :=
  [Z.land val 0xff; Z.land (Z.shiftr val 8) 0xff].

Definition sys_put_le24 (val : Z) : list Z :=
  Z.land val 0xff :: sys_put_le16 (Z.shiftr val 8).

Definition net_buf_simple_add_le16 (buf : net_buf_simple) (val : Z)
  : option net_buf_simple :=
  net_buf_simple_add buf (sys_put_le16 val).

Definition net_buf_simple_add_le24 (buf : net_buf_simple) (val : Z)
  : option net_buf_simple :=
  net_buf_simple_add buf (sys_put_le24 val).

(** The array [ext_ad] that [main] gives to [bt_le_ext_adv_set_data], from
    the bytes of [CONFIG_BT_DEVICE_NAME] and the value of [broadcast_id]
    ([CONFIG_BROADCAST_ID], or what [bt_rand] left in the variable). *)
Definition ext_ad (device_name : list Z) (broadcast_id : Z)
  : option (list Scanner.bt_data) :=
  let ad_buf :=
    NET_BUF_SIMPLE_DEFINE
      (Z.to_nat (Scanner.BT_UUID_SIZE_16 + Scanner.BT_AUDIO_BROADCAST_ID_SIZE)) in
  match net_buf_simple_add_le16 ad_buf Scanner.BT_UUID_BROADCAST_AUDIO_VAL with
  | None => None
  | Some ad_buf =>
      match net_buf_simple_add_le24 ad_buf broadcast_id with
      | None => None
      | Some ad_buf =>
          Some [ {| Scanner.type := Scanner.BT_DATA_SVC_DATA16;
                    Scanner.data := nb_data ad_buf |};
                 {| Scanner.type := Scanner.BT_DATA_BROADCAST_NAME;
                    Scanner.data := device_name |};
                 {| Scanner.type := BT_DATA_MANUFACTURER_DATA;
                    Scanner.data := ad_data_1 |} ]
      end
  end.

(** ** [data_received] *)

Definition USB_DOWNSAMPLE_RATE (cfg : config) : Z := BROADCAST_SAMPLE_RATE cfg.

(** The bytes of one packet of the headset as the comment in
    [data_received] has them: 1 ms at 48 kHz, stereo, 2 bytes per
    sample. *)
Definition usb_packet_bytes : nat :=
  Z.to_nat ((USB_FRAME_DURATION_US * USB_SAMPLE_RATE) / USEC_PER_SEC
            * USB_CHANNELS * USB_BYTES_PER_SAMPLE).

(** [pcm[j]]: the two bytes of sample [j] of the payload. *)
Definition pcm_sample (pcm : list Z) (j : nat) : list Z :=
  [nth (2 * j) pcm 0; nth (2 * j + 1) pcm 0].

(** The loop of [data_received] that fills [usb_pcm_data], [n] iterations
    from index [j] of the payload on, [stride] samples further in each
    iteration; [ch0] and [ch1] are the bytes written to
    [usb_pcm_data[0]] and [usb_pcm_data[1]] so far. *)
Fixpoint downsample (pcm : list Z) (stride n j : nat) (ch0 ch1 : list Z)
  : list Z * list Z :=
  match n with
  | O => (ch0, ch1)
  | S n' =>
      downsample pcm stride n' (j + stride)
                 (ch0 ++ pcm_sample pcm j) (ch1 ++ pcm_sample pcm (j + 1))
  end.

(** What a call of [data_received] leaves: the streams, the static
    [count], what it printed, and whether it released the buffer. *)
Record usb_result := {
  usb_streams : list broadcast_source_stream;
  usb_count_after : Z;
  usb_out : list effect;
  usb_unref : bool
}.

(** [data_received(dev, buffer, size)], [buffer] being [None] for [NULL]
    and the payload of the buffer otherwise. The result is [None] where
    the C code has no defined behaviour: the buffer holds fewer than
    [size] bytes ([net_buf_pull_mem] asserts that it does not), or the
    first loop writes past the [USB_NUM_SAMPLES] samples of a row of
    [usb_pcm_data], or [count++] overflows the [static int count] (it
    stands at [INT_MAX]). *)
Definition data_received (cfg : config) (buffer : option (list Z))
    (size : nat) (streams : list broadcast_source_stream) (count : Z)
  : option usb_result :=
  match buffer with
  | None =>
      Some {| usb_streams := streams; usb_count_after := count;
              usb_out := []; usb_unref := false |}
  | Some payload =>
      if (size =? 0)%nat then
        Some {| usb_streams := streams; usb_count_after := count;
                usb_out := []; usb_unref := true |}
      else if (length payload <? size)%nat then None
      else
        let ratio := USB_SAMPLE_RATE / USB_DOWNSAMPLE_RATE cfg in
        let nsamples := Z.of_nat size / (2 * USB_CHANNELS * ratio) in
        if USB_NUM_SAMPLES cfg <? nsamples then None
        else
          let '(ch0, ch1) :=
            downsample payload (Z.to_nat (USB_CHANNELS * ratio))
                       (Z.to_nat nsamples) 0 [] [] in
          let '(streams', out) := usb_put cfg 0 [ch0; ch1] streams in
          if count =? INT_MAX then None else
          let n := count + 1 in
          Some {| usb_streams := streams'; usb_count_after := n;
                  usb_out :=
                    out ++ (if n mod 1000 =? 0
                            then [Printk "USB Data received (count = %d)" [n]]
                            else []);
                  usb_unref := true |}
  end.

(** Frame [i] of the payload in steps of [ratio] frames: the bytes of its
    left sample and of its right sample. *)
Definition left_of (cfg : config) (payload : list Z) (i : nat) : list Z :=
  pcm_sample payload
    (i * Z.to_nat (USB_CHANNELS * (USB_SAMPLE_RATE / USB_DOWNSAMPLE_RATE cfg))).

Definition right_of (cfg : config) (payload : list Z) (i : nat) : list Z :=
  pcm_sample payload
    (i * Z.to_nat (USB_CHANNELS * (USB_SAMPLE_RATE / USB_DOWNSAMPLE_RATE cfg))
     + 1).

(** The number of samples per channel [data_received] takes from [size]
    bytes. *)
Definition nsamples_of (cfg : config) (size : nat) : nat :=
  Z.to_nat (Z.of_nat size
            / (2 * USB_CHANNELS * (USB_SAMPLE_RATE / USB_DOWNSAMPLE_RATE cfg))).

(** The message of [data_received] for the ring of stream [k] that took
    [size_put] of [size] bytes. *)
Definition no_room_message (cfg : config) (k size_put size : nat) : effect :=
  Printk "Not enough room for samples in %s buffer: %u < %u, total capacity: %u"
         [Z.of_nat k; Z.of_nat size_put; Z.of_nat size;
          Z.of_nat (AUDIO_RING_BUF_BYTES cfg)].

(** The room left in the ring of a stream. *)
Definition ring_room (cfg : config) (st : broadcast_source_stream) : nat :=
  AUDIO_RING_BUF_BYTES cfg - length (audio_ring_buf st).

(** The bytes of channel [c] of a packet after the downsampling, given as
    the pair of the two channels. *)
Definition usb_channel (c : nat) (p : list Z * list Z) : list Z :=
  match c with O => p.1 | _ => p.2 end.

(** The packets of the headset that make up one frame of
    [send_pcm_data]. *)
Definition usb_packets_per_frame : nat :=
  Z.to_nat (MAX_FRAME_DURATION_US / USB_FRAME_DURATION_US).

(** The rings of the streams hold no more than their capacity, and those
    of the streams after the second hold nothing. *)
Definition rings_kept (cfg : config) (l : list broadcast_source_stream)
  : Prop :=
  forall i st, l !! i = Some st ->
    (length (audio_ring_buf st) <= AUDIO_RING_BUF_BYTES cfg)%nat /\
    ((2 <= i)%nat -> audio_ring_buf st = []).

(** A buffer got from [tx_pool], a buffer given back to it, a buffer the
    stack took. *)
Definition is_alloc (e : effect) : bool :=
  match e with NetBufAlloc got => got | _ => false end.

Definition is_unref (e : effect) : bool :=
  match e with NetBufUnref => true | _ => false end.

Definition is_accepted (e : effect) : bool :=
  match e with StreamSend _ _ ret => 0 <=? ret | _ => false end.

(** An effect that has to do with a buffer of [tx_pool]. *)
Definition is_buffer_effect (e : effect) : bool :=
  is_alloc e || is_unref e || is_accepted e || is_sent e.

(** The account of the buffers: each buffer got from the pool was given
    back or taken by the stack, and each buffer the stack took is queued
    there or its transmission is complete. *)
Record buffers_accounted (s : sys) : Prop := {
  acc_alloc :
    count_if is_alloc (trace s)
    = (count_if is_unref (trace s) + count_if is_accepted (trace s))%nat;
  acc_queue :
    count_if is_accepted (trace s)
    = (count_if is_sent (trace s) + sum_list (iso_queue s))%nat
}.

(** The calls of [main] before [k_thread_start(encoder)] succeed. *)
Definition thread_start_ok (cfg : config) (env : main_env) : bool :=
  (bt_enable env =? 0)
  && (if CONFIG_USB_DEVICE_AUDIO cfg
      then device_is_ready env
           && ((usb_enable env =? 0) || (usb_enable env =? - EALREADY))
      else true).

(** The calls of [main] after [k_thread_start(encoder)] succeed. *)
Definition advertising_ok (cfg : config) (env : main_env) : bool :=
  (bt_le_ext_adv_create env =? 0)
  && (bt_le_per_adv_set_param env =? 0)
  && (bt_bap_broadcast_source_create env =? 0)
  && (CONFIG_STATIC_BROADCAST_ID cfg || (bt_rand env =? 0))
  && (bt_le_ext_adv_set_data env =? 0)
  && (bt_bap_broadcast_source_get_base env =? 0)
  && (bt_le_per_adv_set_data env =? 0)
  && (bt_le_ext_adv_start env =? 0)
  && (bt_le_per_adv_start env =? 0)
  && (bt_bap_broadcast_source_start env =? 0).

(** A stopped callback, in the trace and in a schedule. *)
Definition is_stopped (e : effect) : bool :=
  match e with Stopped _ => true | _ => false end.

Definition is_ev_stopped (ev : event) : bool :=
  match ev with ev_stopped _ => true | _ => false end.

(** The trace, the schedule without the stopped callbacks. *)
Definition without_stopped (t : list effect) : list effect :=
  List.filter (fun e => negb (is_stopped e)) t.

Definition without_ev_stopped (sched : list event) : list event :=
  List.filter (fun ev => negb (is_ev_stopped ev)) sched.

(** Two states that differ at most in [sem_stopped] and in the stopped
    callbacks of the trace. *)
Record same_but_stopped (s s' : sys) : Prop := {
  same_streams : streams s = streams s';
  same_pcm : send_pcm_data s = send_pcm_data s';
  same_globals : globals s = globals s';
  same_sem_started : sem_started s = sem_started s';
  same_lc3_encoder_sem : lc3_encoder_sem s = lc3_encoder_sem s';
  same_tx_pool : tx_pool s = tx_pool s';
  same_iso_queue : iso_queue s = iso_queue s';
  same_usb_count : usb_count s = usb_count s';
  same_main_pc : main_pc s = main_pc s';
  same_encoder_pc : encoder_pc s = encoder_pc s';
  same_trace : without_stopped (trace s) = without_stopped (trace s')
}.

(** ** The parameters of [setup_broadcast_source] *)

(** The codec data of a stream: the array [left_stream] or the array
    [right_stream]. *)
Inductive codec_data := left_stream | right_stream.

(** [struct bt_bap_broadcast_source_stream_param]: the stream as its index
    in [streams], and its codec data. *)
Record stream_param := { sp_stream : nat; sp_data : codec_data }.

(** [struct bt_bap_broadcast_source_subgroup_param]: [params] as the index
    in [stream_params] it points to. *)
Record subgroup_param := { params_count : nat; params : nat }.

Definition streams_per_subgroup (cfg : config) : nat :=
  stream_count cfg / CONFIG_BT_BAP_BROADCAST_SRC_SUBGROUP_COUNT cfg.

(** The first loop of [setup_broadcast_source], [n] iterations from
    subgroup [i] on. *)
Fixpoint subgroup_params_from (cfg : config) (i n : nat)
  : list subgroup_param :=
  match n with
  | O => []
  | S n' =>
      {| params_count := streams_per_subgroup cfg;
         params := i * streams_per_subgroup cfg |}
      :: subgroup_params_from cfg (S i) n'
  end.

(** The second loop, [n] iterations from stream [j] on. *)
Fixpoint stream_params_from (j n : nat) : list stream_param :=
  match n with
  | O => []
  | S n' =>
      {| sp_stream := j;
         sp_data := if (j =? 0)%nat then left_stream else right_stream |}
      :: stream_params_from (S j) n'
  end.

(** The arrays [subgroup_param] and [stream_params] when
    [bt_bap_broadcast_source_create] is called. *)
Definition subgroup_param_array (cfg : config) : list subgroup_param :=
  subgroup_params_from cfg 0 (CONFIG_BT_BAP_BROADCAST_SRC_SUBGROUP_COUNT cfg).

Definition stream_params_array (cfg : config) : list stream_param :=
  stream_params_from 0 (stream_count cfg).

(** Stream [j] lies in the part of [stream_params] a subgroup points
    to. *)
Definition in_subgroup (sg : subgroup_param) (j : nat) : Prop :=
  (params sg <= j < params sg + params_count sg)%nat.

(** ** [fill_audio_buf_sin] *)

Definition INT16_MAX : Z := 32767.
Definition AUDIO_VOLUME : Z := INT16_MAX - 3000.

(** [buf[i] = v] on the bytes of the buffer: the 16 bits of [v], low byte
    first. *)
Definition write_sample (buf : list Z) (i : nat) (v : Z) : list Z :=
  <[(2 * i + 1)%nat := Z.land (Z.shiftr v 8) 0xff]>
    (<[(2 * i)%nat := Z.land v 0xff]> buf).

Section WithSine.

(** [(int16_t)(AUDIO_VOLUME * sinf(i * step))] for
    [step = 2 * 3.1415f / sine_period_samples]: the value of the float
    expression, from [sine_period_samples] and [i]. *)
Variable sine_sample : Z -> nat -> Z.

(** The loop of [fill_audio_buf_sin], [n] iterations from sample [i]
    on. *)
Fixpoint fill_loop (sine_period_samples : Z) (buf : list Z) (i n : nat)
  : list Z :=
  match n with
  | O => buf
  | S n' =>
      fill_loop sine_period_samples
                (write_sample buf i (sine_sample sine_period_samples i))
                (S i) n'
  end.

(** [num_samples] of [fill_audio_buf_sin]: the product is one of [int]s,
    the division by [USEC_PER_SEC] an unsigned one. *)
Definition sine_num_samples (length_us sample_rate_hz : Z) : Z :=
  ((length_us * sample_rate_hz) mod (UINT_MAX + 1)) / USEC_PER_SEC.

(** [fill_audio_buf_sin(buf, length_us, frequency_hz, sample_rate_hz)] on
    the bytes of [buf]. The result is [None] where the C code has no
    defined behaviour: a division by zero, a product that is no [int], a
    sample written past the buffer. *)
Definition fill_audio_buf_sin_bytes (buf : list Z)
    (length_us frequency_hz sample_rate_hz : Z) : option (list Z) :=
  if frequency_hz =? 0 then None
  else if negb ((INT_MIN <=? length_us * sample_rate_hz)
                && (length_us * sample_rate_hz <=? INT_MAX)) then None
  else
    let sine_period_samples := Z.quot sample_rate_hz frequency_hz in
    let num_samples := sine_num_samples length_us sample_rate_hz in
    if Z.of_nat (length buf) <? 2 * num_samples then None
    else Some (fill_loop sine_period_samples buf 0 (Z.to_nat num_samples)).

End WithSine.

(** ** Further scenarios *)

(** Three streams with the USB headset as audio. *)
Definition three_stream_usb_config : config :=
  {| CONFIG_BT_BAP_BROADCAST_SRC_STREAM_COUNT := 3;
     CONFIG_BT_BAP_BROADCAST_SRC_SUBGROUP_COUNT := 1;
     CONFIG_BAP_BROADCAST := BAP_BROADCAST_16_2_1;
     CONFIG_USB_DEVICE_AUDIO := true;
     CONFIG_STATIC_BROADCAST_ID := false;
     CONFIG_MAIN_THREAD_PRIORITY := 0 |}.

(** Its start-up, followed by a packet of the headset. *)
Definition startup_three_streams : list event :=
  [ev_main_setup main_ok; ev_encoder_setup codec_ok;
   ev_started 0; ev_started 1; ev_started 2; ev_main; ev_main; ev_main]
  ++ replicate 9 ev_main
  ++ [ev_usb_data (replicate 32 1) (replicate 32 2)].

(** [bt_le_ext_adv_create] fails with [-ENOMEM]; the other calls
    succeed. *)
Definition main_no_advertising : main_env :=
  {| bt_enable := 0; device_is_ready := true; usb_enable := 0;
     bt_le_ext_adv_create := -12; bt_le_per_adv_set_param := 0;
     bt_bap_broadcast_source_create := 0; bt_rand := 0;
     bt_le_ext_adv_set_data := 0; bt_bap_broadcast_source_get_base := 0;
     bt_le_per_adv_set_data := 0; bt_le_ext_adv_start := 0;
     bt_le_per_adv_start := 0; bt_bap_broadcast_source_start := 0 |}.

(** A start-up that fails after the encoder thread was started; the
    thread sets up its encoders, and two streams signal started. *)
Definition failed_startup : list event :=
  [ev_main_setup main_no_advertising; ev_encoder_setup codec_ok;
   ev_started 0; ev_started 1].

(** The reference scenario with a stopped callback for stream 0 between
    the start-up and a cycle. *)
Definition stream_0_stops : list event :=
  startup ++ [ev_stopped 0] ++ cycle.

(** Ten packets of the headset after the downsampling to 16 kHz: 16
    samples per channel each. *)
Definition ten_packets : list (list Z * list Z) :=
  replicate 10 (replicate 32 1, replicate 32 2).

(** A packet of the headset of three frames. *)
Definition three_frames : list Z := [1; 2; 3; 4; 5; 6; 7; 8; 9; 10; 11; 12].

(** ** The credits that are lost *)

(** The calls of [send_data] that ended without the stack taking the
    buffer: no buffer, an encoder missing, an error of [lc3_encode], a
    buffer the stack rejected. *)
Definition failed_sends (t : list effect) : nat :=
  (count_if is_send_data t - count_if is_accepted t)%nat.

(** What the invariants of the credits and of the buffers say together. *)
Record accounted (cfg : config) (s : sys) : Prop := {
  accounted_inv : inv cfg s;
  accounted_credits : balance cfg s;
  accounted_buffers : buffers_accounted s
}.

(** One cycle of the encoder thread: a take for each stream, then a call
    of [send_data] for each stream, with what its callees answer. *)
Definition encoder_cycle (cfg : config) (envs : list send_env) : list event :=
  replicate (stream_count cfg) ev_encoder_take ++ map ev_encoder_send envs.

(** The first cycle of the reference scenario, in which the stack rejects
    the buffer of stream 1. *)
Definition answers_of_a_cycle : list send_env := [send_ok; send_rejected].

(** ** A build in which [main] has no priority over the encoder thread *)

(** The reference configuration with [main] at priority 7, below the
    encoder thread's 5. *)
Definition main_below_encoder_config : config :=
  {| CONFIG_BT_BAP_BROADCAST_SRC_STREAM_COUNT := 2;
     CONFIG_BT_BAP_BROADCAST_SRC_SUBGROUP_COUNT := 1;
     CONFIG_BAP_BROADCAST := BAP_BROADCAST_16_2_1;
     CONFIG_USB_DEVICE_AUDIO := false;
     CONFIG_STATIC_BROADCAST_ID := false;
     CONFIG_MAIN_THREAD_PRIORITY := 7 |}.

(** Its start-up: the encoder thread, which waits for a credit, runs as
    soon as [main] has seeded one. It takes the first credit and the
    second, and makes the two calls of [send_data] of its first cycle
    when [main] has seeded two credits of six. *)
Definition first_cycle_while_seeding : list event :=
  [ev_main_setup main_ok; ev_encoder_setup codec_ok;
   ev_started 1; ev_started 0; ev_main; ev_main;
   ev_main; ev_encoder_take; ev_main; ev_encoder_take;
   ev_encoder_send send_ok; ev_encoder_send send_ok].

(** ** The encoder thread outside its loop *)

(** The encoder thread is not in its loop: it is not started, or stands
    before [init_lc3_thread], or has returned from it. *)
Definition outside_loop (pc : encoder_loc) : bool :=
  match pc with
  | encoder_not_started | encoder_entry | encoder_returned => true
  | _ => false
  end.

(** It is [main] that starts the encoder thread, and the thread takes
    credits and calls [send_data] in its loop only. *)
Record thread_order (s : sys) : Prop := {
  order_start : main_pc s = main_entry -> encoder_pc s = encoder_not_started;
  order_cycles :
    outside_loop (encoder_pc s) = true -> count_if is_cycle (trace s) = 0%nat
}.

End Broadcaster.

(* ===================================================================== *)
(** * Properties of the scanner *)
(* ===================================================================== *)

Module ScannerFacts.
Import Scanner.
Local Open Scope Z_scope.

(** ** Little-endian values *)

Lemma land_low_shifted (a b k : Z) :
  0 <= k -> 0 <= a < 2 ^ k -> Z.land a (Z.shiftl b k) = 0.
Proof.
  intros Hk Ha. apply Z.bits_inj'. intros n Hn.
  rewrite Z.land_spec, Z.bits_0.
  destruct (Z.lt_ge_cases n k) as [Hlt | Hge].
  - rewrite (Z.shiftl_spec_low b k n Hlt). apply andb_false_r.
  - rewrite <- (Z.mod_small a (2 ^ k)) by lia.
    rewrite Z.mod_pow2_bits_high by lia. reflexivity.
Qed.

Lemma lor_low_shifted (a b k : Z) :
  0 <= k -> 0 <= a < 2 ^ k -> Z.lor a (Z.shiftl b k) = a + b * 2 ^ k.
Proof.
  intros Hk Ha.
  pose proof (land_low_shifted a b k Hk Ha) as H0.
  rewrite <- Z.lxor_lor by exact H0.
  rewrite <- Z.add_nocarry_lxor by exact H0.
  rewrite Z.shiftl_mul_pow2 by exact Hk. reflexivity.
Qed.

Lemma sys_get_le16_value (p : list Z) :
  0 <= byte_at p 0 < 256 ->
  sys_get_le16 p = byte_at p 0 + 256 * byte_at p 1.
Proof.
  intros H0. unfold sys_get_le16.
  rewrite (lor_low_shifted _ _ 8) by lia. lia.
Qed.

Lemma sys_get_le24_value (p : list Z) :
  0 <= byte_at p 0 < 256 -> 0 <= byte_at p 1 < 256 ->
  sys_get_le24 p = byte_at p 0 + 256 * byte_at p 1 + 65536 * byte_at p 2.
Proof.
  intros H0 H1. unfold sys_get_le24.
  replace (Z.shiftl (byte_at p 2) 16)
    with (Z.shiftl (Z.shiftl (byte_at p 2) 8) 8)
    by (rewrite Z.shiftl_shiftl by lia; reflexivity).
  rewrite <- Z.shiftl_lor.
  rewrite (lor_low_shifted (byte_at p 1) _ 8) by lia.
  rewrite (lor_low_shifted (byte_at p 0) _ 8) by lia.
  lia.
Qed.

Lemma byte_at_byte (p : list Z) (i : nat) :
  Forall (fun b => 0 <= b < 256) p -> 0 <= byte_at p i < 256.
Proof.
  intros H. unfold byte_at.
  destruct (Nat.lt_ge_cases i (length p)) as [Hlt | Hge].
  - rewrite Forall_forall in H. apply H, nth_In, Hlt.
  - rewrite nth_overflow by exact Hge. lia.
Qed.

Lemma id_of_range (d : bt_data) :
  Forall (fun b => 0 <= b < 256) (data d) -> 0 <= id_of d < 2 ^ 24.
Proof.
  intros H. unfold id_of.
  assert (Hs : Forall (fun b => 0 <= b < 256) (skipn 2 (data d))).
  { rewrite Forall_forall in *. intros x Hx. apply H.
    rewrite <- (firstn_skipn 2 (data d)). apply in_or_app. right. exact Hx. }
  pose proof (byte_at_byte _ 0 Hs). pose proof (byte_at_byte _ 1 Hs).
  pose proof (byte_at_byte _ 2 Hs).
  rewrite sys_get_le24_value by assumption. lia.
Qed.

Section WithUtf8.

Variable utf8_lcpy : list Z -> Z -> list Z.

Lemma broadcast_source_found_cases (d : bt_data) (sr : bt_scan_recv_info) :
  broadcast_source_found utf8_lcpy d sr =
    (true,
     {| broadcast_id := if carries_broadcast_id d then id_of d
                        else broadcast_id sr;
        broadcast_name := if carries_broadcast_name d then name_of utf8_lcpy d
                          else broadcast_name sr |}).
Proof.
  unfold broadcast_source_found, carries_broadcast_id, carries_broadcast_name,
    bt_uuid_create, bt_uuid_cmp, IN_RANGE, id_of, name_of.
  change (Z.to_nat BT_UUID_SIZE_16) with 2%nat.
  rewrite Z.eqb_refl.
  destruct sr as [bid bname]; cbn [broadcast_id broadcast_name].
  destruct (Z.eqb_spec (type d) BT_DATA_SVC_DATA16) as [Ht | Ht].
  - replace (type d =? BT_DATA_BROADCAST_NAME) with false
      by (rewrite Ht; reflexivity).
    cbn [andb].
    destruct (Z.ltb_spec (data_len d)
                (BT_UUID_SIZE_16 + BT_AUDIO_BROADCAST_ID_SIZE)),
      (Z.leb_spec (BT_UUID_SIZE_16 + BT_AUDIO_BROADCAST_ID_SIZE) (data_len d));
      try lia; cbn [andb]; try reflexivity.
    destruct (Z.eqb_spec (sys_get_le16 (data d) - BT_UUID_BROADCAST_AUDIO_VAL) 0),
      (Z.eqb_spec (sys_get_le16 (data d)) BT_UUID_BROADCAST_AUDIO_VAL);
      try lia; reflexivity.
  - cbn [andb].
    destruct (type d =? BT_DATA_BROADCAST_NAME); cbn [andb]; [| reflexivity].
    destruct (BT_AUDIO_BROADCAST_NAME_LEN_MIN <=? data_len d),
      (data_len d <=? BT_AUDIO_BROADCAST_NAME_LEN_MAX); reflexivity.
Qed.

Lemma bt_data_parse_found (ad : list bt_data) (sr : bt_scan_recv_info) :
  bt_data_parse ad (broadcast_source_found utf8_lcpy) sr =
    {| broadcast_id :=
         last_of carries_broadcast_id id_of (broadcast_id sr) ad;
       broadcast_name :=
         last_of carries_broadcast_name (name_of utf8_lcpy) (broadcast_name sr) ad |}.
Proof.
  revert sr; induction ad as [| d ad IH]; intros sr.
  - destruct sr; reflexivity.
  - cbn [bt_data_parse]. rewrite broadcast_source_found_cases.
    rewrite IH. reflexivity.
Qed.

(** ** C9 *)

(** C9. For every advertisement report: a report from a connectable
    advertiser, or one without a periodic advertising interval, is dropped
    without being parsed; any other report is parsed to its end (the
    callback asks for the next field whatever it got) and logged once. The
    broadcast id is taken only from a service-data-16 field of at least
    UUID-size + id-size bytes whose UUID is the Broadcast Audio UUID (the
    last such field of the report; 0 when there is none): these are the
    fields whose data begin with the bytes 0x52, 0x18 of the UUID 0x1852
    and go on with three bytes or more, and the id taken is the 24-bit
    value of these three bytes, the first one the lowest. The name is
    taken only from a broadcast-name field whose length lies within
    4..128 (the last such field; empty when there is none); every other
    field leaves id and name as they were. The scanner waits for nothing:
    both functions return a value for every input. *)
Theorem scanner_extracts_id_and_name
    (info : bt_le_scan_recv_info) (ad : list bt_data)
    (d : bt_data) (sr : bt_scan_recv_info) :
  broadcast_source_found utf8_lcpy d sr =
    (true,
     {| broadcast_id :=
          if (type d =? BT_DATA_SVC_DATA16)
             && (BT_UUID_SIZE_16 + BT_AUDIO_BROADCAST_ID_SIZE <=? data_len d)
             && (sys_get_le16 (data d) =? BT_UUID_BROADCAST_AUDIO_VAL)
          then sys_get_le24 (skipn 2 (data d))
          else broadcast_id sr;
        broadcast_name :=
          if (type d =? BT_DATA_BROADCAST_NAME)
             && (BT_AUDIO_BROADCAST_NAME_LEN_MIN <=? data_len d)
             && (data_len d <=? BT_AUDIO_BROADCAST_NAME_LEN_MAX)
          then utf8_lcpy (data d) (data_len d + 1)
          else broadcast_name sr |})
  /\
  broadcast_scan_recv utf8_lcpy info ad =
    (if negb (Z.land (adv_props info) BT_GAP_ADV_PROP_CONNECTABLE =? 0)
        || (interval info =? 0)
     then []
     else [LOG_INF_found
             (last_of carries_broadcast_name (name_of utf8_lcpy) [] ad)
             (last_of carries_broadcast_id id_of 0 ad)])
  /\
  (forall f : bt_data,
      Forall (fun b => 0 <= b < 256) (data f) ->
      (carries_broadcast_id f = true <->
       type f = 0x16 /\
       exists i0 i1 i2 rest,
         data f = 0x52 :: 0x18 :: i0 :: i1 :: i2 :: rest) /\
      (forall u0 u1 i0 i1 i2 rest,
          data f = u0 :: u1 :: i0 :: i1 :: i2 :: rest ->
          sys_get_le16 (data f) = u0 + 256 * u1 /\
          id_of f = i0 + 256 * i1 + 65536 * i2 /\
          0 <= id_of f < 2 ^ 24))
  /\
  (forall f : bt_data,
      carries_broadcast_name f = true <->
      type f = 0x30 /\ (4 <= length (data f) <= 128)%nat)
  /\
  (forall i0 i1 i2 rest,
      0 <= i0 < 256 -> 0 <= i1 < 256 -> 0 <= i2 < 256 ->
      broadcast_source_found utf8_lcpy
        {| type := 0x16; data := 0x52 :: 0x18 :: i0 :: i1 :: i2 :: rest |} sr
      = (true,
         {| broadcast_id := i0 + 256 * i1 + 65536 * i2;
            broadcast_name := broadcast_name sr |})).
Proof.
  assert (Hvalue : forall f u0 u1 i0 i1 i2 rest,
             Forall (fun b => 0 <= b < 256) (data f) ->
             data f = u0 :: u1 :: i0 :: i1 :: i2 :: rest ->
             sys_get_le16 (data f) = u0 + 256 * u1 /\
             id_of f = i0 + 256 * i1 + 65536 * i2 /\
             0 <= id_of f < 2 ^ 24).
  { intros f u0 u1 i0 i1 i2 rest Hb Hd.
    pose proof (id_of_range f Hb) as Hrange.
    unfold id_of in *. rewrite Hd in *.
    repeat match goal with
           | H : Forall _ (_ :: _) |- _ => apply Forall_cons_1 in H as [? H]
           end.
    split; [apply sys_get_le16_value; assumption |].
    split; [| exact Hrange].
    cbn [skipn]. apply sys_get_le24_value; assumption. }
  split; [apply broadcast_source_found_cases |].
  split.
  { unfold broadcast_scan_recv.
    destruct (negb _ || _); [reflexivity |].
    rewrite bt_data_parse_found. reflexivity. }
  split.
  { intros f Hb.
    split; [| intros u0 u1 i0 i1 i2 rest Hd;
              exact (Hvalue f u0 u1 i0 i1 i2 rest Hb Hd)].
    unfold carries_broadcast_id, data_len, BT_DATA_SVC_DATA16,
      BT_UUID_SIZE_16, BT_AUDIO_BROADCAST_ID_SIZE, BT_UUID_BROADCAST_AUDIO_VAL.
    rewrite !andb_true_iff, Z.eqb_eq, Z.leb_le, Z.eqb_eq.
    split.
    - intros [[Ht Hl] Hu]. split; [exact Ht |].
      destruct (data f) as [| u0 [| u1 [| i0 [| i1 [| i2 rest]]]]] eqn:Hd;
        cbn [length] in Hl; try lia.
      destruct (Hvalue f u0 u1 i0 i1 i2 rest) as (H16 & _);
        [rewrite Hd; exact Hb | exact Hd |].
      rewrite Hd in H16. rewrite H16 in Hu.
      apply Forall_cons_1 in Hb as [H0 Hb].
      apply Forall_cons_1 in Hb as [H1 _].
      assert (u0 = 0x52) as -> by lia. assert (u1 = 0x18) as -> by lia.
      exists i0, i1, i2, rest. reflexivity.
    - intros [Ht (i0 & i1 & i2 & rest & Hd)]. rewrite Hd.
      split; [split; [exact Ht | cbn [length]; lia] | reflexivity]. }
  split.
  { intros f.
    unfold carries_broadcast_name, data_len, BT_DATA_BROADCAST_NAME,
      BT_AUDIO_BROADCAST_NAME_LEN_MIN, BT_AUDIO_BROADCAST_NAME_LEN_MAX.
    rewrite !andb_true_iff, Z.eqb_eq, !Z.leb_le. lia. }
  intros i0 i1 i2 rest H0 H1 H2.
  rewrite broadcast_source_found_cases. cbn [broadcast_id broadcast_name].
  assert (Hid : carries_broadcast_id
                  {| type := 0x16;
                     data := 0x52 :: 0x18 :: i0 :: i1 :: i2 :: rest |} = true).
  { unfold carries_broadcast_id, data_len, BT_DATA_SVC_DATA16,
      BT_UUID_SIZE_16, BT_AUDIO_BROADCAST_ID_SIZE, BT_UUID_BROADCAST_AUDIO_VAL.
    cbn [type data length].
    rewrite !andb_true_iff, Z.eqb_eq, Z.leb_le, Z.eqb_eq.
    split; [split; [reflexivity | lia] | reflexivity]. }
  rewrite Hid.
  replace (carries_broadcast_name _) with false by reflexivity.
  f_equal. f_equal. unfold id_of. cbn [data skipn].
  rewrite sys_get_le24_value by (unfold byte_at; cbn [nth]; lia).
  reflexivity.
Qed.

End WithUtf8.

(** A report with the Broadcast Audio service data (id 0xCCBBAA), the
    name "Home" and a flags field, from a non-connectable periodic
    advertiser; the same from a connectable one; and a report whose
    service data is one byte short of an id. The name is copied as it
    is. *)
Example scan_report_found :
  broadcast_scan_recv (fun src _ => src) {| adv_props := 0; interval := 80 |}
    [ {| type := 0x01; data := [0x06] |};
      {| type := BT_DATA_SVC_DATA16; data := [0x52; 0x18; 0xAA; 0xBB; 0xCC] |};
      {| type := BT_DATA_BROADCAST_NAME; data := [72; 111; 109; 101] |} ]
  = [LOG_INF_found [72; 111; 109; 101] 0xCCBBAA].
Proof. reflexivity. Qed.

Example scan_report_connectable :
  broadcast_scan_recv (fun src _ => src) {| adv_props := 1; interval := 80 |}
    [ {| type := BT_DATA_SVC_DATA16; data := [0x52; 0x18; 0xAA; 0xBB; 0xCC] |} ]
  = [].
Proof. reflexivity. Qed.

Example scan_report_short_field :
  broadcast_scan_recv (fun src _ => src) {| adv_props := 0; interval := 80 |}
    [ {| type := BT_DATA_SVC_DATA16; data := [0x52; 0x18; 0xAA; 0xBB] |};
      {| type := BT_DATA_BROADCAST_NAME; data := [72; 111; 109] |} ]
  = [LOG_INF_found [] 0].
Proof. reflexivity. Qed.

(* --------------------------------------------------------------------- *)
(** ** Further properties of the scanner *)

Lemma last_of_invariant {A B : Type} (P : B -> Prop) (Q : A -> Prop)
    (p : A -> bool) (f : A -> B) (l : list A) :
  (forall x, Q x -> p x = true -> P (f x)) ->
  Forall Q l -> forall dflt, P dflt -> P (last_of p f dflt l).
Proof.
  intros Hf. unfold last_of. induction l as [| x l IH]; intros HQ dflt Hd.
  - exact Hd.
  - simpl. apply Forall_cons_1 in HQ as [Hx Hl]. apply IH; [exact Hl |].
    destruct (p x) eqn:E; auto.
Qed.

Lemma last_of_none {A B : Type} (p : A -> bool) (f : A -> B) (l : list A) :
  Forall (fun x => p x = false) l -> forall dflt, last_of p f dflt l = dflt.
Proof.
  unfold last_of. induction l as [| x l IH]; intros H dflt; [reflexivity |].
  apply Forall_cons_1 in H as [Hx Hl]. simpl. rewrite Hx. apply IH, Hl.
Qed.

Section WithUtf8.

Variable utf8_lcpy : list Z -> Z -> list Z.

(** X1. The id the scanner logs is a 24-bit value: whatever fields a report
    made of bytes has, the id logged lies in [0, 2^24) and so fits the six
    hexadecimal digits it is printed with. *)
Theorem logged_broadcast_id_is_24_bit (info : bt_le_scan_recv_info)
    (ad : list bt_data) (name : list Z) (id : Z) :
  bytes_of_report ad ->
  In (LOG_INF_found name id) (broadcast_scan_recv utf8_lcpy info ad) ->
  0 <= id < 2 ^ 24.
Proof.
  intros Hb Hin.
  revert Hin.
  unfold broadcast_scan_recv.
  destruct (negb _ || _); [intros [] |].
  rewrite bt_data_parse_found. cbn [broadcast_id broadcast_name].
  intros [Heq | []]. injection Heq as _ <-.
  apply (last_of_invariant (fun v => 0 <= v < 2 ^ 24)
           (fun d => Forall (fun b => 0 <= b < 256) (data d))).
  - intros d Hd _. apply id_of_range, Hd.
  - exact Hb.
  - lia.
Qed.

(** X2. The scanner logs a line for every report of a non-connectable
    periodic advertiser, whatever the report holds: when no field carries
    a broadcast id and none a name (the advertiser need not be a broadcast
    source at all, the report may be empty), the line has the empty name
    and the id 0. *)
Theorem report_without_broadcast_is_logged_empty
    (info : bt_le_scan_recv_info) (ad : list bt_data) :
  Z.land (adv_props info) BT_GAP_ADV_PROP_CONNECTABLE = 0 ->
  interval info <> 0 ->
  Forall (fun d => carries_broadcast_id d = false) ad ->
  Forall (fun d => carries_broadcast_name d = false) ad ->
  broadcast_scan_recv utf8_lcpy info ad = [LOG_INF_found [] 0].
Proof.
  intros Hc Hi Hid Hname. unfold broadcast_scan_recv.
  rewrite Hc. destruct (Z.eqb_spec (interval info) 0) as [| _]; [contradiction |].
  cbn [Z.eqb negb orb]. rewrite bt_data_parse_found.
  cbn [broadcast_id broadcast_name].
  rewrite (last_of_none _ _ _ Hid), (last_of_none _ _ _ Hname). reflexivity.
Qed.

(** X3. The copy of the name stays within [broadcast_name]. A name the
    scanner logs is either the empty one the structure starts with, or
    what [utf8_lcpy] made of the data of a broadcast-name field of the
    report, called with the length of the field plus one as size: at
    least 5 and at most the 129 bytes of [broadcast_name]. *)
Theorem name_copy_fits_the_field (info : bt_le_scan_recv_info)
    (ad : list bt_data) (name : list Z) (id : Z) :
  In (LOG_INF_found name id) (broadcast_scan_recv utf8_lcpy info ad) ->
  name = [] \/
  exists d,
    In d ad /\ type d = BT_DATA_BROADCAST_NAME /\
    name = utf8_lcpy (data d) (data_len d + 1) /\
    BT_AUDIO_BROADCAST_NAME_LEN_MIN + 1 <= data_len d + 1
    <= sizeof_broadcast_name.
Proof.
  unfold broadcast_scan_recv.
  destruct (negb _ || _); [intros [] |].
  rewrite bt_data_parse_found. cbn [broadcast_id broadcast_name].
  intros [Heq | []]. injection Heq as <- _.
  apply (last_of_invariant
           (fun n => n = [] \/
                     exists d, In d ad /\ type d = BT_DATA_BROADCAST_NAME /\
                               n = utf8_lcpy (data d) (data_len d + 1) /\
                               BT_AUDIO_BROADCAST_NAME_LEN_MIN + 1
                               <= data_len d + 1 <= sizeof_broadcast_name)
           (fun d => In d ad)).
  - intros d Hd Hc. right. exists d.
    unfold carries_broadcast_name in Hc.
    apply andb_prop in Hc as [Hc H3]. apply andb_prop in Hc as [H1 H2].
    apply Z.eqb_eq in H1. apply Z.leb_le in H2, H3.
    unfold sizeof_broadcast_name, name_of. repeat split; auto; lia.
  - apply Forall_forall. auto.
  - left. reflexivity.
Qed.

End WithUtf8.

(** The theorem at the report of the example [scan_report_found]. *)
Lemma logged_broadcast_id_witness : 0 <= 0xCCBBAA < 2 ^ 24.
Proof.
  apply (logged_broadcast_id_is_24_bit (fun src _ => src)
           {| adv_props := 0; interval := 80 |}
           [ {| type := 0x01; data := [0x06] |};
             {| type := BT_DATA_SVC_DATA16;
                data := [0x52; 0x18; 0xAA; 0xBB; 0xCC] |};
             {| type := BT_DATA_BROADCAST_NAME; data := [72; 111; 109; 101] |} ]
           [72; 111; 109; 101]).
  - repeat constructor; simpl; lia.
  - left. reflexivity.
Defined.

(** The theorem at a report that holds a flags field and a service-data
    field of another service. *)
Lemma report_without_broadcast_witness :
  broadcast_scan_recv (fun src _ => src) {| adv_props := 0; interval := 80 |}
    [ {| type := 0x01; data := [0x06] |};
      {| type := BT_DATA_SVC_DATA16; data := [0x0F; 0x18; 0x64; 0; 0] |} ]
  = [LOG_INF_found [] 0].
Proof.
  apply report_without_broadcast_is_logged_empty.
  - reflexivity.
  - simpl. lia.
  - repeat constructor.
  - repeat constructor.
Defined.

(** ** [main] of the scanner *)

(** X4. [main] stays scanning exactly when [bt_enable] succeeds and
    [bt_le_scan_start] answers 0 or [-EALREADY]. Its only non-zero return
    value is the error of [bt_enable], after which it has neither
    registered the scan callback nor started the scan; when the scan
    cannot be started it returns 0, the last line logged being the one
    that says so. Whenever the scan is started, the callback was
    registered before. *)
Theorem scanner_main_outcomes (env : scan_env) :
  ((main env).2 = main_sleeps <->
   (bt_enable env = 0 /\
    (bt_le_scan_start env = 0 \/ bt_le_scan_start env = - EALREADY))) /\
  (forall code, (main env).2 = main_returns code -> code <> 0 ->
                code = bt_enable env /\
                ~ In BtLeScanCbRegister (main env).1 /\
                ~ In BtLeScanStart (main env).1) /\
  (bt_enable env <> 0 -> (main env).2 = main_returns (bt_enable env)) /\
  (bt_enable env = 0 -> bt_le_scan_start env <> 0 ->
   bt_le_scan_start env <> - EALREADY ->
   (main env).2 = main_returns 0 /\
   List.last (main env).1 BtEnable
   = LOG_INF "Unable to start scan for broadcast sources: %d"
             [bt_le_scan_start env]) /\
  (forall out1 out2, (main env).1 = out1 ++ BtLeScanStart :: out2 ->
                     In BtLeScanCbRegister out1).
Proof.
  unfold main.
  destruct (Z.eqb_spec (bt_enable env) 0) as [He | He];
    destruct (Z.eqb_spec (bt_le_scan_start env) 0) as [Hs | Hs];
    destruct (Z.eqb_spec (bt_le_scan_start env) (- EALREADY)) as [Ha | Ha];
    cbn [negb andb fst snd app].
  all: split; [split; [intros H; try discriminate; auto
                      | intros [? [? | ?]]; congruence] |].
  all: split; [intros code [= <-] Hc; try congruence;
               (split; [reflexivity |]);
               split; intros [H | [H | []]]; discriminate |].
  all: split; [intros H; congruence |].
  all: split; [intros H1 H2 H3; try congruence; split; reflexivity |].
  all: intros out1 out2 Hout.
  all: repeat (destruct out1 as [| ? out1];
               [try discriminate; injection Hout as Hout; try discriminate
               | injection Hout as <- Hout]); simpl; auto 10.
  all: try (destruct out1; discriminate).
Qed.

(** The theorem at a failing [bt_enable]. *)
Lemma scanner_main_outcomes_witness :
  (main {| bt_enable := -5; bt_le_scan_start := 0 |}).2 = main_returns (-5).
Proof.
  destruct (scanner_main_outcomes {| bt_enable := -5; bt_le_scan_start := 0 |})
    as (_ & _ & H & _).
  apply H. simpl. lia.
Defined.

(** The theorem at the report of the example [scan_report_found]. *)
Lemma name_copy_witness :
  [72; 111; 109; 101] = [] \/
  exists d,
    In d [ {| type := 0x01; data := [0x06] |};
           {| type := BT_DATA_SVC_DATA16;
              data := [0x52; 0x18; 0xAA; 0xBB; 0xCC] |};
           {| type := BT_DATA_BROADCAST_NAME; data := [72; 111; 109; 101] |} ]
    /\ type d = BT_DATA_BROADCAST_NAME /\
    [72; 111; 109; 101] = data d /\
    BT_AUDIO_BROADCAST_NAME_LEN_MIN + 1 <= data_len d + 1
    <= sizeof_broadcast_name.
Proof.
  apply (name_copy_fits_the_field (fun src _ => src)
           {| adv_props := 0; interval := 80 |} _ _ 0xCCBBAA).
  left. reflexivity.
Defined.

End ScannerFacts.

(* ===================================================================== *)
(** * Properties of the broadcast source *)
(* ===================================================================== *)

Module BroadcasterFacts.
Import Broadcaster.
Local Open Scope Z_scope.

(** ** Lists and traces *)

Lemma count_if_app (p : effect -> bool) (a b : list effect) :
  count_if p (a ++ b) = (count_if p a + count_if p b)%nat.
Proof. induction a as [| e a IH]; cbn; [reflexivity | rewrite IH; lia]. Qed.

Lemma started_streams_app (a b : list effect) :
  started_streams (a ++ b) = started_streams a ++ started_streams b.
Proof.
  induction a as [| e a IH]; cbn; [reflexivity |].
  destruct e; cbn; rewrite ?IH; reflexivity.
Qed.

Lemma submitted_app (i : nat) (a b : list effect) :
  submitted i (a ++ b) = submitted i a ++ submitted i b.
Proof.
  induction a as [| e a IH]; cbn; [reflexivity |].
  destruct e; cbn; rewrite ?IH; try reflexivity.
  destruct (stream =? i)%nat; cbn; rewrite ?IH; reflexivity.
Qed.

Lemma started_streams_length (t : list effect) :
  length (started_streams t) = count_if is_started t.
Proof.
  induction t as [| e t IH]; cbn; [reflexivity |].
  destruct e; cbn; rewrite ?IH; reflexivity.
Qed.

Lemma sum_list_insert (l : list nat) (i q q' : nat) :
  l !! i = Some q ->
  (sum_list (<[i := q']> l) + q = sum_list l + q')%nat.
Proof.
  revert i; induction l as [| x l IH]; intros [| i] H; simpl in *;
    try discriminate.
  - injection H as ->. lia.
  - specialize (IH i H). lia.
Qed.

Lemma sum_list_replicate_0 (n : nat) : sum_list (replicate n 0%nat) = 0%nat.
Proof. induction n; cbn; auto. Qed.

(** A trace property that holds of a trace and of each effect appended to
    it holds of the longer trace, when it is kept by longer prefixes. *)
Lemma each_after_app (P : list effect -> effect -> Prop) (t out : list effect) :
  (forall t1 x e, P t1 e -> P (t1 ++ x) e) ->
  each_after P t ->
  (forall e, In e out -> P t e) ->
  each_after P (t ++ out).
Proof.
  intros Hmono Ht Hout t1 e t2 Heq.
  apply app_eq_app in Heq as [l [[Ht1 Hl] | [Ht1 Hl]]].
  - destruct l as [| e' l]; cbn in Hl.
    + rewrite app_nil_r in Ht1. subst t1. apply Hout.
      rewrite <- Hl. left. reflexivity.
    + injection Hl as -> ->. exact (Ht _ _ _ Ht1).
  - subst t1. apply Hmono, Hout. rewrite Hl.
    apply in_or_app. right. left. reflexivity.
Qed.

(** ** What the functions write *)

Lemma printk_is_send_effect (out : list effect) :
  forallb is_printk out = true -> forallb is_send_effect out = true.
Proof.
  induction out as [| e out IH]; cbn; [reflexivity |].
  destruct e; cbn; try discriminate. exact IH.
Qed.

Lemma count_if_none (p : effect -> bool) (out : list effect) :
  (forall e, is_send_effect e = true -> p e = false) ->
  forallb is_send_effect out = true -> count_if p out = 0%nat.
Proof.
  intros Hp. induction out as [| e out IH]; cbn; [reflexivity |].
  intros [He Hout]%andb_prop. rewrite (Hp e He), (IH Hout). reflexivity.
Qed.

Lemma started_streams_none (out : list effect) :
  forallb is_send_effect out = true -> started_streams out = [].
Proof.
  induction out as [| e out IH]; cbn; [reflexivity |].
  destruct e; cbn; try discriminate; exact IH.
Qed.

Lemma send_data_effects cfg i env st pcm :
  forallb is_send_effect (send_data cfg i env st pcm).2 = true.
Proof.
  unfold send_data.
  repeat (case_match; simpl; try reflexivity).
Qed.

Lemma printk_only_bind {A B : Type} (m : prog A) (k : A -> prog B) :
  printk_only m -> (forall a, printk_only (k a)) -> printk_only (bind m k).
Proof.
  unfold printk_only, bind. destruct m as [out [code | a]]; simpl.
  - intros H _. exact H.
  - intros H Hk. specialize (Hk a). destruct (k a) as [out' r]; simpl in *.
    rewrite forallb_app, H, Hk. reflexivity.
Qed.

Lemma printk_only_fail_if c fmt args code :
  printk_only (fail_if c fmt args code).
Proof. destruct c; reflexivity. Qed.

Lemma printk_only_emit fmt args : printk_only (emit (Printk fmt args)).
Proof. reflexivity. Qed.

Lemma printk_only_pure {A : Type} (a : A) : printk_only (pure a).
Proof. reflexivity. Qed.

Lemma printk_only_messages cfg :
  printk_only (ring_buf_init_messages cfg, inr tt : Z + unit).
Proof.
  unfold printk_only, ring_buf_init_messages; simpl.
  induction (seq 0 _) as [| x l IH]; simpl; auto.
Qed.

Ltac printk_only :=
  repeat first
    [ apply printk_only_fail_if
    | apply printk_only_emit
    | apply printk_only_pure
    | apply printk_only_messages
    | apply printk_only_bind; [| intros ?]
    | match goal with |- printk_only (if ?c then _ else _) => destruct c end ].

Lemma main_before_thread_printk cfg env :
  printk_only (main_before_thread cfg env).
Proof. unfold main_before_thread. printk_only. Qed.

Lemma setup_broadcast_source_printk cfg env :
  printk_only (setup_broadcast_source cfg env).
Proof. unfold setup_broadcast_source. printk_only. Qed.

Lemma main_after_thread_printk cfg env :
  printk_only (main_after_thread cfg env).
Proof.
  unfold main_after_thread. printk_only.
  pose proof (setup_broadcast_source_printk cfg env) as H.
  unfold printk_only in *.
  destruct (setup_broadcast_source cfg env) as [out [err | []]]; simpl in *;
    [| exact H].
  rewrite forallb_app, H. reflexivity.
Qed.

Lemma setup_encoders_printk env g i l :
  forallb is_printk (setup_encoders env g i l).2 = true.
Proof.
  revert i; induction l as [| st l IH]; intros i; simpl; [reflexivity |].
  specialize (IH (S i)).
  destruct (setup_encoders env g (S i) l) as [l' out]; simpl in *.
  destruct (lc3_setup_encoder env i _ _); simpl; exact IH.
Qed.

Lemma setup_encoders_length env g i l :
  length (setup_encoders env g i l).1 = length l.
Proof.
  revert i; induction l as [| st l IH]; intros i; simpl; [reflexivity |].
  specialize (IH (S i)).
  destruct (setup_encoders env g (S i) l) as [l' out]; simpl in *.
  congruence.
Qed.

Lemma init_lc3_thread_printk cfg env g l pcm :
  forallb is_printk (init_out (init_lc3_thread cfg env g l pcm)) = true.
Proof.
  unfold init_lc3_thread.
  repeat (case_match; simpl; try reflexivity).
  match goal with
  | H : setup_encoders ?e ?g ?i ?l = _ |- _ =>
      pose proof (setup_encoders_printk e g i l) as Hp; rewrite H in Hp
  end.
  exact Hp.
Qed.

Lemma init_lc3_thread_length cfg env g l pcm :
  length (init_streams (init_lc3_thread cfg env g l pcm)) = length l.
Proof.
  unfold init_lc3_thread.
  repeat (case_match; simpl; try reflexivity).
  match goal with
  | H : setup_encoders ?e ?g ?i ?l = _ |- _ =>
      pose proof (setup_encoders_length e g i l) as Hp; rewrite H in Hp
  end.
  exact Hp.
Qed.

(** ** The invariant *)

Lemma main_setup_spec cfg env s :
  exists out pc,
    forallb is_printk out = true /\
    trace (main_setup cfg env s) = trace s ++ out /\
    main_pc (main_setup cfg env s) = pc /\
    ((exists code, pc = main_returned code)
     \/ pc = (main_at_wait_started cfg 0).1) /\
    (encoder_pc (main_setup cfg env s) = encoder_pc s
     \/ encoder_pc (main_setup cfg env s) = encoder_entry) /\
    (length (streams s) = stream_count cfg ->
     length (streams (main_setup cfg env s)) = stream_count cfg) /\
    iso_queue (main_setup cfg env s) = iso_queue s /\
    tx_pool (main_setup cfg env s) = tx_pool s /\
    sem_started (main_setup cfg env s) = sem_started s /\
    lc3_encoder_sem (main_setup cfg env s) = lc3_encoder_sem s.
Proof.
  unfold main_setup.
  pose proof (main_before_thread_printk cfg env) as H1.
  pose proof (main_after_thread_printk cfg env) as H2.
  unfold printk_only in *.
  destruct (main_before_thread cfg env) as [o1 [c1 | []]]; simpl in *.
  - exists o1, (main_returned c1).
    destruct (nonzero (bt_enable env)); simpl; eauto 15.
  - destruct (main_after_thread cfg env) as [o2 [c2 | []]]; simpl in *.
    + exists (o1 ++ o2), (main_returned c2).
      rewrite forallb_app, H1, H2.
      destruct (nonzero (bt_enable env)), (CONFIG_USB_DEVICE_AUDIO cfg);
        simpl; rewrite <- ?app_assoc, ?length_replicate; eauto 15.
    + unfold main_at_wait_started.
      destruct (0 <? stream_count cfg)%nat; simpl.
      * exists (o1 ++ o2 ++ []), (main_wait_started 0).
        rewrite !forallb_app, H1, H2.
        destruct (nonzero (bt_enable env)), (CONFIG_USB_DEVICE_AUDIO cfg);
          simpl; rewrite <- ?app_assoc, ?length_replicate; eauto 15.
      * exists (o1 ++ o2 ++ [Printk "Broadcast source started" []]),
          (main_at_init_sending cfg 0).
        rewrite !forallb_app, H1, H2.
        destruct (nonzero (bt_enable env)), (CONFIG_USB_DEVICE_AUDIO cfg);
          simpl; rewrite <- ?app_assoc, ?length_replicate; eauto 15.
Qed.

Lemma inv_boot cfg : inv cfg (boot cfg).
Proof.
  split; simpl; rewrite ?length_replicate, ?sum_list_replicate_0;
    try (intros; reflexivity); try lia; auto.
Qed.

Lemma k_sem_give_limit sem : limit (k_sem_give sem) = limit sem.
Proof. unfold k_sem_give. destruct (_ <? _)%nat; reflexivity. Qed.

Lemma k_sem_give_count sem :
  count (k_sem_give sem)
  = if (count sem <? limit sem)%nat then S (count sem) else count sem.
Proof. unfold k_sem_give. destruct (_ <? _)%nat; reflexivity. Qed.

Lemma k_sem_take_Some sem sem' :
  k_sem_take sem = Some sem' ->
  count sem = S (count sem') /\ limit sem' = limit sem.
Proof.
  unfold k_sem_take. destruct (count sem); [discriminate |].
  intros [= <-]. split; reflexivity.
Qed.

Ltac give_cases :=
  rewrite ?k_sem_give_limit, ?k_sem_give_count in *;
  repeat match goal with
         | |- context [(?a <? ?b)%nat] => destruct (Nat.ltb_spec a b)
         | H : context [(?a <? ?b)%nat] |- _ => destruct (Nat.ltb_spec a b)
         | |- context [(?a =? ?b)%nat] => destruct (Nat.eqb_spec a b)
         | H : context [(?a =? ?b)%nat] |- _ => destruct (Nat.eqb_spec a b)
         end.

Lemma inv_ev_started cfg i s s' :
  inv cfg s -> step cfg (ev_started i) s = Some s' -> inv cfg s'.
Proof.
  intros [] H. simpl in H.
  destruct (streams s !! i) as [st |] eqn:Hst; [| discriminate].
  injection H as <-. apply lookup_lt_Some in Hst.
  split; simpl; unfold stream_sent_cb;
    rewrite ?length_insert, ?count_if_app, ?started_streams_app; simpl;
    try (intros k; rewrite count_if_app; simpl);
    rewrite ?Nat.add_0_r; auto; try (give_cases; lia).
  apply Forall_app; split; [assumption |].
  constructor; [lia | constructor].
Qed.

Lemma inv_ev_stopped cfg i s s' :
  inv cfg s -> step cfg (ev_stopped i) s = Some s' -> inv cfg s'.
Proof.
  intros [] H. simpl in H.
  destruct (streams s !! i) as [st |] eqn:Hst; [| discriminate].
  injection H as <-.
  split; simpl; rewrite ?count_if_app, ?started_streams_app; simpl;
    try (intros k; rewrite count_if_app; simpl);
    rewrite ?Nat.add_0_r, ?app_nil_r; auto.
Qed.

Lemma inv_ev_sent cfg i s s' :
  inv cfg s -> step cfg (ev_sent i) s = Some s' -> inv cfg s'.
Proof.
  intros [] H. simpl in H.
  destruct (iso_queue s !! i) as [[| q] |] eqn:Hq; try discriminate.
  injection H as <-.
  pose proof (sum_list_insert _ _ _ q Hq) as Hsum.
  split; simpl; unfold stream_sent_cb;
    rewrite ?length_insert, ?count_if_app, ?started_streams_app; simpl;
    try (intros k; rewrite count_if_app; simpl);
    rewrite ?Nat.add_0_r, ?app_nil_r; auto; try (give_cases; lia).
Qed.

Lemma usb_put_length cfg i chans l :
  length (usb_put cfg i chans l).1 = length l.
Proof.
  revert i l; induction chans as [| b chans IH]; intros i [| st l]; simpl;
    try reflexivity.
  destruct (ring_buf_put (AUDIO_RING_BUF_BYTES cfg) (audio_ring_buf st) b)
    as [n rb].
  specialize (IH (S i) l).
  destruct (usb_put cfg (S i) chans l) as [l' out]; simpl in *. congruence.
Qed.

Lemma usb_put_printk cfg i chans l :
  forallb is_printk (usb_put cfg i chans l).2 = true.
Proof.
  revert i l; induction chans as [| b chans IH]; intros i [| st l]; simpl;
    try reflexivity.
  destruct (ring_buf_put (AUDIO_RING_BUF_BYTES cfg) (audio_ring_buf st) b)
    as [n rb].
  specialize (IH (S i) l).
  destruct (usb_put cfg (S i) chans l) as [l' out]; simpl in *.
  destruct (_ <? _)%nat; simpl; exact IH.
Qed.

(** A step that only prints keeps the counts of the trace. *)
Lemma count_if_printk (p : effect -> bool) (t out : list effect) :
  (forall e, is_send_effect e = true -> p e = false) ->
  forallb is_printk out = true ->
  count_if p (t ++ out) = count_if p t.
Proof.
  intros Hp Hout. rewrite count_if_app.
  rewrite (count_if_none p out Hp (printk_is_send_effect _ Hout)). lia.
Qed.

Lemma count_if_send_effects (p : effect -> bool) (t out : list effect) :
  (forall e, is_send_effect e = true -> p e = false) ->
  forallb is_send_effect out = true ->
  count_if p (t ++ out) = count_if p t.
Proof.
  intros Hp Hout. rewrite count_if_app.
  rewrite (count_if_none p out Hp Hout). lia.
Qed.

Lemma started_streams_send_effects (t out : list effect) :
  forallb is_send_effect out = true ->
  started_streams (t ++ out) = started_streams t.
Proof.
  intros Hout. rewrite started_streams_app, (started_streams_none _ Hout).
  apply app_nil_r.
Qed.

Lemma not_seeded e : is_send_effect e = true -> is_seeded e = false.
Proof. destruct e; simpl; congruence. Qed.
Lemma not_seeded_of k e : is_send_effect e = true -> is_seeded_of k e = false.
Proof. destruct e; simpl; congruence. Qed.
Lemma not_took_started e :
  is_send_effect e = true -> is_took_started e = false.
Proof. destruct e; simpl; congruence. Qed.
Lemma not_started e : is_send_effect e = true -> is_started e = false.
Proof. destruct e; simpl; congruence. Qed.
Lemma not_took_credit e : is_send_effect e = true -> is_took_credit e = false.
Proof. destruct e; simpl; congruence. Qed.

(** The part of the invariant that reads the trace is kept by a step
    that only adds effects of [send_data] or messages. *)
Ltac trace_unchanged Hout :=
  rewrite ?(count_if_send_effects is_seeded _ _ not_seeded Hout),
    ?(count_if_send_effects is_took_started _ _ not_took_started Hout),
    ?(count_if_send_effects is_started _ _ not_started Hout),
    ?(started_streams_send_effects _ _ Hout);
  try (intros k;
       rewrite (count_if_send_effects (is_seeded_of k) _ _
                  (not_seeded_of k) Hout)).

Lemma inv_ev_usb_data cfg l r s s' :
  inv cfg s -> step cfg (ev_usb_data l r) s = Some s' -> inv cfg s'.
Proof.
  intros [] H. unfold step in H.
  destruct (CONFIG_USB_DEVICE_AUDIO cfg); [| discriminate].
  destruct (usb_count s =? INT_MAX); [discriminate |].
  pose proof (usb_put_length cfg 0 [l; r] (streams s)) as Hlen.
  pose proof (usb_put_printk cfg 0 [l; r] (streams s)) as Hout.
  destruct (usb_put cfg 0 [l; r] (streams s)) as [l' out] eqn:E.
  injection H as <-. simpl in Hlen, Hout.
  assert (Hout' : forallb is_send_effect
            (out ++ (if (usb_count s + 1) mod 1000 =? 0
                     then [Printk "USB Data received (count = %d)"
                                  [usb_count s + 1]]
                     else [])) = true).
  { apply printk_is_send_effect. rewrite forallb_app, Hout.
    destruct (_ =? _); reflexivity. }
  split; simpl; trace_unchanged Hout'; auto; congruence.
Qed.

Ltac arith :=
  unfold main_after_init_sending, main_at_init_sending,
    main_at_wait_started, encoder_after_take, encoder_after_send,
    encoder_at_loop, seeded, seeded_of, waited, pending, stream_sent_cb,
    TOTAL_BUF_NEEDED, BROADCAST_ENQUEUE_COUNT, stream_count in *;
  simpl in *; give_cases; simpl in *; try lia; auto.

Lemma inv_ev_main cfg s s' :
  inv cfg s -> step cfg ev_main s = Some s' -> inv cfg s'.
Proof.
  intros [Hs Hq Hl Hls Hpool Hcred Hmpc Hepc Hseed Hseedof Hwait Hsle Hsge Hss]
    H.
  simpl in H.
  destruct (main_pc s) as [| i | i j | |] eqn:Hpc; try discriminate.
  - destruct (k_sem_take (sem_started s)) as [sem |] eqn:Htake;
      [| discriminate].
    apply k_sem_take_Some in Htake as [Hc Hlim].
    destruct (main_at_wait_started cfg (S i)) as [pc out] eqn:Hat.
    injection H as <-.
    assert (Hout : forallb is_printk out = true).
    { unfold main_at_wait_started in Hat.
      destruct (_ <? _)%nat; injection Hat as <- <-; reflexivity. }
    apply printk_is_send_effect in Hout.
    assert (Hpc' : pc = if (S i <? stream_count cfg)%nat
                        then main_wait_started (S i)
                        else main_init_sending 0 0).
    { unfold main_at_wait_started, main_at_init_sending in Hat.
      destruct (Nat.ltb_spec (S i) (stream_count cfg));
        injection Hat as <- <-; [reflexivity |].
      destruct (Nat.ltb_spec 0 (stream_count cfg)); [reflexivity | lia]. }
    subst pc.
    split; simpl;
      change (TookStarted :: out) with ([TookStarted] ++ out);
      rewrite ?app_assoc; trace_unchanged Hout;
      rewrite ?count_if_app, ?started_streams_app; simpl;
      rewrite ?Nat.add_0_r, ?app_nil_r; auto;
      try (rewrite count_if_app; simpl; rewrite (Hseedof k));
      arith.
  - injection H as <-.
    split; simpl;
      rewrite ?count_if_app, ?started_streams_app; simpl;
      rewrite ?Nat.add_0_r, ?app_nil_r; auto;
      try (intros k; rewrite count_if_app; simpl;
           rewrite (Hseedof k));
      rewrite ?Hseed, ?Hwait;
      arith.
Qed.

Lemma inv_ev_encoder_take cfg s s' :
  inv cfg s -> step cfg ev_encoder_take s = Some s' -> inv cfg s'.
Proof.
  intros [Hs Hq Hl Hls Hpool Hcred Hmpc Hepc Hseed Hseedof Hwait Hsle Hsge Hss]
    H.
  simpl in H.
  destruct (encoder_pc s) as [| | i | i | |] eqn:Hpc; try discriminate.
  destruct (k_sem_take (lc3_encoder_sem s)) as [sem |] eqn:Htake;
    [| discriminate].
  apply k_sem_take_Some in Htake as [Hc Hlim].
  injection H as <-.
  split; simpl;
    rewrite ?count_if_app, ?started_streams_app; simpl;
    rewrite ?Nat.add_0_r, ?app_nil_r; auto;
    try (intros k; rewrite count_if_app; simpl; rewrite (Hseedof k));
    arith.
Qed.

Lemma inv_ev_encoder_setup cfg env s s' :
  inv cfg s -> step cfg (ev_encoder_setup env) s = Some s' -> inv cfg s'.
Proof.
  intros [Hs Hq Hl Hls Hpool Hcred Hmpc Hepc Hseed Hseedof Hwait Hsle Hsge Hss]
    H.
  simpl in H.
  destruct (encoder_pc s) as [| | i | i | |] eqn:Hpc; try discriminate.
  injection H as <-.
  pose proof (init_lc3_thread_printk cfg env (globals s) (streams s)
                (send_pcm_data s)) as Hout.
  pose proof (init_lc3_thread_length cfg env (globals s) (streams s)
                (send_pcm_data s)) as Hlen.
  apply printk_is_send_effect in Hout.
  split; simpl; trace_unchanged Hout; auto; try congruence.
  - destruct (init_enters_loop _); arith.
  - destruct (init_enters_loop _); arith.
Qed.

Lemma accepted_queue (l : list nat) (i : nat) :
  (i < length l)%nat ->
  sum_list (<[i := S (default 0%nat (l !! i))]> l) = S (sum_list l).
Proof.
  intros Hi. destruct (lookup_lt_is_Some_2 l i Hi) as [q Hq].
  pose proof (sum_list_insert l i q (S q) Hq). rewrite Hq. simpl. lia.
Qed.

Lemma inv_ev_encoder_send cfg env s s' :
  inv cfg s -> step cfg (ev_encoder_send env) s = Some s' -> inv cfg s'.
Proof.
  intros [Hs Hq Hl Hls Hpool Hcred Hmpc Hepc Hseed Hseedof Hwait Hsle Hsge Hss]
    H.
  simpl in H.
  destruct (encoder_pc s) as [| | i | i | |] eqn:Hpc; try discriminate.
  destruct (streams s !! i) as [st |] eqn:Hst; [| discriminate].
  destruct (tx_pool s) as [| pool] eqn:Htx; [discriminate |].
  pose proof (send_data_effects cfg i env st (send_pcm_data s)) as Hout.
  destruct (send_data cfg i env st (send_pcm_data s)) as [[st' pcm] out].
  simpl in Hout. injection H as <-.
  assert (Hi : (i < length (iso_queue s))%nat) by (rewrite Hq; exact Hepc).
  pose proof (accepted_queue _ _ Hi) as Hsum.
  split; destruct (accepted out); simpl; trace_unchanged Hout;
    rewrite ?length_insert, ?Hsum; auto; arith.
Qed.

Lemma inv_ev_main_setup cfg env s s' :
  inv cfg s -> step cfg (ev_main_setup env) s = Some s' -> inv cfg s'.
Proof.
  intros [Hs Hq Hl Hls Hpool Hcred Hmpc Hepc Hseed Hseedof Hwait Hsle Hsge Hss]
    H.
  simpl in H.
  destruct (main_pc s) eqn:Hpc; try discriminate.
  injection H as <-.
  destruct (main_setup_spec cfg env s)
    as (out & pc & Hout & Htr & Hpc' & Hcase & Henc & Hlen & Hq' & Hp' & Hst'
        & Hlc').
  apply printk_is_send_effect in Hout.
  assert (Hzero : seeded cfg pc = 0%nat /\
                  (forall k, seeded_of cfg pc k = 0%nat) /\
                  waited cfg pc = 0%nat /\
                  match pc with
                  | main_wait_started i => (i < stream_count cfg)%nat
                  | main_init_sending i j =>
                      (i < stream_count cfg)%nat
                      /\ (j < BROADCAST_ENQUEUE_COUNT)%nat
                  | _ => True
                  end).
  { destruct Hcase as [[code ->] | ->]; [simpl; auto |].
    unfold main_at_wait_started, main_at_init_sending.
    destruct (Nat.ltb_spec 0 (stream_count cfg)); simpl.
    - repeat split; auto.
    - unfold TOTAL_BUF_NEEDED, stream_count in *.
      repeat split; auto; try lia.
      intros k. destruct (Nat.ltb_spec k (CONFIG_BT_BAP_BROADCAST_SRC_STREAM_COUNT cfg)); lia. }
  destruct Hzero as (Hz1 & Hz2 & Hz3 & Hz4).
  split; rewrite ?Htr, ?Hpc', ?Hq', ?Hp', ?Hst', ?Hlc';
    trace_unchanged Hout; rewrite ?Hz1, ?Hz2, ?Hz3; auto.
  - destruct Henc as [-> | ->]; simpl in *; lia.
  - destruct Henc as [-> | ->]; simpl in *; auto.
Qed.

(** Every step keeps the invariant. *)
Lemma inv_step cfg ev s s' :
  inv cfg s -> step cfg ev s = Some s' -> inv cfg s'.
Proof.
  destruct ev;
    eauto using inv_ev_main_setup, inv_ev_main, inv_ev_encoder_setup,
      inv_ev_encoder_take, inv_ev_encoder_send, inv_ev_started,
      inv_ev_stopped, inv_ev_sent, inv_ev_usb_data.
Qed.

(** An invariant of the steps holds after every schedule. *)
Lemma run_invariant cfg (P : sys -> Prop) :
  (forall ev s s', P s -> step cfg ev s = Some s' -> P s') ->
  forall sched s s', P s -> run cfg sched s = Some s' -> P s'.
Proof.
  intros Hstep. induction sched as [| ev sched IH]; simpl; intros s s' HP H.
  - injection H as <-. exact HP.
  - destruct (step cfg ev s) as [s1 |] eqn:E; [| discriminate].
    eauto.
Qed.

Lemma inv_run cfg sched s :
  run cfg sched (boot cfg) = Some s -> inv cfg s.
Proof.
  apply (run_invariant cfg (inv cfg) (inv_step cfg)), inv_boot.
Qed.

Lemma run_app cfg a b s :
  run cfg (a ++ b) s
  = match run cfg a s with Some s' => run cfg b s' | None => None end.
Proof.
  revert s; induction a as [| ev a IH]; intros s; simpl; [reflexivity |].
  destruct (step cfg ev s); [apply IH | reflexivity].
Qed.

(** ** What each step adds to the trace *)

Lemma step_effects cfg ev s s' :
  step cfg ev s = Some s' ->
  exists out,
    trace s' = trace s ++ out /\
    match ev with
    | ev_main_setup _ | ev_encoder_setup _ | ev_usb_data _ _ =>
        forallb is_printk out = true
    | ev_main =>
        (exists i out', main_pc s = main_wait_started i /\
                        out = TookStarted :: out' /\
                        forallb is_printk out' = true)
        \/ (exists i j, main_pc s = main_init_sending i j /\
                        out = [Seeded i])
    | ev_encoder_take =>
        (exists i, encoder_pc s = encoder_take i) /\
        out = [TookCredit] /\ (0 < count (lc3_encoder_sem s))%nat
    | ev_encoder_send _ =>
        (exists i, encoder_pc s = encoder_send i) /\
        forallb is_send_effect out = true
    | ev_started i => out = [Started i]
    | ev_stopped i => out = [Stopped i]
    | ev_sent i =>
        out = [Sent i] /\ exists q, iso_queue s !! i = Some (S q)
    end.
Proof.
  intros H. destruct ev; unfold step in H.
  - destruct (main_pc s); try discriminate. injection H as <-.
    destruct (main_setup_spec cfg env s) as (out & pc & Hout & Htr & _).
    eauto.
  - destruct (main_pc s) as [| i | i j | |]; try discriminate.
    + destruct (k_sem_take (sem_started s)); [| discriminate].
      destruct (main_at_wait_started cfg (S i)) as [pc out] eqn:Hat.
      injection H as <-. simpl. eexists; split; [reflexivity |].
      left. exists i, out. repeat split.
      unfold main_at_wait_started in Hat.
      destruct (_ <? _)%nat; injection Hat as <- <-; reflexivity.
    + injection H as <-. simpl. eexists; split; [reflexivity |].
      right. eauto.
  - destruct (encoder_pc s); try discriminate. injection H as <-. simpl.
    eexists; split; [reflexivity |]. apply init_lc3_thread_printk.
  - destruct (encoder_pc s) as [| | i | i | |]; try discriminate.
    destruct (k_sem_take (lc3_encoder_sem s)) as [sem |] eqn:Htake;
      [| discriminate].
    apply k_sem_take_Some in Htake as [Hc _].
    injection H as <-. simpl. eexists; split; [reflexivity |].
    repeat split; eauto. lia.
  - destruct (encoder_pc s) as [| | i | i | |]; try discriminate.
    destruct (streams s !! i) as [st |]; [| discriminate].
    destruct (tx_pool s) as [| pool]; [discriminate |].
    pose proof (send_data_effects cfg i env st (send_pcm_data s)) as Hout.
    destruct (send_data cfg i env st (send_pcm_data s)) as [[st' pcm] out].
    injection H as <-. exists out.
    split; [destruct (accepted out); reflexivity |]. eauto.
  - destruct (streams s !! stream); [| discriminate].
    injection H as <-. simpl. eauto.
  - destruct (streams s !! stream); [| discriminate].
    injection H as <-. simpl. eauto.
  - destruct (iso_queue s !! stream) as [[| q] |] eqn:Hq; try discriminate.
    injection H as <-. simpl. eauto.
  - destruct (CONFIG_USB_DEVICE_AUDIO cfg); [| discriminate].
    destruct (usb_count s =? INT_MAX); [discriminate |].
    pose proof (usb_put_printk cfg 0 [left_ch; right_ch] (streams s)) as Hout.
    destruct (usb_put cfg 0 [left_ch; right_ch] (streams s)) as [l' out].
    injection H as <-. simpl. eexists; split; [reflexivity |].
    rewrite forallb_app. simpl in Hout. rewrite Hout.
    destruct (_ =? _); reflexivity.
Qed.

Lemma printk_not_transmission (out : list effect) (e : effect) :
  forallb is_printk out = true -> In e out -> is_transmission e = false.
Proof.
  rewrite forallb_forall. intros H Hin. specialize (H e Hin).
  destruct e; simpl in *; congruence.
Qed.

Lemma lookup_sum_pos (l : list nat) (i q : nat) :
  l !! i = Some (S q) -> (0 < sum_list l)%nat.
Proof.
  intros H. pose proof (sum_list_insert l i (S q) 0%nat H). lia.
Qed.

(** Seeded credits exist only once [main] has left the loop that waits
    for the streams. *)
Lemma seeded_pos_waited cfg pc :
  (0 < seeded cfg pc)%nat -> waited cfg pc = stream_count cfg.
Proof. destruct pc; simpl; try lia; reflexivity. Qed.

(** Whatever belongs to transmission happens after [main] has left the
    loop that waits for the streams. *)
Lemma step_transmission cfg ev s s' :
  inv cfg s -> step cfg ev s = Some s' ->
  exists out,
    trace s' = trace s ++ out /\
    forall e, In e out -> is_transmission e = true ->
              waited cfg (main_pc s) = stream_count cfg.
Proof.
  intros I H. destruct (step_effects cfg ev s s' H) as (out & Htr & Hev).
  exists out; split; [exact Htr |]. intros e Hin He.
  destruct I as [Hs Hq Hl Hls Hpool Hcred Hmpc Hepc _ _ _ _ _ _].
  destruct ev.
  - rewrite (printk_not_transmission _ _ Hev Hin) in He. discriminate.
  - destruct Hev as [(i & out' & Hpc & -> & Hout') | (i & j & Hpc & ->)].
    + destruct Hin as [<- | Hin]; [discriminate |].
      rewrite (printk_not_transmission _ _ Hout' Hin) in He. discriminate.
    + rewrite Hpc. reflexivity.
  - rewrite (printk_not_transmission _ _ Hev Hin) in He. discriminate.
  - destruct Hev as (_ & _ & Hc). apply seeded_pos_waited. lia.
  - destruct Hev as ((i & Hpc) & _). apply seeded_pos_waited.
    rewrite Hpc in Hcred, Hepc. simpl in Hcred. lia.
  - subst out. destruct Hin as [<- | []]. discriminate.
  - subst out. destruct Hin as [<- | []]. discriminate.
  - destruct Hev as (_ & q & Hqi). apply lookup_sum_pos in Hqi.
    apply seeded_pos_waited. lia.
  - rewrite (printk_not_transmission _ _ Hev Hin) in He. discriminate.
Qed.

Lemma run_by_priority_invariant cfg (P : sys -> Prop) :
  (forall ev s s', P s -> may_run cfg ev s = true ->
                   step cfg ev s = Some s' -> P s') ->
  forall sched s s', P s -> run_by_priority cfg sched s = Some s' -> P s'.
Proof.
  intros Hstep. induction sched as [| ev sched IH]; simpl; intros s s' HP H.
  - injection H as <-. exact HP.
  - unfold step_by_priority in H.
    destruct (may_run cfg ev s) eqn:Hmay; [| discriminate].
    destruct (step cfg ev s) as [s1 |] eqn:E; [| discriminate].
    eauto.
Qed.

Lemma run_by_priority_run cfg sched s s' :
  run_by_priority cfg sched s = Some s' -> run cfg sched s = Some s'.
Proof.
  revert s; induction sched as [| ev sched IH]; simpl; intros s H;
    [exact H |].
  unfold step_by_priority in H.
  destruct (may_run cfg ev s); [| discriminate].
  destruct (step cfg ev s) as [s1 |]; [| discriminate]. auto.
Qed.

(** A property of the effects and what precedes them, kept by longer
    prefixes and true of whatever a step adds, holds of all traces. *)
Lemma run_each_after cfg (P : list effect -> effect -> Prop) :
  (forall t1 x e, P t1 e -> P (t1 ++ x) e) ->
  (forall ev s s', inv cfg s -> step cfg ev s = Some s' ->
     exists out, trace s' = trace s ++ out /\
                 forall e, In e out -> P (trace s) e) ->
  forall sched s, run cfg sched (boot cfg) = Some s -> each_after P (trace s).
Proof.
  intros Hmono Hstep sched s Hrun.
  enough (inv cfg s /\ each_after P (trace s)) as [_ H] by exact H.
  refine (run_invariant cfg (fun s => inv cfg s /\ each_after P (trace s))
            _ sched (boot cfg) s _ Hrun).
  - intros ev s1 s2 [I HP] H. split; [exact (inv_step _ _ _ _ I H) |].
    destruct (Hstep ev s1 s2 I H) as (out & -> & Hout).
    apply each_after_app; assumption.
  - split; [apply inv_boot |]. intros [| ? ?] ? ? Heq; discriminate.
Qed.

Lemma run_by_priority_each_after cfg (P : list effect -> effect -> Prop) :
  (forall t1 x e, P t1 e -> P (t1 ++ x) e) ->
  (forall ev s s', inv cfg s -> may_run cfg ev s = true ->
     step cfg ev s = Some s' ->
     exists out, trace s' = trace s ++ out /\
                 forall e, In e out -> P (trace s) e) ->
  forall sched s,
    run_by_priority cfg sched (boot cfg) = Some s -> each_after P (trace s).
Proof.
  intros Hmono Hstep sched s Hrun.
  enough (inv cfg s /\ each_after P (trace s)) as [_ H] by exact H.
  refine (run_by_priority_invariant cfg
            (fun s => inv cfg s /\ each_after P (trace s))
            _ sched (boot cfg) s _ Hrun).
  - intros ev s1 s2 [I HP] Hmay H. split; [exact (inv_step _ _ _ _ I H) |].
    destruct (Hstep ev s1 s2 I Hmay H) as (out & -> & Hout).
    apply each_after_app; assumption.
  - split; [apply inv_boot |]. intros [| ? ?] ? ? Heq; discriminate.
Qed.

Lemma barrier_before_transmission cfg sched s :
  run cfg sched (boot cfg) = Some s ->
  each_after (after_barrier cfg) (trace s).
Proof.
  apply run_each_after.
  - unfold after_barrier. intros t1 x e H He. rewrite !count_if_app.
    specialize (H He). lia.
  - intros ev s1 s2 I H.
    destruct (step_transmission cfg ev s1 s2 I H) as (out & Htr & Hout).
    exists out; split; [exact Htr |]. intros e Hin He.
    specialize (Hout e Hin He).
    destruct I as [_ _ _ _ _ _ _ _ _ _ Hwait Hsle _ _]. lia.
Qed.

(** Given enough started signals, [main] gets through the loop that
    waits for the streams. *)
Lemma main_passes_barrier cfg (d : nat) : forall k s,
  main_pc s = main_wait_started k ->
  (k + S d = stream_count cfg)%nat ->
  (S d <= count (sem_started s))%nat ->
  exists s', run cfg (replicate (S d) ev_main) s = Some s' /\
             main_pc s' = main_init_sending 0 0.
Proof.
  induction d as [| d IH]; intros k s Hpc Hk Hc.
  - simpl. rewrite Hpc. unfold k_sem_take.
    destruct (count (sem_started s)) as [| c]; [lia |].
    unfold main_at_wait_started, main_at_init_sending.
    destruct (Nat.ltb_spec (S k) (stream_count cfg)); [lia |].
    destruct (Nat.ltb_spec 0 (stream_count cfg)); [| lia].
    eexists; split; reflexivity.
  - change (replicate (S (S d)) ev_main)
      with (ev_main :: replicate (S d) ev_main).
    cbn [run]. unfold step. rewrite Hpc. unfold k_sem_take.
    destruct (count (sem_started s)) as [| c] eqn:Hcount; [lia |].
    unfold main_at_wait_started.
    destruct (Nat.ltb_spec (S k) (stream_count cfg)); [| lia].
    apply (IH (S k)); simpl; [reflexivity | lia | lia].
Qed.

(** ** Credits *)

Lemma count_if_forallb (q p : effect -> bool) (out : list effect) :
  (forall e, q e = true -> p e = false) ->
  forallb q out = true -> count_if p out = 0%nat.
Proof.
  intros Hp. induction out as [| e out IH]; simpl; [reflexivity |].
  intros [He Hout]%andb_prop. rewrite (Hp e He), (IH Hout). reflexivity.
Qed.

Lemma printk_no_credit e : is_printk e = true -> is_took_credit e = false.
Proof. destruct e; simpl; congruence. Qed.
Lemma printk_no_seed e : is_printk e = true -> is_seeded e = false.
Proof. destruct e; simpl; congruence. Qed.
Lemma printk_no_sent e : is_printk e = true -> is_sent e = false.
Proof. destruct e; simpl; congruence. Qed.
Lemma printk_no_call e : is_printk e = true -> is_send_data e = false.
Proof. destruct e; simpl; congruence. Qed.
Lemma send_no_sent e : is_send_effect e = true -> is_sent e = false.
Proof. destruct e; simpl; congruence. Qed.

Ltac printk_counts Hout :=
  rewrite ?count_if_app,
    ?(count_if_forallb is_printk is_took_credit _ printk_no_credit Hout),
    ?(count_if_forallb is_printk is_seeded _ printk_no_seed Hout),
    ?(count_if_forallb is_printk is_sent _ printk_no_sent Hout),
    ?(count_if_forallb is_printk is_send_data _ printk_no_call Hout),
    ?Nat.add_0_r.

(** Each call of [send_data] calls [net_buf_alloc] once. *)
Lemma send_data_one_call cfg i env st pcm :
  count_if is_send_data (send_data cfg i env st pcm).2 = 1%nat.
Proof.
  unfold send_data.
  repeat (case_match; simpl; try reflexivity).
Qed.

Lemma balance_boot cfg : balance cfg (boot cfg).
Proof. split; reflexivity. Qed.

Lemma balance_step cfg ev s s' :
  inv cfg s -> balance cfg s -> step cfg ev s = Some s' -> balance cfg s'.
Proof.
  intros [Hs Hq Hl Hls Hpool Hcred Hmpc Hepc Hseed Hseedof Hwait Hsle Hsge Hss]
    [Hb1 Hb2] H.
  destruct ev; unfold step in H.
  - destruct (main_pc s) eqn:Hpc; try discriminate. injection H as <-.
    destruct (main_setup_spec cfg env s)
      as (out & pc & Hout & Htr & Hpc' & Hcase & Henc & Hlen & Hq' & Hp'
          & Hst' & Hlc').
    simpl in Hcred.
    split; rewrite Htr, ?Hlc'; printk_counts Hout; [exact Hb1 |].
    rewrite Hb2. destruct Henc as [-> | ->]; simpl; lia.
  - destruct (main_pc s) as [| i | i j | |] eqn:Hpc; try discriminate.
    + destruct (k_sem_take (sem_started s)) as [sem |]; [| discriminate].
      destruct (main_at_wait_started cfg (S i)) as [pc out] eqn:Hat.
      injection H as <-.
      assert (Hout : forallb is_printk out = true).
      { unfold main_at_wait_started in Hat.
        destruct (_ <? _)%nat; injection Hat as <- <-; reflexivity. }
      split; simpl;
        change (TookStarted :: out) with ([TookStarted] ++ out);
        printk_counts Hout; simpl; rewrite ?Nat.add_0_r; assumption.
    + injection H as <-.
      split; simpl; rewrite ?count_if_app; simpl; rewrite ?Nat.add_0_r;
        [| assumption].
      arith.
  - destruct (encoder_pc s) eqn:Hpc; try discriminate. injection H as <-.
    pose proof (init_lc3_thread_printk cfg env (globals s) (streams s)
                  (send_pcm_data s)) as Hout.
    split; simpl; printk_counts Hout; [exact Hb1 |].
    rewrite Hb2. destruct (init_enters_loop _); arith.
  - destruct (encoder_pc s) as [| | i | i | |] eqn:Hpc; try discriminate.
    destruct (k_sem_take (lc3_encoder_sem s)) as [sem |] eqn:Htake;
      [| discriminate].
    apply k_sem_take_Some in Htake as [Hc Hlim].
    injection H as <-.
    split; simpl; rewrite ?count_if_app; simpl; rewrite ?Nat.add_0_r;
      arith.
  - destruct (encoder_pc s) as [| | i | i | |] eqn:Hpc; try discriminate.
    destruct (streams s !! i) as [st |] eqn:Hst; [| discriminate].
    destruct (tx_pool s) as [| pool] eqn:Htx; [discriminate |].
    pose proof (send_data_effects cfg i env st (send_pcm_data s)) as Hout.
    pose proof (send_data_one_call cfg i env st (send_pcm_data s)) as Hone.
    destruct (send_data cfg i env st (send_pcm_data s)) as [[st' pcm] out].
    simpl in Hout, Hone. injection H as <-.
    split; destruct (accepted out); simpl; rewrite ?count_if_app, ?Hone,
      ?(count_if_send_effects is_took_credit _ _ not_took_credit Hout),
      ?(count_if_none is_took_credit _ not_took_credit Hout),
      ?(count_if_none is_seeded _ not_seeded Hout),
      ?(count_if_none is_sent _ send_no_sent Hout), ?Nat.add_0_r;
      try assumption; arith.
  - destruct (streams s !! stream); [| discriminate]. injection H as <-.
    split; simpl; rewrite ?count_if_app; simpl; rewrite ?Nat.add_0_r;
      assumption.
  - destruct (streams s !! stream); [| discriminate]. injection H as <-.
    split; simpl; rewrite ?count_if_app; simpl; rewrite ?Nat.add_0_r;
      assumption.
  - destruct (iso_queue s !! stream) as [[| q] |] eqn:Hqi; try discriminate.
    injection H as <-. apply lookup_sum_pos in Hqi.
    assert (seeded cfg (main_pc s) <= TOTAL_BUF_NEEDED cfg)%nat
      by (destruct (main_pc s); arith).
    split; simpl; rewrite ?count_if_app; simpl; rewrite ?Nat.add_0_r;
      [| assumption].
    arith.
  - destruct (CONFIG_USB_DEVICE_AUDIO cfg); [| discriminate].
    destruct (usb_count s =? INT_MAX); [discriminate |].
    pose proof (usb_put_printk cfg 0 [left_ch; right_ch] (streams s)) as Hout.
    destruct (usb_put cfg 0 [left_ch; right_ch] (streams s)) as [l' out].
    injection H as <-. simpl in Hout.
    split; simpl; destruct (_ =? _); printk_counts Hout; simpl;
      rewrite ?Nat.add_0_r; assumption.
Qed.

Lemma balance_run cfg sched s :
  run cfg sched (boot cfg) = Some s -> balance cfg s.
Proof.
  intros Hrun.
  enough (inv cfg s /\ balance cfg s) as [_ H] by exact H.
  refine (run_invariant cfg (fun s => inv cfg s /\ balance cfg s)
            _ sched (boot cfg) s _ Hrun).
  - intros ev s1 s2 [I B] H.
    split; [exact (inv_step _ _ _ _ I H) | exact (balance_step _ _ _ _ I B H)].
  - split; [apply inv_boot | apply balance_boot].
Qed.

(** ** C1 *)

(** X23. The barrier of the start-up counts started signals. [main] takes
    [sem_started] exactly [stream_count] times and each started callback
    gives it once, so the encode/transmit loop is released (credits
    seeded, first buffer sent) exactly when [stream_count] started signals
    have been given, whichever streams they came from: nothing of
    transmission happens before [stream_count] takes and as many signals
    (never after only N-1), and once that many signals are there [main]
    gets through the loop. When every stream has signalled, that many
    signals are there; and when no stream has signalled twice, that many
    signals are there only if every stream has signalled. *)
Theorem startup_barrier_counts_started_signals cfg sched s :
  run cfg sched (boot cfg) = Some s ->
  (count_if is_took_started (trace s) <= stream_count cfg)%nat /\
  each_after (after_barrier cfg) (trace s) /\
  (released s = true ->
   count_if is_took_started (trace s) = stream_count cfg /\
   (stream_count cfg <= count_if is_started (trace s))%nat) /\
  (forall k, main_pc s = main_wait_started k ->
             (stream_count cfg <= count_if is_started (trace s))%nat ->
             exists s', run cfg (replicate (stream_count cfg - k) ev_main) s
                        = Some s' /\ released s' = true) /\
  ((forall i, (i < stream_count cfg)%nat -> In i (started_streams (trace s))) ->
   (stream_count cfg <= count_if is_started (trace s))%nat) /\
  (NoDup (started_streams (trace s)) ->
   (stream_count cfg <= count_if is_started (trace s))%nat ->
   forall i, (i < stream_count cfg)%nat -> In i (started_streams (trace s))).
Proof.
  intros Hrun. pose proof (inv_run _ _ _ Hrun) as I.
  pose proof (barrier_before_transmission _ _ _ Hrun) as Hbar.
  destruct I as [Hs Hq Hl Hls Hpool Hcred Hmpc Hepc Hseed Hseedof Hwait Hsle
                   Hsge Hss].
  split; [| split; [| split; [| split; [| split]]]].
  - rewrite Hwait. destruct (main_pc s); simpl in *; lia.
  - exact Hbar.
  - intros H. unfold released in H. rewrite Hwait.
    destruct (main_pc s); simpl in *; try congruence; split; lia.
  - intros k Hpc Hn. rewrite Hpc in *. simpl in *.
    destruct (main_passes_barrier cfg (stream_count cfg - k - 1) k s Hpc)
      as (s' & Hrun' & Hpc'); [lia | lia |].
    exists s'. replace (stream_count cfg - k)%nat
      with (S (stream_count cfg - k - 1)) by lia.
    split; [exact Hrun' |]. unfold released. rewrite Hpc'. reflexivity.
  - intros Hall. rewrite <- started_streams_length.
    rewrite <- (length_seq (stream_count cfg) 0%nat) at 1.
    apply NoDup_incl_length; [apply seq_NoDup |].
    intros i Hi%in_seq. apply Hall. lia.
  - intros Hnd%NoDup_ListNoDup Hn i Hi.
    apply (NoDup_length_incl Hnd (l' := seq 0 (stream_count cfg))).
    + rewrite length_seq, started_streams_length. exact Hn.
    + intros j Hj. apply in_seq. rewrite Forall_forall in Hss.
      specialize (Hss j Hj). lia.
    + apply in_seq. lia.
Qed.

(** The theorem at the start-up of the reference scenario. *)
Lemma startup_barrier_witness :
  (stream_count reference_config
   <= count_if is_started (trace (state_after reference_config startup)))%nat.
Proof.
  pose proof (startup_barrier_counts_started_signals reference_config startup
                (state_after reference_config startup))
    as H.
  destruct H as (_ & _ & H & _); [vm_compute; reflexivity |].
  apply H. reflexivity.
Defined.


(** ** C3 *)

Lemma count_if_prefix (p : effect -> bool) (t1 t2 : list effect) :
  (count_if p t1 <= count_if p (t1 ++ t2))%nat.
Proof. rewrite count_if_app. lia. Qed.

(** With enough credits the encoder thread gets through its loop of
    [k_sem_take], one credit per stream. *)
Lemma encoder_takes_credits cfg (d : nat) : forall k s,
  encoder_pc s = encoder_take k ->
  (k + S d = stream_count cfg)%nat ->
  (S d <= count (lc3_encoder_sem s))%nat ->
  exists s', run cfg (replicate (S d) ev_encoder_take) s = Some s' /\
             encoder_pc s' = encoder_send 0 /\
             (count (lc3_encoder_sem s') + S d)%nat = count (lc3_encoder_sem s).
Proof.
  induction d as [| d IH]; intros k s Hpc Hk Hc.
  - simpl. rewrite Hpc. unfold k_sem_take.
    destruct (count (lc3_encoder_sem s)) as [| c]; [lia |].
    unfold encoder_after_take.
    destruct (Nat.ltb_spec (S k) (stream_count cfg)); [lia |].
    eexists; repeat split. simpl. lia.
  - change (replicate (S (S d)) ev_encoder_take)
      with (ev_encoder_take :: replicate (S d) ev_encoder_take).
    cbn [run]. unfold step. rewrite Hpc. unfold k_sem_take.
    destruct (count (lc3_encoder_sem s)) as [| c] eqn:Hcount; [lia |].
    unfold encoder_after_take.
    destruct (Nat.ltb_spec (S k) (stream_count cfg)); [| lia].
    edestruct (IH (S k)) as (s' & Hrun & Hpc' & Hc');
      [| | | exists s'; repeat split; [exact Hrun | exact Hpc' |]];
      simpl in *; try reflexivity; lia.
Qed.

(** C3, as the code has it. The credits are one counting semaphore shared
    by all streams, not a count per stream. At every point of every
    execution it holds at most [BROADCAST_ENQUEUE_COUNT * stream_count]
    credits, and so do together the credits in it, the buffers queued in
    the stack and the credits taken for the cycle under way. A sent
    notification gives exactly one credit to the shared semaphore (none at
    its limit), whichever stream it is for; the encoder thread takes
    [stream_count] credits per cycle, one for each call of [send_data]. *)
Theorem shared_credits_bounded_by_total cfg sched s :
  run cfg sched (boot cfg) = Some s ->
  (count (lc3_encoder_sem s) <= TOTAL_BUF_NEEDED cfg)%nat /\
  (count (lc3_encoder_sem s) + sum_list (iso_queue s)
   + pending cfg (encoder_pc s) <= TOTAL_BUF_NEEDED cfg)%nat /\
  (forall i j sem,
      stream_sent_cb i sem = stream_sent_cb j sem /\
      limit (stream_sent_cb i sem) = limit sem /\
      count (stream_sent_cb i sem)
      = if (count sem <? limit sem)%nat then S (count sem) else count sem) /\
  count_if is_took_credit (trace s)
  = (count_if is_send_data (trace s) + pending cfg (encoder_pc s))%nat /\
  (pending cfg (encoder_pc s) <= stream_count cfg)%nat /\
  (forall k, encoder_pc s = encoder_take k ->
             (stream_count cfg - k <= count (lc3_encoder_sem s))%nat ->
             exists s',
               run cfg (replicate (stream_count cfg - k) ev_encoder_take) s
               = Some s' /\
               encoder_pc s' = encoder_send 0 /\
               (count (lc3_encoder_sem s') + (stream_count cfg - k))%nat
               = count (lc3_encoder_sem s)).
Proof.
  intros Hrun. pose proof (inv_run _ _ _ Hrun) as I.
  pose proof (balance_run _ _ _ Hrun) as [Hb1 Hb2].
  destruct I as [Hs Hq Hl Hls Hpool Hcred Hmpc Hepc Hseed Hseedof Hwait Hsle
                   Hsge Hss].
  assert (Hle : (seeded cfg (main_pc s) <= TOTAL_BUF_NEEDED cfg)%nat)
    by (destruct (main_pc s); arith).
  split; [lia |]. split; [lia |]. split.
  { intros i j sem. unfold stream_sent_cb.
    rewrite k_sem_give_limit, k_sem_give_count. auto. }
  split; [exact Hb2 |]. split.
  { destruct (encoder_pc s); simpl in *; lia. }
  intros k Hpc Hc. rewrite Hpc in Hepc.
  replace (stream_count cfg - k)%nat with (S (stream_count cfg - k - 1)) in *
    by lia.
  apply (encoder_takes_credits cfg _ k s Hpc); lia.
Qed.

(** The theorem at the start-up of the reference scenario: six credits,
    two streams. *)
Lemma shared_credits_witness :
  (count (lc3_encoder_sem (state_after reference_config startup))
   <= TOTAL_BUF_NEEDED reference_config)%nat.
Proof.
  pose proof (shared_credits_bounded_by_total reference_config startup
                (state_after reference_config startup))
    as H.
  destruct H as (H & _); [vm_compute; reflexivity |].
  exact H.
Defined.

(** C3 as stated fails: after the start-up of the reference scenario the
    only credit count there is holds 6 credits, with an enqueue depth of
    3; and since the credits are shared, a stream whose buffers complete
    late (here stream 1, while those of stream 0 complete) gets a fourth
    buffer queued. *)
Lemma credits_exceed_enqueue_depth :
  (exists s,
      run reference_config startup (boot reference_config) = Some s /\
      count (lc3_encoder_sem s) = 6%nat /\
      (BROADCAST_ENQUEUE_COUNT < count (lc3_encoder_sem s))%nat) /\
  (exists s,
      run reference_config stream_1_lags (boot reference_config) = Some s /\
      iso_queue s !! 1%nat = Some 4%nat /\
      (BROADCAST_ENQUEUE_COUNT < 4)%nat).
Proof.
  split; eexists; (split; [vm_compute; reflexivity |]);
    split; try reflexivity; vm_compute; lia.
Qed.

(** ** C5 *)

Lemma printk_not_cycle (out : list effect) (e : effect) :
  forallb is_printk out = true -> In e out -> is_cycle e = false.
Proof.
  rewrite forallb_forall. intros H Hin. specialize (H e Hin).
  unfold is_cycle. destruct e; simpl in *; congruence.
Qed.

(** When [main] has priority over the encoder thread, the encoder thread
    runs its cycles only while [main] sleeps. *)
Lemma step_cycle_main_sleeps cfg ev s s' :
  inv cfg s ->
  CONFIG_MAIN_THREAD_PRIORITY cfg < LC3_ENCODER_PRIORITY ->
  may_run cfg ev s = true ->
  step cfg ev s = Some s' ->
  exists out,
    trace s' = trace s ++ out /\
    forall e, In e out -> is_cycle e = true -> main_pc s = main_sleep.
Proof.
  intros I Hprio Hmay H.
  destruct (step_effects cfg ev s s' H) as (out & Htr & Hev).
  exists out; split; [exact Htr |]. intros e Hin He.
  destruct I as [Hs Hq Hl Hls Hpool Hcred Hmpc Hepc _ _ _ _ _ _].
  assert (Hsleep : main_ready s = false -> (0 < seeded cfg (main_pc s))%nat ->
                   main_pc s = main_sleep).
  { unfold main_ready. destruct (main_pc s); simpl; try lia; congruence. }
  assert (Hlt : (CONFIG_MAIN_THREAD_PRIORITY cfg <? LC3_ENCODER_PRIORITY)
                = true) by (apply Z.ltb_lt; exact Hprio).
  destruct ev; simpl in Hmay; rewrite ?Hlt, ?andb_true_r in Hmay;
    try apply negb_true_iff in Hmay.
  - rewrite (printk_not_cycle _ _ Hev Hin) in He. discriminate.
  - destruct Hev as [(i & out' & Hpc & -> & Hout') | (i & j & Hpc & ->)].
    + destruct Hin as [<- | Hin]; [cbv in He; discriminate |].
      rewrite (printk_not_cycle _ _ Hout' Hin) in He. discriminate.
    + destruct Hin as [<- | []]. cbv in He. discriminate.
  - rewrite (printk_not_cycle _ _ Hev Hin) in He. discriminate.
  - destruct Hev as (_ & _ & Hc). apply Hsleep; [exact Hmay | lia].
  - destruct Hev as ((i & Hpc) & _). apply Hsleep; [exact Hmay |].
    rewrite Hpc in Hcred, Hepc. simpl in Hcred. lia.
  - subst out. destruct Hin as [<- | []]. cbv in He. discriminate.
  - subst out. destruct Hin as [<- | []]. cbv in He. discriminate.
  - destruct Hev as (-> & _). destruct Hin as [<- | []]. cbv in He.
    discriminate.
  - rewrite (printk_not_cycle _ _ Hev Hin) in He. discriminate.
Qed.

Lemma seeding_before_cycles cfg sched s :
  CONFIG_MAIN_THREAD_PRIORITY cfg < LC3_ENCODER_PRIORITY ->
  run_by_priority cfg sched (boot cfg) = Some s ->
  each_after (seeded_before cfg) (trace s).
Proof.
  intros Hprio. apply run_by_priority_each_after.
  - unfold seeded_before. intros t1 x e H He k Hk.
    rewrite count_if_app. specialize (H He k Hk). lia.
  - intros ev s1 s2 I Hmay H.
    destruct (step_cycle_main_sleeps cfg ev s1 s2 I Hprio Hmay H)
      as (out & Htr & Hout).
    exists out; split; [exact Htr |]. intros e Hin He k Hk.
    specialize (Hout e Hin He).
    destruct I as [_ _ _ _ _ _ _ _ _ Hseedof _ _ _ _].
    rewrite (Hseedof k), Hout. simpl.
    destruct (Nat.ltb_spec k (stream_count cfg)); lia.
Qed.

(** C5, as the code has it. In every execution the initial seeding
    happens once and only after the loop that waits for the streams is
    complete: each seeded credit comes after [stream_count] takes of
    [sem_started]; no stream is seeded more than
    [BROADCAST_ENQUEUE_COUNT] (3) credits, none but the configured
    streams is seeded any, and once [main] has reached its final sleep
    each configured stream has been seeded exactly 3. Credits come from
    nowhere else: those in the semaphore and those taken are, in number,
    those seeded and those returned by sent notifications. That the
    seeding is complete before the first cycle of the encoder thread is
    a matter of the priorities: when [main] has priority over the encoder
    thread (Zephyr's default for [main] is 0, the encoder thread has 5),
    every cycle of the encoder thread, from its first take on, comes
    after the complete seeding. *)
Theorem initial_credits_seeded_once_after_barrier cfg sched s :
  (run cfg sched (boot cfg) = Some s ->
   each_after (fun t1 e => is_seeded e = true ->
                           count_if is_took_started t1 = stream_count cfg)
              (trace s) /\
   (forall k, (count_if (is_seeded_of k) (trace s)
               <= BROADCAST_ENQUEUE_COUNT)%nat) /\
   (forall k, (stream_count cfg <= k)%nat ->
              count_if (is_seeded_of k) (trace s) = 0%nat) /\
   (main_pc s = main_sleep ->
    forall k, (k < stream_count cfg)%nat ->
              count_if (is_seeded_of k) (trace s) = BROADCAST_ENQUEUE_COUNT) /\
   (count (lc3_encoder_sem s) + count_if is_took_credit (trace s)
    = count_if is_seeded (trace s) + count_if is_sent (trace s))%nat) /\
  (run_by_priority cfg sched (boot cfg) = Some s ->
   CONFIG_MAIN_THREAD_PRIORITY cfg < LC3_ENCODER_PRIORITY ->
   each_after (fun t1 e =>
                 is_cycle e = true ->
                 forall k, (k < stream_count cfg)%nat ->
                           count_if (is_seeded_of k) t1
                           = BROADCAST_ENQUEUE_COUNT)
              (trace s)).
Proof.
  assert (Hbound : forall s, inv cfg s -> forall k,
             (count_if (is_seeded_of k) (trace s)
              <= BROADCAST_ENQUEUE_COUNT)%nat).
  { intros s0 I k.
    destruct I as [_ _ _ _ _ _ Hmpc _ _ Hseedof _ _ _ _].
    rewrite (Hseedof k). destruct (main_pc s0); arith. }
  split.
  - intros Hrun. pose proof (inv_run _ _ _ Hrun) as I.
    pose proof (balance_run _ _ _ Hrun) as [Hb1 _].
    pose proof (barrier_before_transmission _ _ _ Hrun) as Hbar.
    split; [| split; [| split; [| split]]].
    + intros t1 e t2 Heq He.
      assert (Htr : is_transmission e = true) by (destruct e; auto).
      destruct (Hbar t1 e t2 Heq Htr) as [Hge _].
      destruct I as [_ _ _ _ _ _ Hmpc _ _ _ Hwait _ _ _].
      pose proof (count_if_prefix is_took_started t1 (e :: t2)) as Hpre.
      rewrite <- Heq, Hwait in Hpre.
      assert (waited cfg (main_pc s) <= stream_count cfg)%nat
        by (destruct (main_pc s); simpl in *; lia).
      lia.
    + exact (Hbound s I).
    + intros k Hk. destruct I as [_ _ _ _ _ _ Hmpc _ _ Hseedof _ _ _ _].
      rewrite (Hseedof k). destruct (main_pc s); arith.
    + intros Hpc k Hk. destruct I as [_ _ _ _ _ _ _ _ _ Hseedof _ _ _ _].
      rewrite (Hseedof k), Hpc. arith.
    + exact Hb1.
  - intros Hrun Hprio t1 e t2 Heq He k Hk.
    pose proof (seeding_before_cycles cfg sched s Hprio Hrun t1 e t2 Heq He
                  k Hk) as Hge.
    pose proof (inv_run _ _ _ (run_by_priority_run _ _ _ _ Hrun)) as I.
    pose proof (Hbound s I k) as Hle.
    pose proof (count_if_prefix (is_seeded_of k) t1 (e :: t2)) as Hpre.
    rewrite <- Heq in Hpre. lia.
Qed.

(** The theorem at the start-up of the reference scenario followed by one
    cycle, scheduled by priority. *)
Lemma initial_credits_witness :
  each_after (fun t1 e =>
                is_cycle e = true ->
                forall k, (k < stream_count reference_config)%nat ->
                          count_if (is_seeded_of k) t1
                          = BROADCAST_ENQUEUE_COUNT)
             (trace (state_after reference_config (startup ++ cycle)))
  /\ count_if (is_seeded_of 1)
              (trace (state_after reference_config (startup ++ cycle)))
     = BROADCAST_ENQUEUE_COUNT.
Proof.
  pose proof (initial_credits_seeded_once_after_barrier reference_config
                (startup ++ cycle)
                (state_after reference_config (startup ++ cycle)))
    as [H1 H2].
  split.
  - apply H2; [vm_compute; reflexivity | reflexivity].
  - destruct H1 as (_ & _ & _ & H & _); [vm_compute; reflexivity |].
    apply H; [reflexivity | vm_compute; lia].
Defined.

(** C5 as stated fails: nothing holds the encoder thread back until the
    seeding is complete. In a build in which [main] has no priority over
    it, the thread, scheduled by Zephyr's rule, takes the first credit as
    soon as it is seeded; its first cycle is complete, with a buffer of
    either stream sent, when [main] has seeded two credits of six. *)
Lemma first_cycle_before_seeding_is_complete :
  exists s,
    run_by_priority main_below_encoder_config first_cycle_while_seeding
                    (boot main_below_encoder_config) = Some s /\
    main_pc s = main_init_sending 0 2 /\
    count_if is_seeded (trace s) = 2%nat /\
    count_if is_took_credit (trace s) = 2%nat /\
    In (StreamSend 0 0 0) (trace s) /\
    In (StreamSend 1 0 0) (trace s) /\
    ~ each_after (fun t1 e =>
                    is_cycle e = true ->
                    forall k, (k < stream_count main_below_encoder_config)%nat ->
                              count_if (is_seeded_of k) t1
                              = BROADCAST_ENQUEUE_COUNT)
                 (trace s).
Proof.
  eexists. split; [vm_compute; reflexivity |].
  split; [reflexivity |].
  do 2 (split; [vm_compute; reflexivity |]).
  do 2 (split; [vm_compute; tauto |]).
  match goal with
  | |- ~ each_after _ ?t =>
      intros H;
      specialize (H (removelast t) (StreamSend 1 0 0) []
                    ltac:(vm_compute; reflexivity) eq_refl 0%nat
                    ltac:(vm_compute; lia))
  end.
  vm_compute in H. discriminate.
Qed.

(** ** C7 *)

(** The PCM buffer after the fill step of [send_data] with the USB
    headset as audio. *)
Lemma send_data_usb_pcm cfg i env st pcm enc :
  CONFIG_USB_DEVICE_AUDIO cfg = true ->
  net_buf_alloc_null env = false ->
  lc3_encoder st = Some enc ->
  length pcm = sizeof_send_pcm_data cfg ->
  let '(st', pcm', _) := send_data cfg i env st pcm in
  pcm' = take (sizeof_send_pcm_data cfg) (audio_ring_buf st)
         ++ replicate (sizeof_send_pcm_data cfg
                       - length (audio_ring_buf st)) 0 /\
  audio_ring_buf st' = drop (sizeof_send_pcm_data cfg) (audio_ring_buf st).
Proof.
  intros Husb Hnull Henc Hlen. unfold send_data, ring_buf_get, memset0.
  rewrite Husb, Hnull, Henc.
  set (n := sizeof_send_pcm_data cfg) in *.
  set (rb := audio_ring_buf st).
  assert (Hpcm :
    (if (length (take n rb) <? n)%nat
     then take (length (take n rb)) (take n rb ++ drop (length (take n rb)) pcm)
          ++ replicate (n - length (take n rb)) 0
          ++ drop (length (take n rb) + (n - length (take n rb)))
               (take n rb ++ drop (length (take n rb)) pcm)
     else take n rb ++ drop (length (take n rb)) pcm)
    = take n rb ++ replicate (n - length rb) 0).
  { rewrite length_take.
    destruct (Nat.ltb_spec (n `min` length rb) n) as [Hlt | Hge].
    - rewrite take_app_length' by (rewrite length_take; lia).
      rewrite drop_ge
        by (rewrite length_app, length_take, length_drop; lia).
      rewrite app_nil_r. do 2 f_equal. lia.
    - rewrite drop_ge by lia.
      replace (n - length rb)%nat with 0%nat by lia. reflexivity. }
  simpl. rewrite Hpcm.
  destruct (lc3_encode_ret env =? -1); [split; reflexivity |].
  destruct (bt_bap_stream_send_ret env <? 0); split; reflexivity.
Qed.

Lemma send_data_spec cfg i env st pcm :
  (send_data cfg i env st pcm).2 = send_data_writes i env st /\
  (seq_num (send_data cfg i env st pcm).1.1,
   sent_cnt (send_data cfg i env st pcm).1.1) = send_data_counters env st /\
  lc3_encoder (send_data cfg i env st pcm).1.1 = lc3_encoder st.
Proof.
  unfold send_data, send_data_writes, send_data_counters, ring_buf_get.
  destruct (net_buf_alloc_null env); [auto |].
  destruct (lc3_encoder st) as [enc |] eqn:Henc; [| auto].
  destruct (CONFIG_USB_DEVICE_AUDIO cfg); simpl;
    destruct (lc3_encode_ret env =? -1); simpl; auto;
    destruct (bt_bap_stream_send_ret env <? 0); simpl; auto.
Qed.

(** What [send_data] writes does not depend on the content of the ring. *)
Lemma send_data_effects_ring cfg i env st pcm rb :
  (send_data cfg i env (with_ring rb st) pcm).2
  = (send_data cfg i env st pcm).2.
Proof.
  rewrite (proj1 (send_data_spec cfg i env (with_ring rb st) pcm)).
  rewrite (proj1 (send_data_spec cfg i env st pcm)). reflexivity.
Qed.

(** C7, as the code has it. With the USB headset as audio, when the ring
    holds fewer bytes than [send_pcm_data] has, the fill step of
    [send_data] leaves in [send_pcm_data] the bytes of the ring followed
    by zeros, exactly [sizeof(send_pcm_data)] bytes in all, and leaves the
    ring empty; it waits for nothing ([ring_buf_get] returns what there
    is). No shortfall is reported: what the call prints and does is what
    it prints and does with any other content of the ring, a full one
    included. *)
Theorem capture_shortfall_zero_filled cfg i env st pcm enc :
  CONFIG_USB_DEVICE_AUDIO cfg = true ->
  net_buf_alloc_null env = false ->
  lc3_encoder st = Some enc ->
  length pcm = sizeof_send_pcm_data cfg ->
  (length (audio_ring_buf st) < sizeof_send_pcm_data cfg)%nat ->
  (send_data cfg i env st pcm).1.2
  = audio_ring_buf st
    ++ replicate (sizeof_send_pcm_data cfg - length (audio_ring_buf st)) 0 /\
  length (send_data cfg i env st pcm).1.2 = sizeof_send_pcm_data cfg /\
  audio_ring_buf (send_data cfg i env st pcm).1.1 = [] /\
  forall rb, (send_data cfg i env (with_ring rb st) pcm).2
             = (send_data cfg i env st pcm).2.
Proof.
  intros Husb Hnull Henc Hlen Hshort.
  pose proof (send_data_usb_pcm cfg i env st pcm enc Husb Hnull Henc Hlen)
    as H.
  destruct (send_data cfg i env st pcm) as [[st' pcm'] out] eqn:E.
  destruct H as [-> Hrb]. simpl. rewrite Hrb.
  rewrite take_ge, drop_ge by lia.
  split; [reflexivity |]. split.
  - rewrite length_app, length_replicate. lia.
  - split; [reflexivity |]. intros rb.
    rewrite send_data_effects_ring, E. reflexivity.
Qed.

(** ** Sequence numbers and sent counters *)

Lemma since_started_app i (t out : list effect) acc :
  since_started i (t ++ out) acc = since_started i out (since_started i t acc).
Proof.
  revert acc; induction t as [| e t IH]; intros acc; simpl; [reflexivity |].
  destruct e; simpl; apply IH.
Qed.

Lemma since_started_printk i (out : list effect) acc :
  forallb is_printk out = true -> since_started i out acc = acc.
Proof.
  revert acc; induction out as [| e out IH]; intros acc; simpl;
    [reflexivity |].
  destruct e; simpl; try discriminate. apply IH.
Qed.

Lemma since_started_no_send i (t : list effect) :
  count_if is_stream_send t = 0%nat -> since_started i t [] = [].
Proof.
  induction t as [| e t IH]; simpl; [reflexivity |].
  destruct e; simpl; try discriminate; try exact IH.
  destruct (stream =? i)%nat; exact IH.
Qed.

(** What a call of [send_data] for stream [j] adds to the submissions of
    stream [i]. *)
Lemma since_started_send_data i j env st acc :
  since_started i (send_data_writes j env st) acc
  = if (j =? i)%nat
    then if net_buf_alloc_null env then acc
         else match lc3_encoder st with
              | None => acc
              | Some _ =>
                  if lc3_encode_ret env =? -1 then acc
                  else acc ++ [(seq_num st, bt_bap_stream_send_ret env)]
              end
    else acc.
Proof.
  unfold send_data_writes.
  destruct (net_buf_alloc_null env); simpl;
    [destruct (j =? i)%nat; reflexivity |].
  destruct (lc3_encoder st); simpl; [| destruct (j =? i)%nat; reflexivity].
  destruct (lc3_encode_ret env =? -1); simpl;
    [destruct (j =? i)%nat; reflexivity |].
  destruct (bt_bap_stream_send_ret env <? 0); simpl;
    [destruct (j =? i)%nat; reflexivity |].
  destruct (_ =? 0); simpl; destruct (j =? i)%nat; reflexivity.
Qed.

Lemma counted_boot i : counted i stream0 [].
Proof.
  repeat split. intros k x H. destruct k; discriminate.
Qed.

Lemma counted_same i st st' t t' :
  seq_num st' = seq_num st -> sent_cnt st' = sent_cnt st ->
  submissions i t' = submissions i t ->
  counted i st t -> counted i st' t'.
Proof.
  unfold counted. intros -> -> ->. auto.
Qed.

Lemma counted_snoc i st st' t t' ret :
  submissions i t' = submissions i t ++ [(seq_num st, ret)] ->
  seq_num st' = (seq_num st + 1) mod (UINT16_MAX + 1) ->
  sent_cnt st' = (if 0 <=? ret
                  then (sent_cnt st + 1) mod (SIZE_MAX + 1)
                  else sent_cnt st) ->
  counted i st t -> counted i st' t'.
Proof.
  unfold counted. intros -> Hseq Hcnt (H1 & H2 & H3).
  rewrite length_app, List.filter_app, length_app. simpl.
  split; [| split].
  - rewrite Hseq, H1, Z.add_mod_idemp_l by (unfold UINT16_MAX; lia).
    f_equal. lia.
  - rewrite Hcnt. unfold taken at 2. simpl.
    destruct (0 <=? ret); simpl.
    + rewrite H2, Z.add_mod_idemp_l by (unfold SIZE_MAX; lia).
      f_equal. lia.
    + rewrite H2, Nat.add_0_r. reflexivity.
  - intros k x Hk.
    destruct (decide (k < length (submissions i t))%nat) as [Hlt | Hge].
    + rewrite lookup_app_l in Hk by exact Hlt. exact (H3 k x Hk).
    + rewrite lookup_app_r in Hk by lia.
      destruct (k - length (submissions i t))%nat eqn:Hd; simpl in Hk;
        [| destruct n; discriminate].
      injection Hk as <-. simpl. rewrite H1. f_equal. lia.
Qed.

Lemma setup_encoders_counters env g i l k st' :
  (setup_encoders env g i l).1 !! k = Some st' ->
  exists st, l !! k = Some st /\
             seq_num st' = seq_num st /\ sent_cnt st' = sent_cnt st.
Proof.
  revert i k; induction l as [| st l IH]; intros i k; simpl;
    [destruct k; discriminate |].
  specialize (IH (S i)).
  destruct (setup_encoders env g (S i) l) as [l' out]; simpl in *.
  destruct k as [| k]; simpl.
  - intros [= <-]. eauto.
  - apply IH.
Qed.

Lemma init_lc3_thread_counters cfg env g l pcm k st' :
  init_streams (init_lc3_thread cfg env g l pcm) !! k = Some st' ->
  exists st, l !! k = Some st /\
             seq_num st' = seq_num st /\ sent_cnt st' = sent_cnt st.
Proof.
  unfold init_lc3_thread.
  repeat (case_match; simpl; eauto).
  match goal with
  | H : setup_encoders ?e ?g ?i ?l = _ |- _ =>
      pose proof (setup_encoders_counters e g i l k st') as Hp;
      rewrite H in Hp
  end.
  exact Hp.
Qed.

Lemma usb_put_counters cfg i chans l k st' :
  (usb_put cfg i chans l).1 !! k = Some st' ->
  exists st, l !! k = Some st /\
             seq_num st' = seq_num st /\ sent_cnt st' = sent_cnt st.
Proof.
  revert i l k; induction chans as [| b chans IH]; intros i [| st l] k;
    simpl; eauto.
  destruct (ring_buf_put (AUDIO_RING_BUF_BYTES cfg) (audio_ring_buf st) b)
    as [n rb].
  specialize (IH (S i) l).
  destruct (usb_put cfg (S i) chans l) as [l' out]; simpl in *.
  destruct k as [| k]; simpl.
  - intros [= <-]. eauto.
  - apply IH.
Qed.

Lemma main_setup_streams cfg env s :
  streams (main_setup cfg env s) = streams s
  \/ streams (main_setup cfg env s) = replicate (stream_count cfg) stream0.
Proof.
  unfold main_setup.
  destruct (main_before_thread cfg env) as [o1 [c1 | []]]; simpl.
  - destruct (nonzero (bt_enable env)); auto.
  - destruct (main_after_thread cfg env) as [o2 [c2 | []]]; simpl;
      [| destruct (main_at_wait_started cfg 0)];
      destruct (nonzero (bt_enable env)), (CONFIG_USB_DEVICE_AUDIO cfg);
      simpl; auto.
Qed.

Lemma submissions_app i t out :
  submissions i (t ++ out) = since_started i out (submissions i t).
Proof. apply since_started_app. Qed.

Lemma counters_boot cfg : counters cfg (boot cfg).
Proof.
  split; [| reflexivity]. simpl. intros i st [-> _]%lookup_replicate.
  apply counted_boot.
Qed.

Lemma counters_step cfg ev s s' :
  inv cfg s -> counters cfg s -> step cfg ev s = Some s' -> counters cfg s'.
Proof.
  intros [Hs Hq Hl Hls Hpool Hcred Hmpc Hepc Hseed Hseedof Hwait Hsle Hsge Hss]
    [Hc He] H.
  destruct ev; unfold step in H.
  - destruct (main_pc s) eqn:Hpc; try discriminate. injection H as <-.
    destruct (main_setup_spec cfg env s)
      as (out & pc & Hout & Htr & Hpc' & Hcase & _).
    specialize (He eq_refl).
    split.
    + intros i st Hi. rewrite Htr.
      destruct (main_setup_streams cfg env s) as [Hst | Hst];
        rewrite Hst in Hi.
      * apply (counted_same i st st (trace s)); auto.
        rewrite submissions_app. apply since_started_printk, Hout.
      * apply lookup_replicate in Hi as [-> _].
        apply (counted_same i stream0 stream0 []); auto using counted_boot.
        rewrite submissions_app, since_started_printk by exact Hout.
        unfold submissions. rewrite since_started_no_send by exact He.
        reflexivity.
    + intros _. rewrite Htr, count_if_app, He.
      rewrite (count_if_forallb is_printk is_stream_send out); auto.
      intros e. destruct e; simpl; congruence.
  - destruct (main_pc s) as [| i | i j | |] eqn:Hpc; try discriminate.
    + destruct (k_sem_take (sem_started s)) as [sem |]; [| discriminate].
      destruct (main_at_wait_started cfg (S i)) as [pc out] eqn:Hat.
      injection H as <-.
      assert (Hout : forallb is_printk out = true /\ pc <> main_entry).
      { unfold main_at_wait_started, main_at_init_sending in Hat.
        destruct (_ <? _)%nat; injection Hat as <- <-; split;
          try reflexivity; try discriminate.
        destruct (_ <? _)%nat; discriminate. }
      destruct Hout as [Hout Hne].
      split; simpl; [| congruence].
      intros k st Hk. apply (counted_same k st st (trace s)); auto.
      rewrite submissions_app. simpl. apply since_started_printk, Hout.
    + injection H as <-. split; simpl.
      * intros k st Hk. apply (counted_same k st st (trace s)); auto.
        rewrite submissions_app. reflexivity.
      * unfold main_after_init_sending, main_at_init_sending.
        repeat (destruct (_ <? _)%nat); discriminate.
  - destruct (encoder_pc s) eqn:Hpc; try discriminate. injection H as <-.
    pose proof (init_lc3_thread_printk cfg env (globals s) (streams s)
                  (send_pcm_data s)) as Hout.
    split; simpl.
    + intros k st' Hk.
      apply init_lc3_thread_counters in Hk as (st & Hst & Hseq & Hcnt).
      apply (counted_same k st st' (trace s)); auto.
      rewrite submissions_app. apply since_started_printk, Hout.
    + intros Hentry. rewrite count_if_app, (He Hentry).
      rewrite (count_if_forallb is_printk is_stream_send _); auto.
      intros e. destruct e; simpl; congruence.
  - destruct (encoder_pc s) as [| | i | i | |] eqn:Hpc; try discriminate.
    destruct (k_sem_take (lc3_encoder_sem s)) as [sem |]; [| discriminate].
    injection H as <-. split; simpl.
    + intros k st Hk. apply (counted_same k st st (trace s)); auto.
      rewrite submissions_app. reflexivity.
    + intros Hentry. rewrite count_if_app, (He Hentry). reflexivity.
  - destruct (encoder_pc s) as [| | i | i | |] eqn:Hpc; try discriminate.
    destruct (streams s !! i) as [st |] eqn:Hst; [| discriminate].
    destruct (tx_pool s) as [| pool] eqn:Htx; [discriminate |].
    destruct (send_data_spec cfg i env st (send_pcm_data s))
      as (Hw & Hcnt & Henc).
    destruct (send_data cfg i env st (send_pcm_data s)) as [[st' pcm] out].
    simpl in Hw, Hcnt, Henc. injection H as <-.
    assert (Hne : main_pc s <> main_entry).
    { intros Hentry. rewrite Hentry in Hcred. simpl in Hcred, Hepc. lia. }
    split; [| destruct (accepted out); simpl; congruence].
    assert (Htr : forall k st2,
               <[i := st']> (streams s) !! k = Some st2 ->
               counted k st2 (trace s ++ out)).
    { intros k st2 Hk. subst out.
      destruct (decide (i = k)) as [<- | Hik].
      - rewrite list_lookup_insert_eq in Hk
          by (apply lookup_lt_Some in Hst; exact Hst).
        injection Hk as <-.
        specialize (Hc i st Hst).
        unfold send_data_counters in Hcnt.
        pose proof (since_started_send_data i i env st
                      (submissions i (trace s))) as Hsub.
        rewrite Nat.eqb_refl in Hsub. rewrite <- submissions_app in Hsub.
        destruct (net_buf_alloc_null env);
          [injection Hcnt as Hq1 Hq2;
           apply (counted_same i st st' (trace s)); auto |].
        destruct (lc3_encoder st);
          [| injection Hcnt as Hq1 Hq2;
             apply (counted_same i st st' (trace s)); auto].
        destruct (lc3_encode_ret env =? -1);
          [injection Hcnt as Hq1 Hq2;
           apply (counted_same i st st' (trace s)); auto |].
        apply (counted_snoc i st st' (trace s) _
                 (bt_bap_stream_send_ret env)); auto.
        + destruct (bt_bap_stream_send_ret env <? 0); congruence.
        + destruct (Z.ltb_spec (bt_bap_stream_send_ret env) 0),
            (Z.leb_spec 0 (bt_bap_stream_send_ret env)); try lia; congruence.
      - rewrite list_lookup_insert_ne in Hk by exact Hik.
        apply (counted_same k st2 st2 (trace s)); auto.
        rewrite submissions_app, since_started_send_data.
        destruct (Nat.eqb_spec i k); [contradiction | reflexivity]. }
    destruct (accepted out); simpl; exact Htr.
  - destruct (streams s !! stream) as [st |] eqn:Hst; [| discriminate].
    injection H as <-. split; simpl.
    + intros k st2 Hk. destruct (decide (stream = k)) as [<- | Hik].
      * rewrite list_lookup_insert_eq in Hk
          by (apply lookup_lt_Some in Hst; exact Hst).
        injection Hk as <-.
        apply (counted_same stream stream0 _ []); auto using counted_boot.
        rewrite submissions_app. simpl. rewrite Nat.eqb_refl. reflexivity.
      * rewrite list_lookup_insert_ne in Hk by exact Hik.
        apply (counted_same k st2 st2 (trace s)); auto.
        rewrite submissions_app. simpl.
        destruct (Nat.eqb_spec stream k); [contradiction | reflexivity].
    + intros Hentry. rewrite count_if_app, (He Hentry). reflexivity.
  - destruct (streams s !! stream); [| discriminate]. injection H as <-.
    split; simpl.
    + intros k st Hk. apply (counted_same k st st (trace s)); auto.
      rewrite submissions_app. reflexivity.
    + intros Hentry. rewrite count_if_app, (He Hentry). reflexivity.
  - destruct (iso_queue s !! stream) as [[| q] |]; try discriminate.
    injection H as <-. split; simpl.
    + intros k st Hk. apply (counted_same k st st (trace s)); auto.
      rewrite submissions_app. reflexivity.
    + intros Hentry. rewrite count_if_app, (He Hentry). reflexivity.
  - destruct (CONFIG_USB_DEVICE_AUDIO cfg); [| discriminate].
    destruct (usb_count s =? INT_MAX); [discriminate |].
    pose proof (usb_put_printk cfg 0 [left_ch; right_ch] (streams s)) as Hout.
    pose proof (usb_put_counters cfg 0 [left_ch; right_ch] (streams s)) as Hu.
    destruct (usb_put cfg 0 [left_ch; right_ch] (streams s)) as [l' out].
    injection H as <-. simpl in Hout, Hu.
    assert (Hout' : forallb is_printk
              (out ++ (if (usb_count s + 1) mod 1000 =? 0
                       then [Printk "USB Data received (count = %d)"
                                    [usb_count s + 1]]
                       else [])) = true).
    { rewrite forallb_app, Hout. destruct (_ =? _); reflexivity. }
    split; simpl.
    + intros k st' Hk. apply Hu in Hk as (st & Hst & Hseq & Hcnt).
      apply (counted_same k st st' (trace s)); auto.
      rewrite submissions_app. apply since_started_printk, Hout'.
    + intros Hentry. rewrite count_if_app, (He Hentry).
      rewrite (count_if_forallb is_printk is_stream_send _); auto.
      intros e. destruct e; simpl; congruence.
Qed.

Lemma counters_run cfg sched s :
  run cfg sched (boot cfg) = Some s -> counters cfg s.
Proof.
  intros Hrun.
  enough (inv cfg s /\ counters cfg s) as [_ H] by exact H.
  refine (run_invariant cfg (fun s => inv cfg s /\ counters cfg s)
            _ sched (boot cfg) s _ Hrun).
  - intros ev s1 s2 [I B] H.
    split; [exact (inv_step _ _ _ _ I H) | exact (counters_step _ _ _ _ I B H)].
  - split; [apply inv_boot | apply counters_boot].
Qed.

(** ** C10 *)

(** C10. A call of [send_data] that gets as far as [bt_bap_stream_send]
    passes the stream's sequence number and increments it (modulo 2^16)
    whatever the stack answers; the sent counter is incremented only when
    the answer is not negative, and on a negative answer the buffer is
    released. So, in every execution and for every stream: the sequence
    number is the number of its submissions since it last signalled
    started (modulo 2^16), the sent counter is the number of those the
    stack took (modulo [SIZE_MAX] + 1), submission number [k] carried
    sequence number [k], and each submission carried the sequence number
    of the one before plus one, whether that one was taken or rejected:
    the frames the stack took skip the sequence numbers of the rejected
    ones. *)
Theorem rejected_send_consumes_sequence_number cfg sched s i st :
  run cfg sched (boot cfg) = Some s ->
  streams s !! i = Some st ->
  (forall env enc pcm,
      net_buf_alloc_null env = false ->
      lc3_encoder st = Some enc ->
      lc3_encode_ret env <> -1 ->
      seq_num (send_data cfg i env st pcm).1.1
      = (seq_num st + 1) mod (UINT16_MAX + 1) /\
      sent_cnt (send_data cfg i env st pcm).1.1
      = (if bt_bap_stream_send_ret env <? 0 then sent_cnt st
         else (sent_cnt st + 1) mod (SIZE_MAX + 1)) /\
      In (StreamSend i (seq_num st) (bt_bap_stream_send_ret env))
         (send_data cfg i env st pcm).2 /\
      (bt_bap_stream_send_ret env < 0 ->
       In NetBufUnref (send_data cfg i env st pcm).2)) /\
  seq_num st
  = Z.of_nat (length (submissions i (trace s))) mod (UINT16_MAX + 1) /\
  sent_cnt st
  = Z.of_nat (length (List.filter taken (submissions i (trace s))))
    mod (SIZE_MAX + 1) /\
  (forall k x, submissions i (trace s) !! k = Some x ->
               x.1 = Z.of_nat k mod (UINT16_MAX + 1)) /\
  (forall k x y, submissions i (trace s) !! k = Some x ->
                 submissions i (trace s) !! S k = Some y ->
                 y.1 = (x.1 + 1) mod (UINT16_MAX + 1)).
Proof.
  intros Hrun Hst.
  destruct (counters_run _ _ _ Hrun) as [Hc _].
  destruct (Hc i st Hst) as (H1 & H2 & H3).
  split; [| split; [exact H1 | split; [exact H2 | split; [exact H3 |]]]].
  - intros env enc pcm Hnull Henc Herr.
    destruct (send_data_spec cfg i env st pcm) as (Hw & Hcnt & _).
    rewrite Hw. unfold send_data_counters in Hcnt.
    unfold send_data_writes. rewrite Hnull, Henc in *.
    destruct (Z.eqb_spec (lc3_encode_ret env) (-1)); [contradiction |].
    destruct (Z.ltb_spec (bt_bap_stream_send_ret env) 0);
      injection Hcnt as -> ->; repeat split; simpl; auto; lia.
  - intros k x y Hx Hy.
    rewrite (H3 _ _ Hx), (H3 _ _ Hy).
    rewrite Z.add_mod_idemp_l by (unfold UINT16_MAX; lia).
    f_equal. lia.
Qed.

(** The theorem at a run of the reference scenario in which the first
    buffer of stream 0 is rejected: two submissions, one sent frame. *)
Lemma rejected_send_witness :
  sent_cnt (default stream0
              (streams (state_after reference_config one_rejection) !! 0%nat))
  = 1 mod (SIZE_MAX + 1)
  /\ submissions 0 (trace (state_after reference_config one_rejection))
     = [(0, -22); (1, 0)].
Proof.
  pose proof (rejected_send_consumes_sequence_number reference_config
                one_rejection (state_after reference_config one_rejection)
                0%nat
                (default stream0
                   (streams (state_after reference_config one_rejection)
                    !! 0%nat)))
    as H.
  destruct H as (_ & _ & H & _);
    [vm_compute; reflexivity | vm_compute; reflexivity |].
  split; [exact H | vm_compute; reflexivity].
Defined.

(** ** C2 *)

(** C2. In the reference scenario (two streams in one subgroup, the sine
    wave as audio, the 16 kHz / 10 ms preset), after the start-up (both
    streams signalled started, three credits seeded for each) 1000 cycles
    in which nothing fails run to their end; then each of the two streams
    has a sent counter of 1000, and the sequence numbers it gave to the
    stack are 0, 1, ..., 999 in this order, all taken, none missing. The
    started callback sets both counters of its stream to zero. *)
Theorem reference_scenario_sends_1000_frames :
  exists s st0 st1,
    run reference_config (startup ++ cycles 1000) (boot reference_config)
    = Some s /\
    streams s = [st0; st1] /\
    sent_cnt st0 = 1000 /\ sent_cnt st1 = 1000 /\
    submitted 0 (trace s) = run_of_frames 1000 /\
    submitted 1 (trace s) = run_of_frames 1000 /\
    submissions 0 (trace s) = run_of_frames 1000 /\
    submissions 1 (trace s) = run_of_frames 1000 /\
    (forall st sem, seq_num (stream_started_cb st sem).1 = 0 /\
                    sent_cnt (stream_started_cb st sem).1 = 0).
Proof.
  do 3 eexists. split; [vm_compute; reflexivity |].
  split; [reflexivity |].
  do 6 (split; [vm_compute; reflexivity |]).
  intros x sem. split; reflexivity.
Qed.

(** ** Encode errors *)

Lemma usb_put_encoder cfg i chans l k st' :
  (usb_put cfg i chans l).1 !! k = Some st' ->
  exists st, l !! k = Some st /\ lc3_encoder st' = lc3_encoder st.
Proof.
  revert i l k; induction chans as [| b chans IH]; intros i [| st l] k;
    simpl; eauto.
  destruct (ring_buf_put (AUDIO_RING_BUF_BYTES cfg) (audio_ring_buf st) b)
    as [n rb].
  specialize (IH (S i) l).
  destruct (usb_put cfg (S i) chans l) as [l' out]; simpl in *.
  destruct k as [| k]; simpl.
  - intros [= <-]. eauto.
  - apply IH.
Qed.

Lemma usb_put_lookup cfg i chans l k st :
  l !! k = Some st ->
  exists st', (usb_put cfg i chans l).1 !! k = Some st' /\
              lc3_encoder st' = lc3_encoder st.
Proof.
  intros Hk.
  assert (Hlt : (k < length (usb_put cfg i chans l).1)%nat).
  { rewrite usb_put_length. apply lookup_lt_Some in Hk. exact Hk. }
  apply lookup_lt_is_Some_2 in Hlt as [st' Hst'].
  exists st'. split; [exact Hst' |].
  apply usb_put_encoder in Hst' as (st2 & Hst2 & Henc). congruence.
Qed.

Lemma encoding_step cfg i enc ev s s' :
  encoding i enc s -> step cfg ev s = Some s' -> encoding i enc s'.
Proof.
  intros (Hm & (k & Hk) & st & Hst & Henc) H.
  destruct ev; unfold step in H.
  - destruct (main_pc s); try discriminate. contradiction.
  - destruct (main_pc s) as [| a | a b | |] eqn:Hpc; try discriminate.
    + destruct (k_sem_take (sem_started s)); [| discriminate].
      destruct (main_at_wait_started cfg (S a)) as [pc out] eqn:Hat.
      injection H as <-. repeat split; simpl; eauto.
      unfold main_at_wait_started, main_at_init_sending in Hat.
      repeat (destruct (_ <? _)%nat); injection Hat as <- <-; discriminate.
    + injection H as <-. repeat split; simpl; eauto.
      unfold main_after_init_sending, main_at_init_sending.
      repeat (destruct (_ <? _)%nat); discriminate.
  - destruct Hk as [Hk | Hk]; rewrite Hk in H; discriminate.
  - destruct (encoder_pc s) as [| | a | a | |] eqn:Hpc; try discriminate.
    destruct (k_sem_take (lc3_encoder_sem s)); [| discriminate].
    injection H as <-. repeat split; simpl; eauto.
    unfold encoder_after_take. destruct (_ <? _)%nat; eauto.
  - destruct (encoder_pc s) as [| | a | a | |] eqn:Hpc; try discriminate.
    destruct (streams s !! a) as [sta |] eqn:Hsta; [| discriminate].
    destruct (tx_pool s); [discriminate |].
    destruct (send_data_spec cfg a env sta (send_pcm_data s))
      as (_ & _ & Henc').
    destruct (send_data cfg a env sta (send_pcm_data s)) as [[st' pcm] out].
    simpl in Henc'. injection H as <-.
    assert (Hnew : exists st2, <[a := st']> (streams s) !! i = Some st2 /\
                               lc3_encoder st2 = Some enc).
    { destruct (decide (a = i)) as [-> | Hne].
      - exists st'. rewrite list_lookup_insert_eq
          by (apply lookup_lt_Some in Hst; exact Hst).
        split; [reflexivity | congruence].
      - exists st. rewrite list_lookup_insert_ne by exact Hne. auto. }
    split; [destruct (accepted out); exact Hm |].
    split; [| destruct (accepted out); exact Hnew].
    unfold encoder_after_send.
    destruct (accepted out), (_ <? _)%nat; simpl; eauto.
  - destruct (streams s !! stream) as [sta |] eqn:Hsta; [| discriminate].
    injection H as <-. repeat split; simpl; eauto.
    destruct (decide (stream = i)) as [-> | Hne].
    + eexists. rewrite list_lookup_insert_eq
        by (apply lookup_lt_Some in Hst; exact Hst).
      split; [reflexivity |]. simpl. congruence.
    + exists st. rewrite list_lookup_insert_ne by exact Hne. auto.
  - destruct (streams s !! stream); [| discriminate].
    injection H as <-. repeat split; simpl; eauto.
  - destruct (iso_queue s !! stream) as [[| q] |]; try discriminate.
    injection H as <-. repeat split; simpl; eauto.
  - destruct (CONFIG_USB_DEVICE_AUDIO cfg); [| discriminate].
    destruct (usb_count s =? INT_MAX); [discriminate |].
    pose proof (usb_put_lookup cfg 0 [left_ch; right_ch] (streams s) i st Hst)
      as (st' & Hst' & Henc').
    destruct (usb_put cfg 0 [left_ch; right_ch] (streams s)) as [l' out].
    injection H as <-. repeat split; simpl; eauto.
    exists st'. split; [exact Hst' | congruence].
Qed.

(** A call of [send_data] is not kept waiting for a buffer. *)
Lemma pool_not_empty cfg s i :
  inv cfg s -> encoder_pc s = encoder_send i -> (0 < tx_pool s)%nat.
Proof.
  intros [Hs Hq Hl Hls Hpool Hcred Hmpc Hepc _ _ _ _ _ _] Hpc.
  rewrite Hpc in *. simpl in *.
  assert (seeded cfg (main_pc s) <= TOTAL_BUF_NEEDED cfg)%nat
    by (destruct (main_pc s); arith).
  lia.
Qed.

(** When [lc3_encode] fails in a call of [send_data] for a stream,
    nothing is handed to the stack in that call, the buffer just
    allocated is released (the pool and the queue of the stack are as
    before), the counters and the encoder of the stream are untouched, and
    the encoder thread goes on with the next iteration of its loop: it
    neither returns nor stops. Whenever the thread later comes to the same
    stream again, the stream still has its encoder, the call is not kept
    waiting for a buffer, and, when [lc3_encode] does not fail, the frame
    is handed to the stack with the stream's sequence number. *)
Lemma encode_error_skips_the_call cfg sched s i st enc env :
  run cfg sched (boot cfg) = Some s ->
  encoder_pc s = encoder_send i ->
  streams s !! i = Some st ->
  lc3_encoder st = Some enc ->
  net_buf_alloc_null env = false ->
  lc3_encode_ret env = -1 ->
  exists s' st',
    step cfg (ev_encoder_send env) s = Some s' /\
    trace s' = trace s
               ++ [NetBufAlloc true;
                   Printk "LC3 encoder failed - wrong parameters?: %d" [-1];
                   NetBufUnref] /\
    tx_pool s' = tx_pool s /\ iso_queue s' = iso_queue s /\
    (encoder_pc s' = encoder_send (S i) \/ encoder_pc s' = encoder_take 0) /\
    streams s' !! i = Some st' /\
    seq_num st' = seq_num st /\ sent_cnt st' = sent_cnt st /\
    lc3_encoder st' = Some enc /\
    forall sched' s2 env2,
      run cfg sched' s' = Some s2 ->
      encoder_pc s2 = encoder_send i ->
      net_buf_alloc_null env2 = false ->
      lc3_encode_ret env2 <> -1 ->
      exists s3 st2,
        streams s2 !! i = Some st2 /\
        lc3_encoder st2 = Some enc /\
        step cfg (ev_encoder_send env2) s2 = Some s3 /\
        In (StreamSend i (seq_num st2) (bt_bap_stream_send_ret env2))
           (trace s3).
Proof.
  intros Hrun Hpc Hst Henc Hnull Herr.
  pose proof (inv_run _ _ _ Hrun) as I.
  pose proof (pool_not_empty cfg s i I Hpc) as Hpool.
  destruct (send_data_spec cfg i env st (send_pcm_data s))
    as (Hw & Hcnt & Henc').
  unfold send_data_writes, send_data_counters in *.
  rewrite Hnull, Henc, Herr in *. simpl in Hw, Hcnt.
  destruct (step cfg (ev_encoder_send env) s) as [s' |] eqn:Hstep.
  2: { unfold step in Hstep. rewrite Hpc, Hst in Hstep.
       destruct (tx_pool s); [lia |].
       destruct (send_data cfg i env st (send_pcm_data s)) as [[? ?] ?].
       discriminate. }
  assert (Henc1 : encoding i enc s).
  { split; [| split; eauto].
    destruct I as [_ _ _ _ _ Hcred _ Hepc _ _ _ _ _ _].
    intros Hentry. rewrite Hpc, Hentry in *. simpl in *. lia. }
  pose proof (encoding_step cfg i enc _ s s' Henc1 Hstep) as Henc2.
  pose proof Hstep as Hstep'.
  unfold step in Hstep'. rewrite Hpc, Hst in Hstep'.
  destruct (tx_pool s) as [| pool] eqn:Htx; [lia |].
  destruct (send_data cfg i env st (send_pcm_data s)) as [[st' pcm] out].
  simpl in Hw, Hcnt, Henc'. subst out. simpl in Hstep'.
  injection Hstep' as <-. injection Hcnt as Hseq Hsent.
  exists (with_encoder (encoder_after_send cfg i)
            [NetBufAlloc true;
             Printk "LC3 encoder failed - wrong parameters?: %d" [-1];
             NetBufUnref]
            (with_streams (<[i := st']> (streams s)) pcm s)), st'.
  split; [reflexivity |]. simpl.
  repeat split; auto; try congruence.
  - unfold encoder_after_send. destruct (_ <? _)%nat; auto.
  - apply list_lookup_insert_eq. apply lookup_lt_Some in Hst. exact Hst.
  - intros sched' s2 env2 Hrun2 Hpc2 Hnull2 Herr2.
    assert (I2 : inv cfg s2).
    { refine (run_invariant cfg (inv cfg) (inv_step cfg) sched' _ s2 _ Hrun2).
      exact (inv_step _ _ _ _ I Hstep). }
    assert (E2 : encoding i enc s2).
    { refine (run_invariant cfg (encoding i enc) _ sched' _ s2 Henc2 Hrun2).
      intros ev a b. apply encoding_step. }
    destruct E2 as (_ & _ & st2 & Hst2 & Henc2').
    pose proof (pool_not_empty cfg s2 i I2 Hpc2) as Hpool2.
    destruct (send_data_spec cfg i env2 st2 (send_pcm_data s2))
      as (Hw2 & _ & _).
    unfold send_data_writes in Hw2. rewrite Hnull2, Henc2' in Hw2.
    destruct (Z.eqb_spec (lc3_encode_ret env2) (-1)); [contradiction |].
    unfold step. rewrite Hpc2, Hst2.
    destruct (tx_pool s2) as [| pool2]; [lia |].
    destruct (send_data cfg i env2 st2 (send_pcm_data s2))
      as [[st3 pcm3] out3].
    simpl in Hw2. eexists _, st2.
    split; [reflexivity |]. split; [exact Henc2' |].
    split; [reflexivity |].
    assert (Hin : In (StreamSend i (seq_num st2) (bt_bap_stream_send_ret env2))
                     out3).
    { rewrite Hw2. destruct (_ <? 0); simpl; auto. }
    destruct (accepted out3); simpl; apply in_or_app; right; exact Hin.
Qed.

(** At a run of the reference scenario in which [lc3_encode] fails for
    stream 0 in the first cycle: in the second cycle the frame of stream 0
    is sent with sequence number 0. *)
Lemma encode_error_then_sent :
  exists s3,
    step reference_config (ev_encoder_send send_ok)
         (state_after reference_config one_encode_error) = Some s3 /\
    In (StreamSend 0 0 0) (trace s3).
Proof.
  pose proof (encode_error_skips_the_call reference_config
                (startup ++ [ev_encoder_take; ev_encoder_take])
                (state_after reference_config
                   (startup ++ [ev_encoder_take; ev_encoder_take]))
                0%nat
                {| seq_num := 0; sent_cnt := 0;
                   lc3_encoder := Some {| dt_us := 10000; sr_hz := 16000 |};
                   audio_ring_buf := [] |}
                {| dt_us := 10000; sr_hz := 16000 |}
                send_encode_error)
    as H.
  destruct H as (s' & st' & Hstep & _ & _ & _ & _ & _ & _ & _ & _ & Hnext);
    try (vm_compute; reflexivity).
  destruct (Hnext [ev_encoder_send send_ok; ev_sent 1;
                   ev_encoder_take; ev_encoder_take]
                  (state_after reference_config one_encode_error)
                  send_ok)
    as (s3 & st2 & Hst2 & _ & Hstep3 & Hin).
  - vm_compute in Hstep. injection Hstep as <-. vm_compute. reflexivity.
  - reflexivity.
  - reflexivity.
  - simpl. lia.
  - exists s3. split; [exact Hstep3 |].
    vm_compute in Hst2. injection Hst2 as <-. exact Hin.
Defined.

(** ** C4 and C8 *)

Lemma stalled_step k calls sends ev s s' :
  stalled k calls sends s -> step reference_config ev s = Some s' ->
  stalled k calls sends s'.
Proof.
  intros (Hm & He & Hc & Hq & Hcalls & Hsends) H.
  destruct ev; unfold step in H; rewrite ?Hm, ?He in H; try discriminate.
  - unfold k_sem_take in H. rewrite Hc in H. discriminate.
  - destruct (streams s !! stream); [| discriminate].
    injection H as <-. repeat split; simpl; auto;
      rewrite count_if_app; simpl; lia.
  - destruct (streams s !! stream); [| discriminate].
    injection H as <-. repeat split; simpl; auto;
      rewrite count_if_app; simpl; lia.
  - rewrite Hq in H. destruct stream as [| [| stream]]; discriminate.
Qed.

Lemma stalled_run k calls sends sched s s' :
  stalled k calls sends s -> run reference_config sched s = Some s' ->
  stalled k calls sends s'.
Proof.
  intros Hs Hrun.
  refine (run_invariant reference_config (stalled k calls sends) _
            sched s s' Hs Hrun).
  intros ev a b. apply stalled_step.
Qed.

(** C4 at its failing input: the reference scenario in which the stack
    rejects every buffer of stream 1. The stream is not excluded:
    [send_data] is called for it in each of the five cycles that follow,
    with the sequence numbers 0 to 4. Each rejected buffer costs a credit
    that no sent notification returns, so after five cycles one credit is
    left where a cycle takes two: the encoder thread waits in
    [k_sem_take] and, whatever happens from then on, [send_data] is not
    called again: stream 0 sends nothing beyond its five frames. *)
Theorem rejected_stream_is_retried_and_stalls_the_others :
  exists s,
    run reference_config stream_1_rejected (boot reference_config) = Some s /\
    submitted 1 (trace s)
    = [(0, -22); (1, -22); (2, -22); (3, -22); (4, -22)] /\
    submitted 0 (trace s) = [(0, 0); (1, 0); (2, 0); (3, 0); (4, 0)] /\
    stalled 1 10 10 s /\
    forall sched' s',
      run reference_config sched' s = Some s' -> stalled 1 10 10 s'.
Proof.
  eexists. split; [vm_compute; reflexivity |].
  do 2 (split; [vm_compute; reflexivity |]).
  assert (Hst : stalled 1 10 10
                  (state_after reference_config stream_1_rejected))
    by (repeat split; vm_compute; reflexivity).
  split; [exact Hst |].
  intros sched' s'. apply stalled_run. exact Hst.
Qed.

(** C8 at its failing input: the reference scenario in which [lc3_encode]
    fails in every call. Each failed call releases its buffer and sends
    nothing, and the thread goes on; but the credit taken for the call is
    not returned, so after three cycles (six calls of [send_data]) the
    semaphore is empty: the encoder thread waits in [k_sem_take] and,
    whatever happens from then on, no stream is attempted again. *)
Theorem encode_errors_stall_the_encoder_thread :
  exists s,
    run reference_config all_encode_errors (boot reference_config)
    = Some s /\
    count_if is_took_credit (trace s) = 6%nat /\
    count_if (is_message "LC3 encoder failed - wrong parameters?: %d")
             (trace s) = 6%nat /\
    tx_pool s = TOTAL_BUF_NEEDED reference_config /\
    stalled 0 6 0 s /\
    forall sched' s',
      run reference_config sched' s = Some s' -> stalled 0 6 0 s'.
Proof.
  eexists. split; [vm_compute; reflexivity |].
  do 3 (split; [vm_compute; reflexivity |]).
  assert (Hst : stalled 0 6 0
                  (state_after reference_config all_encode_errors))
    by (repeat split; vm_compute; reflexivity).
  split; [exact Hst |].
  intros sched' s'. apply stalled_run. exact Hst.
Qed.

(** ** C6 *)

Lemma thread_order_boot cfg : thread_order (boot cfg).
Proof. split; reflexivity. Qed.

Lemma thread_order_step cfg ev s s' :
  thread_order s -> step cfg ev s = Some s' -> thread_order s'.
Proof.
  intros [O1 O2] H.
  destruct (step_effects _ _ _ _ H) as (out & Htr & Hev).
  assert (Hquiet : forall q, forallb is_printk q = true ->
                             count_if is_cycle q = 0%nat).
  { intros q Hq. apply (count_if_forallb is_printk); [| exact Hq].
    intros e He. unfold is_cycle. destruct e; simpl in *; congruence. }
  destruct ev; unfold step in H.
  - destruct (main_pc s) eqn:Hpc; try discriminate. injection H as <-.
    destruct (main_setup_spec cfg env s)
      as (out' & pc & Hout & Htr' & Hmpc & Hcases & Henc & _).
    specialize (O1 eq_refl).
    split.
    + rewrite Hmpc. intros Hentry.
      destruct Hcases as [[code ->] | ->]; [discriminate |].
      unfold main_at_wait_started, main_at_init_sending in Hentry.
      repeat (destruct (_ <? _)%nat; simpl in Hentry); discriminate.
    + intros _. rewrite Htr', count_if_app, (Hquiet _ Hout), O2;
        [reflexivity | rewrite O1; reflexivity].
  - destruct Hev as [(i & out' & Hpc & -> & Hout) | (i & j & Hpc & ->)];
      rewrite Hpc in H.
    + destruct (k_sem_take (sem_started s)); [| discriminate].
      destruct (main_at_wait_started cfg (S i)) as [pc o] eqn:Hat.
      injection H as <-. simpl in Htr. apply app_inv_head in Htr.
      injection Htr as <-.
      split; simpl.
      * intros Hentry. rewrite Hentry in Hat.
        unfold main_at_wait_started, main_at_init_sending in Hat.
        repeat (destruct (_ <? _)%nat; simpl in Hat); discriminate.
      * intros Hidle.
        rewrite count_if_app. simpl. rewrite (Hquiet _ Hout), (O2 Hidle).
        reflexivity.
    + injection H as <-. split; simpl.
      * unfold main_after_init_sending, main_at_init_sending.
        repeat (destruct (_ <? _)%nat); discriminate.
      * intros Hidle. rewrite count_if_app, (O2 Hidle). reflexivity.
  - destruct (encoder_pc s) eqn:Hpc; try discriminate. injection H as <-.
    split; simpl.
    + intros Hentry. specialize (O1 Hentry). congruence.
    + intros _. rewrite count_if_app, O2 by reflexivity.
      rewrite (Hquiet _ (init_lc3_thread_printk _ _ _ _ _)). reflexivity.
  - destruct (encoder_pc s) as [| | i | | |] eqn:Hpc; try discriminate.
    destruct (k_sem_take (lc3_encoder_sem s)); [| discriminate].
    injection H as <-. split; simpl.
    + intros Hentry. specialize (O1 Hentry). congruence.
    + unfold encoder_after_take. destruct (_ <? _)%nat; discriminate.
  - destruct (encoder_pc s) as [| | | i | |] eqn:Hpc; try discriminate.
    destruct (streams s !! i); [| discriminate].
    destruct (tx_pool s); [discriminate |].
    destruct (send_data cfg i env _ (send_pcm_data s)) as [[st' pcm] o].
    injection H as <-.
    assert (Hnot : outside_loop (encoder_after_send cfg i) = false)
      by (unfold encoder_after_send; destruct (_ <? _)%nat; reflexivity).
    destruct (accepted o); (split; simpl;
      [intros Hentry; specialize (O1 Hentry); congruence
      | rewrite Hnot; discriminate]).
  - destruct (streams s !! stream); [| discriminate].
    destruct (stream_started_cb _ _). injection H as <-.
    split; simpl; [exact O1 |]. intros Hidle.
    rewrite count_if_app, (O2 Hidle). reflexivity.
  - destruct (streams s !! stream); [| discriminate].
    injection H as <-.
    split; simpl; [exact O1 |]. intros Hidle.
    rewrite count_if_app, (O2 Hidle). reflexivity.
  - destruct (iso_queue s !! stream) as [[| q] |]; try discriminate.
    injection H as <-.
    split; simpl; [exact O1 |]. intros Hidle.
    rewrite count_if_app, (O2 Hidle). reflexivity.
  - destruct (CONFIG_USB_DEVICE_AUDIO cfg); [| discriminate].
    destruct (usb_count s =? INT_MAX); [discriminate |].
    pose proof (usb_put_printk cfg 0 [left_ch; right_ch] (streams s)) as Hp.
    destruct (usb_put cfg 0 [left_ch; right_ch] (streams s)) as [l' o].
    injection H as <-. simpl in Hp.
    split; simpl; [exact O1 |]. intros Hidle.
    rewrite !count_if_app, (O2 Hidle), (Hquiet _ Hp).
    destruct (_ =? 0); reflexivity.
Qed.

Lemma thread_order_run cfg sched s :
  run cfg sched (boot cfg) = Some s -> thread_order s.
Proof.
  apply (run_invariant cfg thread_order (thread_order_step cfg)),
    thread_order_boot.
Qed.

(** Once the encoder thread has returned from [init_lc3_thread] it stays
    returned. *)
Lemma returned_stays cfg ev s s' :
  thread_order s -> encoder_pc s = encoder_returned ->
  step cfg ev s = Some s' -> encoder_pc s' = encoder_returned.
Proof.
  intros [O1 _] Hpc H. destruct ev; unfold step in H; rewrite ?Hpc in H;
    try discriminate.
  - destruct (main_pc s) eqn:Hm; try discriminate.
    specialize (O1 eq_refl). congruence.
  - destruct (main_pc s); try discriminate.
    + destruct (k_sem_take (sem_started s)); [| discriminate].
      destruct (main_at_wait_started cfg _). injection H as <-. exact Hpc.
    + injection H as <-. exact Hpc.
  - destruct (streams s !! stream); [| discriminate].
    destruct (stream_started_cb _ _). injection H as <-. exact Hpc.
  - destruct (streams s !! stream); [| discriminate].
    injection H as <-. exact Hpc.
  - destruct (iso_queue s !! stream) as [[| q] |]; try discriminate.
    injection H as <-. exact Hpc.
  - destruct (CONFIG_USB_DEVICE_AUDIO cfg); [| discriminate].
    destruct (usb_count s =? INT_MAX); [discriminate |].
    destruct (usb_put cfg 0 _ (streams s)). injection H as <-. exact Hpc.
Qed.

(** From any point of the seeding loop [main] gets to its final sleep. *)
Lemma main_seeds_credits cfg (d : nat) : forall i j s,
  main_pc s = main_init_sending i j ->
  (i < stream_count cfg)%nat -> (j < BROADCAST_ENQUEUE_COUNT)%nat ->
  (BROADCAST_ENQUEUE_COUNT * i + j + S d = TOTAL_BUF_NEEDED cfg)%nat ->
  exists s', run cfg (replicate (S d) ev_main) s = Some s' /\
             main_pc s' = main_sleep.
Proof.
  unfold TOTAL_BUF_NEEDED, BROADCAST_ENQUEUE_COUNT.
  fold (stream_count cfg).
  induction d as [| d IH]; intros i j s Hpc Hi Hj Hd.
  - simpl. rewrite Hpc. eexists. split; [reflexivity |]. simpl.
    unfold main_after_init_sending, main_at_init_sending,
      BROADCAST_ENQUEUE_COUNT.
    destruct (Nat.ltb_spec (S j) 3); [lia |].
    destruct (Nat.ltb_spec (S i) (stream_count cfg)); [lia | reflexivity].
  - change (replicate (S (S d)) ev_main)
      with (ev_main :: replicate (S d) ev_main).
    cbn [run]. unfold step at 1. rewrite Hpc.
    unfold main_after_init_sending, main_at_init_sending,
      BROADCAST_ENQUEUE_COUNT.
    destruct (Nat.ltb_spec (S j) 3).
    + apply (IH i (S j)); simpl; try reflexivity; lia.
    + destruct (Nat.ltb_spec (S i) (stream_count cfg)); [| lia].
      apply (IH (S i) 0%nat); simpl; try reflexivity; lia.
Qed.

Lemma setup_encoders_spec env g i l :
  (forall k st', (setup_encoders env g i l).1 !! k = Some st' ->
                 lc3_encoder st'
                 = lc3_setup_encoder env (i + k) (frame_duration_us g)
                                     (freq_hz g)) /\
  count_if (is_message "ERROR: Failed to setup LC3 encoder - wrong parameters?")
           (setup_encoders env g i l).2
  = failed_setups env g i (length l).
Proof.
  revert i; induction l as [| st l IH]; intros i; simpl.
  - split; [intros k st' H; destruct k; discriminate | reflexivity].
  - destruct (IH (S i)) as [IH1 IH2].
    destruct (setup_encoders env g (S i) l) as [l' out]; simpl in *.
    split.
    + intros [| k] st' H; simpl in H.
      * injection H as <-. simpl. rewrite Nat.add_0_r. reflexivity.
      * rewrite (IH1 k st' H). f_equal. lia.
    + destruct (lc3_setup_encoder env i _ _); simpl; rewrite IH2;
        reflexivity.
Qed.

(** C6, as the code has it. When the frame duration or the octets per
    frame cannot be resolved (the getter fails, or the conversion of the
    duration), [init_lc3_thread] reports it once and returns before any
    encoder is set up, and so it does, whatever it reports, when the
    frequency cannot be resolved (with one report when it is the
    conversion that fails). When the parameters are resolved the thread
    enters its loop; each stream gets what [lc3_setup_encoder] returned
    for it, a failure is reported once per failed stream and does not end
    the thread. From then on every call of [send_data] for a stream
    without encoder reports that the encoder is not set up, releases its
    buffer and sends nothing.

    A return of [init_lc3_thread] before its loop ends the encoder
    thread, in every execution and for good: whatever happens next, the
    thread stays returned, and no credit is ever taken, [send_data] never
    called and nothing ever sent. That is all it ends: [main] is where it
    was, takes the same way with or without the thread, and, once the
    streams have signalled started, gets through its wait for them and
    seeds all the credits. *)
Theorem codec_setup_errors_end_or_degrade_the_encoder_thread
    cfg env g l pcm :
  (0 < bt_audio_codec_cfg_get_freq env ->
   bt_audio_codec_cfg_get_frame_dur env <= 0 ->
   init_enters_loop (init_lc3_thread cfg env g l pcm) = false /\
   init_streams (init_lc3_thread cfg env g l pcm) = l /\
   init_out (init_lc3_thread cfg env g l pcm)
   = [Printk "Error: Frame duration not set, cannot start codec." []]) /\
  (0 < bt_audio_codec_cfg_get_freq env ->
   0 < bt_audio_codec_cfg_get_frame_dur env ->
   0 <= bt_audio_codec_cfg_freq_to_freq_hz env
          (bt_audio_codec_cfg_get_freq env) ->
   0 <= bt_audio_codec_cfg_frame_dur_to_frame_dur_us env
          (bt_audio_codec_cfg_get_frame_dur env) ->
   bt_audio_codec_cfg_get_octets_per_frame env < 0 ->
   init_enters_loop (init_lc3_thread cfg env g l pcm) = false /\
   init_streams (init_lc3_thread cfg env g l pcm) = l /\
   init_out (init_lc3_thread cfg env g l pcm)
   = [Printk "Error: Octets per frame not set, cannot start codec." []]) /\
  (0 < bt_audio_codec_cfg_get_freq env ->
   0 < bt_audio_codec_cfg_get_frame_dur env ->
   0 <= bt_audio_codec_cfg_freq_to_freq_hz env
          (bt_audio_codec_cfg_get_freq env) ->
   bt_audio_codec_cfg_frame_dur_to_frame_dur_us env
     (bt_audio_codec_cfg_get_frame_dur env) < 0 ->
   init_enters_loop (init_lc3_thread cfg env g l pcm) = false /\
   init_streams (init_lc3_thread cfg env g l pcm) = l /\
   init_out (init_lc3_thread cfg env g l pcm)
   = [Printk "Error: Frame duration not set, cannot start codec." []]) /\
  (0 < bt_audio_codec_cfg_get_freq env ->
   0 < bt_audio_codec_cfg_get_frame_dur env ->
   bt_audio_codec_cfg_freq_to_freq_hz env
     (bt_audio_codec_cfg_get_freq env) < 0 ->
   init_enters_loop (init_lc3_thread cfg env g l pcm) = false /\
   init_streams (init_lc3_thread cfg env g l pcm) = l /\
   init_out (init_lc3_thread cfg env g l pcm)
   = [Printk "Error: Codec frequency not set, cannot start codec." []]) /\
  (bt_audio_codec_cfg_get_freq env <= 0 ->
   init_enters_loop (init_lc3_thread cfg env g l pcm) = false /\
   init_streams (init_lc3_thread cfg env g l pcm) = l) /\
  (0 < bt_audio_codec_cfg_get_freq env ->
   0 < bt_audio_codec_cfg_get_frame_dur env ->
   0 <= bt_audio_codec_cfg_freq_to_freq_hz env
          (bt_audio_codec_cfg_get_freq env) ->
   0 <= bt_audio_codec_cfg_frame_dur_to_frame_dur_us env
          (bt_audio_codec_cfg_get_frame_dur env) ->
   0 <= bt_audio_codec_cfg_get_octets_per_frame env ->
   init_enters_loop (init_lc3_thread cfg env g l pcm) = true /\
   (forall k st',
       init_streams (init_lc3_thread cfg env g l pcm) !! k = Some st' ->
       lc3_encoder st'
       = lc3_setup_encoder env k
           (frame_duration_us (init_globals (init_lc3_thread cfg env g l pcm)))
           (freq_hz (init_globals (init_lc3_thread cfg env g l pcm)))) /\
   count_if (is_message "ERROR: Failed to setup LC3 encoder - wrong parameters?")
            (init_out (init_lc3_thread cfg env g l pcm))
   = failed_setups env (init_globals (init_lc3_thread cfg env g l pcm))
                   0 (length l)) /\
  (forall s s', step cfg (ev_encoder_setup env) s = Some s' ->
                main_pc s' = main_pc s /\
                sem_started s' = sem_started s /\
                lc3_encoder_sem s' = lc3_encoder_sem s) /\
  (forall menv s1 s2,
      main_pc (main_setup cfg menv s1) = main_pc (main_setup cfg menv s2)) /\
  (forall i senv st pcm',
      net_buf_alloc_null senv = false ->
      lc3_encoder st = None ->
      send_data cfg i senv st pcm'
      = (st, pcm',
         [NetBufAlloc true;
          Printk "LC3 encoder not setup, cannot encode data." [];
          NetBufUnref])) /\
  (forall sched s,
      run cfg sched (boot cfg) = Some s ->
      encoder_pc s = encoder_entry ->
      init_enters_loop
        (init_lc3_thread cfg env (globals s) (streams s) (send_pcm_data s))
      = false ->
      exists s1,
        step cfg (ev_encoder_setup env) s = Some s1 /\
        encoder_pc s1 = encoder_returned /\
        main_pc s1 = main_pc s /\
        (forall sched' s',
            run cfg sched' s1 = Some s' ->
            encoder_pc s' = encoder_returned /\
            count_if is_took_credit (trace s') = 0%nat /\
            count_if is_send_data (trace s') = 0%nat /\
            count_if is_stream_send (trace s') = 0%nat) /\
        (forall k,
            main_pc s1 = main_wait_started k ->
            (stream_count cfg <= count_if is_started (trace s1))%nat ->
            exists s',
              run cfg (replicate (stream_count cfg - k + TOTAL_BUF_NEEDED cfg)
                                 ev_main) s1 = Some s' /\
              main_pc s' = main_sleep)).
Proof.
  split; [| split; [| split; [| split; [| split; [| split; [| split;
    [| split; [| split]]]]]]]].
  - intros Hf Hd. unfold init_lc3_thread.
    destruct (Z.ltb_spec 0 (bt_audio_codec_cfg_get_freq env)); [| lia].
    destruct (Z.ltb_spec 0 (bt_audio_codec_cfg_get_frame_dur env)); [lia |].
    auto.
  - intros Hf Hd Hhz Hus Ho. unfold init_lc3_thread.
    destruct (Z.ltb_spec 0 (bt_audio_codec_cfg_get_freq env)); [| lia].
    destruct (Z.ltb_spec 0 (bt_audio_codec_cfg_get_frame_dur env)); [| lia].
    simpl.
    destruct (Z.ltb_spec (bt_audio_codec_cfg_freq_to_freq_hz env
                            (bt_audio_codec_cfg_get_freq env)) 0); [lia |].
    destruct (Z.ltb_spec (bt_audio_codec_cfg_frame_dur_to_frame_dur_us env
                            (bt_audio_codec_cfg_get_frame_dur env)) 0);
      [lia |].
    destruct (Z.ltb_spec (bt_audio_codec_cfg_get_octets_per_frame env) 0);
      [| lia].
    auto.
  - intros Hf Hd Hhz Hus. unfold init_lc3_thread.
    destruct (Z.ltb_spec 0 (bt_audio_codec_cfg_get_freq env)); [| lia].
    destruct (Z.ltb_spec 0 (bt_audio_codec_cfg_get_frame_dur env)); [| lia].
    simpl.
    destruct (Z.ltb_spec (bt_audio_codec_cfg_freq_to_freq_hz env
                            (bt_audio_codec_cfg_get_freq env)) 0); [lia |].
    destruct (Z.ltb_spec (bt_audio_codec_cfg_frame_dur_to_frame_dur_us env
                            (bt_audio_codec_cfg_get_frame_dur env)) 0);
      [| lia].
    auto.
  - intros Hf Hd Hhz. unfold init_lc3_thread.
    destruct (Z.ltb_spec 0 (bt_audio_codec_cfg_get_freq env)); [| lia].
    destruct (Z.ltb_spec 0 (bt_audio_codec_cfg_get_frame_dur env)); [| lia].
    simpl.
    destruct (Z.ltb_spec (bt_audio_codec_cfg_freq_to_freq_hz env
                            (bt_audio_codec_cfg_get_freq env)) 0); [| lia].
    auto.
  - intros Hf. unfold init_lc3_thread.
    destruct (Z.ltb_spec 0 (bt_audio_codec_cfg_get_freq env)); [lia |].
    auto.
  - intros Hf Hd Hhz Hus Ho. unfold init_lc3_thread.
    destruct (Z.ltb_spec 0 (bt_audio_codec_cfg_get_freq env)); [| lia].
    destruct (Z.ltb_spec 0 (bt_audio_codec_cfg_get_frame_dur env)); [| lia].
    simpl.
    destruct (Z.ltb_spec (bt_audio_codec_cfg_freq_to_freq_hz env
                            (bt_audio_codec_cfg_get_freq env)) 0); [lia |].
    destruct (Z.ltb_spec (bt_audio_codec_cfg_frame_dur_to_frame_dur_us env
                            (bt_audio_codec_cfg_get_frame_dur env)) 0);
      [lia |].
    destruct (Z.ltb_spec (bt_audio_codec_cfg_get_octets_per_frame env) 0);
      [lia |].
    match goal with
    | |- context [setup_encoders ?e ?g0 0 l] =>
        destruct (setup_encoders_spec e g0 0 l) as [H4 H5];
        destruct (setup_encoders e g0 0 l) as [l' out]
    end.
    simpl in *. auto.
  - intros s s' H. unfold step in H.
    destruct (encoder_pc s); try discriminate.
    injection H as <-. auto.
  - intros menv s1 s2. unfold main_setup.
    destruct (main_before_thread cfg menv) as [o1 [c1 | []]]; simpl;
      [reflexivity |].
    destruct (main_after_thread cfg menv) as [o2 [c2 | []]]; simpl;
      [reflexivity |].
    destruct (main_at_wait_started cfg 0). reflexivity.
  - intros i senv st pcm' Hnull Henc. unfold send_data.
    rewrite Hnull, Henc. reflexivity.
  - intros sched s Hrun Hpc Hinit.
    pose proof (thread_order_run _ _ _ Hrun) as O.
    pose proof (inv_run _ _ _ Hrun) as I.
    assert (Hstep : exists s1,
               step cfg (ev_encoder_setup env) s = Some s1 /\
               encoder_pc s1 = encoder_returned /\
               main_pc s1 = main_pc s).
    { unfold step. rewrite Hpc, Hinit. eexists. repeat split. }
    destruct Hstep as (s1 & Hstep & Hpc1 & Hmain1).
    pose proof (thread_order_step _ _ _ _ O Hstep) as O1.
    pose proof (inv_step _ _ _ _ I Hstep) as I1.
    exists s1. split; [exact Hstep |]. split; [exact Hpc1 |].
    split; [exact Hmain1 |]. split.
    + intros sched' s' Hrun'.
      assert (H : thread_order s' /\ encoder_pc s' = encoder_returned).
      { refine (run_invariant cfg
                  (fun x => thread_order x /\ encoder_pc x = encoder_returned)
                  _ sched' s1 s' _ Hrun'); [| split; assumption].
        intros ev a b [Oa Ha] Hab.
        split; [exact (thread_order_step _ _ _ _ Oa Hab)
               | exact (returned_stays _ _ _ _ Oa Ha Hab)]. }
      destruct H as [[_ O2] Hret]. split; [exact Hret |].
      rewrite Hret in O2. specialize (O2 eq_refl).
      clear - O2. induction (trace s') as [| e t IH]; [auto |].
      simpl in O2. unfold is_cycle in O2 at 1.
      destruct e; simpl in *; try discriminate; auto.
    + intros k Hk Hn.
      pose proof (inv_main_pc _ _ I1) as Hmpc.
      pose proof (inv_started_ge _ _ I1) as Hge.
      rewrite Hk in Hmpc, Hge. simpl in Hge.
      destruct (main_passes_barrier cfg (stream_count cfg - k - 1) k s1 Hk)
        as (s2 & Hrun2 & Hpc2); [lia | lia |].
      destruct (main_seeds_credits cfg (TOTAL_BUF_NEEDED cfg - 1) 0 0 s2 Hpc2)
        as (s3 & Hrun3 & Hpc3);
        [lia | unfold BROADCAST_ENQUEUE_COUNT; lia
        | unfold TOTAL_BUF_NEEDED, BROADCAST_ENQUEUE_COUNT;
          fold (stream_count cfg); lia |].
      exists s3. split; [| exact Hpc3].
      replace (stream_count cfg - k)%nat
        with (S (stream_count cfg - k - 1)) by lia.
      rewrite replicate_add, run_app, Hrun2.
      replace (TOTAL_BUF_NEEDED cfg)
        with (S (TOTAL_BUF_NEEDED cfg - 1)) at 1; [exact Hrun3 |].
      unfold TOTAL_BUF_NEEDED, BROADCAST_ENQUEUE_COUNT.
      fold (stream_count cfg). lia.
Qed.

(** The theorem at a codec configuration without frame duration, with
    which the encoder thread is set up after the start-up of [main]. *)
Lemma codec_setup_errors_witness :
  (init_enters_loop
     (init_lc3_thread reference_config codec_no_frame_dur
        (globals (boot reference_config)) (streams (boot reference_config))
        (send_pcm_data (boot reference_config))) = false
   /\ init_out
        (init_lc3_thread reference_config codec_no_frame_dur
           (globals (boot reference_config)) (streams (boot reference_config))
           (send_pcm_data (boot reference_config)))
      = [Printk "Error: Frame duration not set, cannot start codec." []])
  /\ exists s1,
       step reference_config (ev_encoder_setup codec_no_frame_dur)
            (state_after reference_config [ev_main_setup main_ok]) = Some s1
       /\ encoder_pc s1 = encoder_returned.
Proof.
  pose proof (codec_setup_errors_end_or_degrade_the_encoder_thread
                reference_config codec_no_frame_dur
                (globals (boot reference_config))
                (streams (boot reference_config))
                (send_pcm_data (boot reference_config)))
    as (H & _ & _ & _ & _ & _ & _ & _ & _ & H9).
  split.
  - destruct H as (H1 & _ & H2);
      [vm_compute; reflexivity | vm_compute; discriminate |].
    split; assumption.
  - destruct (H9 [ev_main_setup main_ok]
                 (state_after reference_config [ev_main_setup main_ok]))
      as (s1 & Hstep & Hpc & _);
      [vm_compute; reflexivity | reflexivity | vm_compute; reflexivity |].
    exists s1. split; assumption.
Defined.

(** C6 as stated fails. Without a frequency in the codec configuration
    the encoder thread returns without a word, and without a frame
    duration after its one message; in both cases [main] starts the
    broadcast all the same, waits for the streams and seeds the credits.
    And when [lc3_setup_encoder] fails for stream 0, the thread enters its
    loop, and in each cycle of the running broadcast [send_data] reports
    that the encoder is not set up. *)
Lemma codec_setup_errors_do_not_abort_startup :
  (exists s,
      run reference_config (startup_with codec_no_freq)
          (boot reference_config) = Some s /\
      main_pc s = main_sleep /\ encoder_pc s = encoder_returned /\
      trace s
      = [Printk "Bluetooth initialized" [];
         Printk "Creating broadcast source" [];
         Printk "Creating broadcast source with %zu subgroups with %zu streams"
                [1; 2];
         Printk "Starting broadcast source" [];
         Started 1; Started 0; TookStarted; TookStarted;
         Printk "Broadcast source started" [];
         Seeded 0; Seeded 0; Seeded 0; Seeded 1; Seeded 1; Seeded 1]) /\
  (exists s,
      run reference_config (startup_with codec_no_frame_dur)
          (boot reference_config) = Some s /\
      main_pc s = main_sleep /\ encoder_pc s = encoder_returned /\
      In (Printk "Broadcast source started" []) (trace s)) /\
  (exists s,
      run reference_config encoder_0_missing (boot reference_config)
      = Some s /\
      main_pc s = main_sleep /\ encoder_pc s = encoder_take 0 /\
      trace s
      = [Printk "Bluetooth initialized" [];
         Printk "Creating broadcast source" [];
         Printk "Creating broadcast source with %zu subgroups with %zu streams"
                [1; 2];
         Printk "Starting broadcast source" [];
         Printk "Initializing lc3 encoder for stream %zu" [0];
         Printk "ERROR: Failed to setup LC3 encoder - wrong parameters?" [];
         Printk "Initializing lc3 encoder for stream %zu" [1];
         Started 1; Started 0; TookStarted; TookStarted;
         Printk "Broadcast source started" [];
         Seeded 0; Seeded 0; Seeded 0; Seeded 1; Seeded 1; Seeded 1;
         TookCredit; TookCredit;
         NetBufAlloc true;
         Printk "LC3 encoder not setup, cannot encode data." [];
         NetBufUnref;
         NetBufAlloc true; StreamSend 1 0 0;
         Sent 1;
         TookCredit; TookCredit;
         NetBufAlloc true;
         Printk "LC3 encoder not setup, cannot encode data." [];
         NetBufUnref;
         NetBufAlloc true; StreamSend 1 1 0;
         Sent 1]).
Proof.
  split; [| split]; eexists; (split; [vm_compute; reflexivity |]);
    repeat split; try (vm_compute; reflexivity).
  vm_compute. tauto.
Qed.

(** ** C7: the theorem at a ring of three bytes *)

Lemma capture_shortfall_witness :
  (send_data usb_config 0 send_ok short_ring_stream
             (replicate (sizeof_send_pcm_data usb_config) 7)).1.2
  = [1; 2; 3] ++ replicate 317 0.
Proof.
  pose proof (capture_shortfall_zero_filled usb_config 0%nat send_ok
                short_ring_stream
                (replicate (sizeof_send_pcm_data usb_config) 7)
                {| dt_us := 10000; sr_hz := 16000 |})
    as H.
  destruct H as (H & _);
    [reflexivity | reflexivity | reflexivity | reflexivity
    | vm_compute; lia | exact H].
Defined.

(** C7 as stated fails: [send_data], called with three bytes in the ring
    where 320 are needed, allocates a buffer and sends the frame; it
    prints nothing and counts nothing. *)
Lemma capture_shortfall_is_not_reported :
  (length (audio_ring_buf short_ring_stream)
   < sizeof_send_pcm_data usb_config)%nat /\
  (send_data usb_config 0 send_ok short_ring_stream
             (replicate (sizeof_send_pcm_data usb_config) 7)).2
  = [NetBufAlloc true; StreamSend 0 0 0] /\
  count_if is_printk
           (send_data usb_config 0 send_ok short_ring_stream
              (replicate (sizeof_send_pcm_data usb_config) 7)).2 = 0%nat.
Proof.
  split; [vm_compute; lia |]. split; vm_compute; reflexivity.
Qed.

(** ** Any number of cycles *)

Lemma frames_S n :
  frames (S n) = frames n ++ [(Z.of_nat n mod (UINT16_MAX + 1), 0)].
Proof. unfold frames. rewrite seq_S, map_app. reflexivity. Qed.

(** One cycle of the reference scenario in which nothing fails, from the
    state between two cycles. *)
Lemma cycle_from (a b : Z) e0 e1 r0 r1 pcm g ss sp uc tr :
  run reference_config cycle
    {| streams := [stream_with a b e0 r0; stream_with a b e1 r1];
       send_pcm_data := pcm; globals := g;
       sem_started := ss; sem_stopped := sp;
       lc3_encoder_sem := {| count := 6; limit := 6 |};
       tx_pool := 6; iso_queue := [0%nat; 0%nat]; usb_count := uc;
       main_pc := main_sleep; encoder_pc := encoder_take 0; trace := tr |}
  = Some
      {| streams :=
           [stream_with ((a + 1) mod (UINT16_MAX + 1))
                        ((b + 1) mod (SIZE_MAX + 1)) e0 r0;
            stream_with ((a + 1) mod (UINT16_MAX + 1))
                        ((b + 1) mod (SIZE_MAX + 1)) e1 r1];
         send_pcm_data := pcm; globals := g;
         sem_started := ss; sem_stopped := sp;
         lc3_encoder_sem := {| count := 6; limit := 6 |};
         tx_pool := 6; iso_queue := [0%nat; 0%nat]; usb_count := uc;
         main_pc := main_sleep; encoder_pc := encoder_take 0;
         trace :=
           (((((tr ++ [TookCredit]) ++ [TookCredit])
              ++ [NetBufAlloc true; StreamSend 0 a 0]
                 ++ total_message 0 ((b + 1) mod (SIZE_MAX + 1)))
             ++ [NetBufAlloc true; StreamSend 1 a 0]
                ++ total_message 1 ((b + 1) mod (SIZE_MAX + 1)))
            ++ [Sent 0]) ++ [Sent 1] |}.
Proof. reflexivity. Qed.

Lemma since_started_total_message i k cnt acc :
  since_started i (total_message k cnt) acc = acc.
Proof. unfold total_message. destruct (_ =? 0); reflexivity. Qed.

Lemma one_more_cycle n s :
  between_cycles n s ->
  exists s', run reference_config cycle s = Some s' /\
             between_cycles (S n) s'.
Proof.
  intros (Hm & He & Hsem & Hpool & Hq & (e0 & e1 & r0 & r1 & Hst) & H0 & H1).
  destruct s as [sts pcm g ss sp ls pool q uc mpc epc tr].
  cbn [main_pc encoder_pc lc3_encoder_sem tx_pool iso_queue streams trace]
    in *.
  subst.
  change (run reference_config cycle _)
    with (run reference_config cycle
            {| streams :=
                 [stream_with (Z.of_nat n mod (UINT16_MAX + 1))
                              (Z.of_nat n mod (SIZE_MAX + 1)) e0 r0;
                  stream_with (Z.of_nat n mod (UINT16_MAX + 1))
                              (Z.of_nat n mod (SIZE_MAX + 1)) e1 r1];
               send_pcm_data := pcm; globals := g;
               sem_started := ss; sem_stopped := sp;
               lc3_encoder_sem := {| count := 6; limit := 6 |};
               tx_pool := 6; iso_queue := [0%nat; 0%nat]; usb_count := uc;
               main_pc := main_sleep; encoder_pc := encoder_take 0;
               trace := tr |}).
  rewrite cycle_from.
  eexists; split; [reflexivity |].
  assert (Hseq : forall m, 0 < m ->
             (Z.of_nat n mod m + 1) mod m = Z.of_nat (S n) mod m).
  { intros m Hpos. rewrite Z.add_mod_idemp_l by lia. f_equal. lia. }
  unfold between_cycles.
  cbn [main_pc encoder_pc lc3_encoder_sem tx_pool iso_queue streams trace].
  rewrite !submissions_app, H0, H1, frames_S.
  rewrite !since_started_app, !since_started_total_message.
  cbn [since_started Nat.eqb app].
  rewrite !Hseq by (unfold UINT16_MAX, SIZE_MAX; lia).
  do 5 (split; [reflexivity |]).
  split; [exists e0, e1, r0, r1; reflexivity |].
  split; reflexivity.
Qed.

(** X5. In the reference scenario any number of cycles in which nothing fails
    runs to its end: after [n] of them each stream has sent [n] frames,
    with the sequence numbers from 0 on, modulo 2^16. *)
Lemma fault_free_cycles n :
  exists s,
    run reference_config (startup ++ cycles n) (boot reference_config)
    = Some s /\ between_cycles n s.
Proof.
  assert (Hcycles : forall m k s,
             between_cycles k s ->
             exists s', run reference_config (cycles m) s = Some s' /\
                        between_cycles (k + m) s').
  { induction m as [| m IH]; intros k s Hs; cbn [cycles].
    - exists s. rewrite Nat.add_0_r. auto.
    - destruct (one_more_cycle k s Hs) as (s1 & Hrun1 & Hs1).
      destruct (IH (S k) s1 Hs1) as (s2 & Hrun2 & Hs2).
      exists s2. rewrite run_app, Hrun1.
      replace (k + S m)%nat with (S k + m)%nat by lia. auto. }
  assert (Hstart : exists s0,
             run reference_config startup (boot reference_config) = Some s0 /\
             between_cycles 0 s0).
  { eexists. split; [vm_compute; reflexivity |].
    unfold between_cycles.
    do 5 (split; [reflexivity |]).
    split; [do 4 eexists; reflexivity |].
    split; reflexivity. }
  destruct Hstart as (s0 & Hrun0 & Hs0).
  destruct (Hcycles n 0%nat s0 Hs0) as (s & Hrun & Hs).
  exists s. rewrite run_app, Hrun0. auto.
Qed.

(* --------------------------------------------------------------------- *)
(** ** Further properties of the broadcast source *)

Lemma land_byte (x : Z) : Z.land x 0xff = x mod 256.
Proof. change 0xff with (Z.ones 8). rewrite Z.land_ones by lia. reflexivity. Qed.

Lemma sys_put_le24_bytes (val : Z) :
  sys_put_le24 val
  = [val mod 256; (val / 256) mod 256; (val / 65536) mod 256].
Proof.
  unfold sys_put_le24, sys_put_le16.
  rewrite Z.shiftr_shiftr by lia. rewrite !land_byte.
  rewrite !Z.shiftr_div_pow2 by lia. reflexivity.
Qed.

Lemma le24_of_bytes (val : Z) :
  val mod 256 + 256 * ((val / 256) mod 256) + 65536 * ((val / 65536) mod 256)
  = val mod 2 ^ 24.
Proof.
  pose proof (Z.div_mod val 256 ltac:(lia)) as H0.
  pose proof (Z.mod_pos_bound val 256 ltac:(lia)) as B0.
  pose proof (Z.div_mod (val / 256) 256 ltac:(lia)) as H1.
  pose proof (Z.mod_pos_bound (val / 256) 256 ltac:(lia)) as B1.
  pose proof (Z.div_mod (val / 256 / 256) 256 ltac:(lia)) as H2.
  pose proof (Z.mod_pos_bound (val / 256 / 256) 256 ltac:(lia)) as B2.
  replace (val / 65536) with (val / 256 / 256)
    by (rewrite Z.div_div by lia; reflexivity).
  change (2 ^ 24) with 16777216.
  apply (Z.mod_unique val 16777216 (val / 256 / 256 / 256)); lia.
Qed.

Section WithUtf8.

Variable utf8_lcpy : list Z -> Z -> list Z.

(** X6. What the broadcast source advertises is what the scanner finds. The
    five bytes of the service data fill [ad_buf] exactly, and from the
    three fields of [ext_ad], received in a report of a non-connectable
    periodic advertiser, the scanner logs the low 24 bits of the
    [broadcast_id] of the source, and its device name when that has
    between 4 and 128 bytes (no name otherwise). *)
Theorem scanner_finds_what_the_source_advertises
    (info : Scanner.bt_le_scan_recv_info) (device_name : list Z)
    (broadcast_id : Z) :
  Z.land (Scanner.adv_props info) Scanner.BT_GAP_ADV_PROP_CONNECTABLE = 0 ->
  Scanner.interval info <> 0 ->
  exists ad,
    ext_ad device_name broadcast_id = Some ad /\
    Scanner.broadcast_scan_recv utf8_lcpy info ad
    = [Scanner.LOG_INF_found
         (if Scanner.IN_RANGE (Z.of_nat (length device_name))
                              Scanner.BT_AUDIO_BROADCAST_NAME_LEN_MIN
                              Scanner.BT_AUDIO_BROADCAST_NAME_LEN_MAX
          then utf8_lcpy device_name (Z.of_nat (length device_name) + 1)
          else [])
         (broadcast_id mod 2 ^ 24)].
Proof.
  intros Hc Hi. eexists. split.
  - unfold ext_ad, net_buf_simple_add_le16, net_buf_simple_add_le24,
      net_buf_simple_add. rewrite sys_put_le24_bytes. simpl. reflexivity.
  - unfold Scanner.broadcast_scan_recv. rewrite Hc.
    destruct (Z.eqb_spec (Scanner.interval info) 0) as [| _]; [contradiction |].
    cbn [Z.eqb negb orb]. rewrite ScannerFacts.bt_data_parse_found.
    unfold Scanner.last_of.
    cbn [fold_left Scanner.broadcast_id Scanner.broadcast_name].
    change (Scanner.carries_broadcast_name
              {| Scanner.type := BT_DATA_MANUFACTURER_DATA;
                 Scanner.data := ad_data_1 |}) with false.
    change (Scanner.carries_broadcast_id
              {| Scanner.type := BT_DATA_MANUFACTURER_DATA;
                 Scanner.data := ad_data_1 |}) with false.
    change (Scanner.carries_broadcast_id
              {| Scanner.type := Scanner.BT_DATA_BROADCAST_NAME;
                 Scanner.data := device_name |}) with false.
    change (Scanner.carries_broadcast_name
              {| Scanner.type := Scanner.BT_DATA_BROADCAST_NAME;
                 Scanner.data := device_name |})
      with (Scanner.IN_RANGE (Z.of_nat (length device_name))
              Scanner.BT_AUDIO_BROADCAST_NAME_LEN_MIN
              Scanner.BT_AUDIO_BROADCAST_NAME_LEN_MAX).
    match goal with
    | |- context [Scanner.carries_broadcast_name ?d] =>
        change (Scanner.carries_broadcast_name d) with false
    end.
    match goal with
    | |- context [Scanner.carries_broadcast_id ?d] =>
        change (Scanner.carries_broadcast_id d) with true
    end.
    unfold Scanner.id_of, Scanner.name_of. cbn [Scanner.data skipn].
    pose proof (Z.mod_pos_bound broadcast_id 256 ltac:(lia)).
    pose proof (Z.mod_pos_bound (broadcast_id / 256) 256 ltac:(lia)).
    rewrite ScannerFacts.sys_get_le24_value
      by (unfold Scanner.byte_at; cbn [nth]; lia).
    unfold Scanner.byte_at.
    cbn [nth]. rewrite le24_of_bytes. reflexivity.
Qed.

End WithUtf8.

(** The theorem at a source named "Home audio" with the broadcast id
    0x123456, the name copied as it is. *)
Lemma scanner_finds_what_the_source_advertises_witness :
  exists ad,
    ext_ad [72; 111; 109; 101; 32; 97; 117; 100; 105; 111] 0x123456 = Some ad /\
    Scanner.broadcast_scan_recv (fun src _ => src)
      {| Scanner.adv_props := 0; Scanner.interval := 80 |} ad
    = [Scanner.LOG_INF_found [72; 111; 109; 101; 32; 97; 117; 100; 105; 111]
                             0x123456].
Proof.
  apply (scanner_finds_what_the_source_advertises (fun src _ => src)
           {| Scanner.adv_props := 0; Scanner.interval := 80 |}
           [72; 111; 109; 101; 32; 97; 117; 100; 105; 111] 0x123456).
  - reflexivity.
  - simpl. lia.
Defined.

(** ** [data_received] *)

Lemma downsample_spec pcm stride n : forall j ch0 ch1,
  downsample pcm stride n j ch0 ch1
  = (ch0 ++ flat_map (fun i => pcm_sample pcm (j + i * stride)) (seq 0 n),
     ch1 ++ flat_map (fun i => pcm_sample pcm (j + i * stride + 1)) (seq 0 n)).
Proof.
  induction n as [| n IH]; intros j ch0 ch1.
  - simpl. rewrite !app_nil_r. reflexivity.
  - cbn [downsample]. rewrite IH.
    change (seq 0 (S n)) with (0%nat :: seq 1 n).
    rewrite <- seq_shift. cbn [flat_map].
    rewrite !flat_map_concat_map, !map_map, <- !flat_map_concat_map.
    rewrite <- !app_assoc. rewrite !Nat.add_0_r.
    f_equal; f_equal; f_equal; apply flat_map_ext; intros i;
      f_equal; lia.
Qed.

Lemma flat_map_length_const {A B : Type} (f : A -> list B) (c : nat) l :
  (forall x, length (f x) = c) -> length (flat_map f l) = (length l * c)%nat.
Proof.
  intros H. induction l as [| x l IH]; [reflexivity |].
  cbn [flat_map]. rewrite length_app, H, IH. simpl. lia.
Qed.

Lemma usb_constants cfg :
  let ratio := USB_SAMPLE_RATE / USB_DOWNSAMPLE_RATE cfg in
  0 < ratio /\
  2 * USB_CHANNELS * ratio * USB_NUM_SAMPLES cfg = Z.of_nat usb_packet_bytes /\
  0 < USB_NUM_SAMPLES cfg.
Proof.
  unfold USB_DOWNSAMPLE_RATE, USB_NUM_SAMPLES, BROADCAST_SAMPLE_RATE.
  destruct (CONFIG_BAP_BROADCAST cfg); cbv; repeat split; congruence.
Qed.


Lemma usb_put_length_streams cfg i chans l :
  length (usb_put cfg i chans l).1 = length l.
Proof. apply usb_put_length. Qed.

(** X7. [data_received] at its bounds. Without a buffer it does nothing, and
    with an empty one nothing but release it: in both cases no sample is
    stored and the call is not counted. A packet of up to the 192 bytes
    of 1 ms of audio is taken in full: the samples of each channel fit the
    row of [usb_pcm_data], the call is counted and the buffer released. On
    a larger packet nothing checks the number of samples against
    [USB_NUM_SAMPLES]: from [4 * ratio] bytes more on, the first loop
    writes past the row. Nor is the [static int count] checked: a call
    that finds it at [INT_MAX] overflows it. These are the only calls
    without a defined result; in every other one the counter goes up by
    one and stays an [int]. *)
Theorem data_received_bounds cfg payload size l c :
  data_received cfg None size l c
  = Some {| usb_streams := l; usb_count_after := c; usb_out := [];
            usb_unref := false |} /\
  data_received cfg (Some payload) 0 l c
  = Some {| usb_streams := l; usb_count_after := c; usb_out := [];
            usb_unref := true |} /\
  ((0 < size)%nat -> (size <= length payload)%nat ->
   ((size <= usb_packet_bytes)%nat -> c <> INT_MAX ->
    is_Some (data_received cfg (Some payload) size l c)) /\
   (data_received cfg (Some payload) size l c = None <->
    Z.of_nat usb_packet_bytes
    + 2 * USB_CHANNELS * (USB_SAMPLE_RATE / USB_DOWNSAMPLE_RATE cfg)
    <= Z.of_nat size \/ c = INT_MAX) /\
   (forall r, data_received cfg (Some payload) size l c = Some r ->
              usb_unref r = true /\
              c <> INT_MAX /\ usb_count_after r = c + 1 /\
              (INT_MIN <= c <= INT_MAX ->
               INT_MIN <= usb_count_after r <= INT_MAX) /\
              length (usb_streams r) = length l /\
              (Z.of_nat (nsamples_of cfg size) <= USB_NUM_SAMPLES cfg))).
Proof.
  split; [reflexivity |]. split; [reflexivity |].
  intros Hpos Hlen.
  destruct (usb_constants cfg) as (Hr & Hbytes & HN).
  set (ratio := USB_SAMPLE_RATE / USB_DOWNSAMPLE_RATE cfg) in *.
  assert (Hd : 0 < 2 * USB_CHANNELS * ratio) by (unfold USB_CHANNELS; lia).
  assert (Hcases :
    USB_NUM_SAMPLES cfg < Z.of_nat size / (2 * USB_CHANNELS * ratio)
    <-> Z.of_nat usb_packet_bytes + 2 * USB_CHANNELS * ratio <= Z.of_nat size).
  { rewrite <- Hbytes. split; intros H.
    - assert (USB_NUM_SAMPLES cfg + 1
              <= Z.of_nat size / (2 * USB_CHANNELS * ratio)) as H1 by lia.
      pose proof (Z.mul_div_le (Z.of_nat size) _ Hd). nia.
    - assert (USB_NUM_SAMPLES cfg + 1
              <= Z.of_nat size / (2 * USB_CHANNELS * ratio)); [| lia].
      apply Z.div_le_lower_bound; [exact Hd | nia]. }
  unfold data_received. fold ratio.
  destruct (Nat.eqb_spec size 0) as [| _]; [lia |].
  destruct (Nat.ltb_spec (length payload) size) as [| _]; [lia |].
  destruct (Z.ltb_spec (USB_NUM_SAMPLES cfg)
              (Z.of_nat size / (2 * USB_CHANNELS * ratio))) as [E | E].
  - apply Hcases in E as E'. split; [intros H; lia |].
    split; [tauto | intros r; discriminate].
  - assert (~ Z.of_nat usb_packet_bytes + 2 * USB_CHANNELS * ratio
              <= Z.of_nat size) as E'
      by (intros H; apply Hcases in H; lia).
    destruct (downsample payload _ _ 0 [] []) as [ch0 ch1].
    pose proof (usb_put_length_streams cfg 0 [ch0; ch1] l) as Hl.
    destruct (usb_put cfg 0 [ch0; ch1] l) as [l' out]. simpl in Hl.
    destruct (Z.eqb_spec c INT_MAX) as [Hc | Hc].
    { split; [intros _ Hne; contradiction |].
      split; [tauto | intros r; discriminate]. }
    split; [intros _ _; eexists; reflexivity |].
    split; [split; [discriminate | intros [H | H]; contradiction] |].
    intros r [= <-]. cbn [usb_unref usb_count_after usb_streams].
    split; [reflexivity |]. split; [exact Hc |]. split; [reflexivity |].
    split; [unfold INT_MIN, INT_MAX in *; lia |]. split; [exact Hl |].
    unfold nsamples_of. fold ratio.
    rewrite Z2Nat.id; [exact E |]. apply Z.div_pos; lia.
Qed.

(** X8. What [data_received] stores is every [ratio]th frame of the packet:
    sample [i] of the left channel is the left sample of frame
    [i * ratio] of the payload, sample [i] of the right channel its right
    sample, [size / (4 * ratio)] samples each. These bytes go to the rings
    of the first two streams as in the step [ev_usb_data] of the system:
    the call leaves the streams, the counter and the messages of that
    step. A call with a result did not find the counter at [INT_MAX],
    and leaves an [int] in it. *)
Theorem data_received_takes_every_ratio_th_frame cfg payload size s r :
  CONFIG_USB_DEVICE_AUDIO cfg = true ->
  (0 < size)%nat ->
  data_received cfg (Some payload) size (streams s) (usb_count s) = Some r ->
  let n := nsamples_of cfg size in
  let left_ch := flat_map (left_of cfg payload) (seq 0 n) in
  let right_ch := flat_map (right_of cfg payload) (seq 0 n) in
  length left_ch = (2 * n)%nat /\
  length right_ch = (2 * n)%nat /\
  usb_streams r = (usb_put cfg 0 [left_ch; right_ch] (streams s)).1 /\
  usb_out r
  = (usb_put cfg 0 [left_ch; right_ch] (streams s)).2
    ++ (if (usb_count s + 1) mod 1000 =? 0
        then [Printk "USB Data received (count = %d)" [usb_count s + 1]]
        else []) /\
  usb_count s <> INT_MAX /\
  exists s', step cfg (ev_usb_data left_ch right_ch) s = Some s' /\
             streams s' = usb_streams r /\
             usb_count s' = usb_count_after r /\
             (INT_MIN <= usb_count s <= INT_MAX ->
              INT_MIN <= usb_count s' <= INT_MAX) /\
             trace s' = trace s ++ usb_out r.
Proof.
  intros Husb Hpos H n left_ch right_ch.
  assert (Hl : length left_ch = (2 * n)%nat).
  { unfold left_ch. rewrite (flat_map_length_const _ 2) by reflexivity.
    rewrite length_seq. lia. }
  assert (Hr : length right_ch = (2 * n)%nat).
  { unfold right_ch. rewrite (flat_map_length_const _ 2) by reflexivity.
    rewrite length_seq. lia. }
  split; [exact Hl |]. split; [exact Hr |].
  unfold data_received in H.
  destruct (Nat.eqb_spec size 0) as [| _]; [lia |].
  destruct (length payload <? size)%nat; [discriminate |].
  destruct (USB_NUM_SAMPLES cfg <? _); [discriminate |].
  rewrite downsample_spec in H. cbn [app] in H.
  assert (Hleft :
    flat_map (fun i => pcm_sample payload
                (0 + i * Z.to_nat (USB_CHANNELS
                                   * (USB_SAMPLE_RATE / USB_DOWNSAMPLE_RATE cfg))))
             (seq 0 (Z.to_nat (Z.of_nat size
                               / (2 * USB_CHANNELS
                                  * (USB_SAMPLE_RATE / USB_DOWNSAMPLE_RATE cfg)))))
    = left_ch) by reflexivity.
  assert (Hright :
    flat_map (fun i => pcm_sample payload
                (0 + i * Z.to_nat (USB_CHANNELS
                                   * (USB_SAMPLE_RATE / USB_DOWNSAMPLE_RATE cfg))
                 + 1))
             (seq 0 (Z.to_nat (Z.of_nat size
                               / (2 * USB_CHANNELS
                                  * (USB_SAMPLE_RATE / USB_DOWNSAMPLE_RATE cfg)))))
    = right_ch) by reflexivity.
  rewrite Hleft, Hright in H.
  unfold step. rewrite Husb.
  destruct (usb_put cfg 0 [left_ch; right_ch] (streams s)) as [l' out].
  destruct (Z.eqb_spec (usb_count s) INT_MAX) as [| Hc]; [discriminate |].
  injection H as <-. cbn [usb_streams usb_count_after usb_out].
  split; [reflexivity |]. split; [reflexivity |]. split; [exact Hc |].
  eexists. split; [reflexivity |]. simpl.
  repeat split; try reflexivity. all: unfold INT_MIN, INT_MAX in *; lia.
Qed.

(** In every execution the counter of [data_received] is a non-negative
    [int]. *)
Lemma usb_count_is_int cfg sched s :
  run cfg sched (boot cfg) = Some s -> 0 <= usb_count s <= INT_MAX.
Proof.
  apply (run_invariant cfg (fun s => 0 <= usb_count s <= INT_MAX)).
  - intros ev s1 s2 H1 H. destruct ev; unfold step in H.
    + destruct (main_pc s1); try discriminate. injection H as <-.
      unfold main_setup.
      destruct (nonzero _), (main_before_thread cfg env) as [o1 [c1 | []]];
        simpl; try exact H1;
        destruct (CONFIG_USB_DEVICE_AUDIO cfg),
          (main_after_thread cfg env) as [o2 [c2 | []]]; simpl; try exact H1;
        destruct (main_at_wait_started cfg 0); exact H1.
    + destruct (main_pc s1); try discriminate.
      * destruct (k_sem_take (sem_started s1)); [| discriminate].
        destruct (main_at_wait_started cfg _). injection H as <-. exact H1.
      * injection H as <-. exact H1.
    + destruct (encoder_pc s1); try discriminate. injection H as <-. exact H1.
    + destruct (encoder_pc s1); try discriminate.
      destruct (k_sem_take (lc3_encoder_sem s1)); [| discriminate].
      injection H as <-. exact H1.
    + destruct (encoder_pc s1) as [| | a | a | |]; try discriminate.
      destruct (streams s1 !! a); [| discriminate].
      destruct (tx_pool s1); [discriminate |].
      destruct (send_data cfg a env _ (send_pcm_data s1)) as [[st' pcm] out].
      injection H as <-. destruct (accepted out); exact H1.
    + destruct (streams s1 !! stream); [| discriminate].
      destruct (stream_started_cb _ _). injection H as <-. exact H1.
    + destruct (streams s1 !! stream); [| discriminate].
      injection H as <-. exact H1.
    + destruct (iso_queue s1 !! stream) as [[| q] |]; try discriminate.
      injection H as <-. exact H1.
    + destruct (CONFIG_USB_DEVICE_AUDIO cfg); [| discriminate].
      destruct (Z.eqb_spec (usb_count s1) INT_MAX) as [| Hc];
        [discriminate |].
      destruct (usb_put cfg 0 _ (streams s1)). injection H as <-.
      simpl. lia.
  - simpl. unfold INT_MAX. lia.
Qed.

(** ** The rings *)

Lemma take_min_length {A : Type} (l : list A) (m : nat) :
  take (Nat.min (length l) m) l = take m l.
Proof.
  destruct (Nat.le_ge_cases m (length l)).
  - rewrite Nat.min_r by lia. reflexivity.
  - rewrite Nat.min_l by lia. rewrite !take_ge by lia. reflexivity.
Qed.

Lemma usb_put_ring cfg chans : forall i l k st,
  l !! k = Some st ->
  exists st',
    (usb_put cfg i chans l).1 !! k = Some st' /\
    audio_ring_buf st'
    = audio_ring_buf st ++ take (ring_room cfg st) (default [] (chans !! k)) /\
    seq_num st' = seq_num st /\ sent_cnt st' = sent_cnt st /\
    lc3_encoder st' = lc3_encoder st.
Proof.
  induction chans as [| b chans IH]; intros i l k st Hk.
  - exists st. rewrite lookup_nil. cbn [default]. rewrite take_nil, app_nil_r.
    destruct l; simpl; auto.
  - destruct l as [| st0 l]; [discriminate |].
    cbn [usb_put]. unfold ring_buf_put.
    specialize (IH (S i) l).
    destruct (usb_put cfg (S i) chans l) as [l' out]. cbn [fst] in *.
    destruct k as [| k]; simpl in Hk |- *.
    + injection Hk as <-. eexists. split; [reflexivity |].
      cbn [audio_ring_buf seq_num sent_cnt lc3_encoder].
      unfold ring_room. rewrite take_min_length. auto.
    + apply IH, Hk.
Qed.

Lemma usb_put_out cfg chans : forall i l e,
  In e (usb_put cfg i chans l).2 <->
  exists k bytes st,
    chans !! k = Some bytes /\ l !! k = Some st /\
    (ring_room cfg st < length bytes)%nat /\
    e = no_room_message cfg (i + k) (ring_room cfg st) (length bytes).
Proof.
  induction chans as [| b chans IH]; intros i l e.
  - simpl. split; [intros [] | intros (k & bytes & st & H & _)].
    rewrite lookup_nil in H. discriminate.
  - destruct l as [| st0 l].
    { simpl. split; [intros [] | intros (k & bytes & st & _ & H & _)].
      rewrite lookup_nil in H. discriminate. }
    cbn [usb_put]. unfold ring_buf_put.
    specialize (IH (S i) l e).
    destruct (usb_put cfg (S i) chans l) as [l' out]. cbn [snd] in *.
    rewrite in_app_iff, IH. clear IH. fold (ring_room cfg st0).
    split.
    + intros [H | (k & bytes & st & H1 & H2 & H3 & ->)].
      * destruct (Nat.ltb_spec (Nat.min (length b) (ring_room cfg st0))
                                (length b)) as [Hlt | Hge];
          [| destruct H].
        destruct H as [<- | []].
        exists 0%nat, b, st0. repeat split; try reflexivity; [lia |].
        unfold no_room_message. rewrite Nat.add_0_r.
        rewrite Nat.min_r by lia. reflexivity.
      * exists (S k), bytes, st. repeat split; try assumption.
        f_equal. lia.
    + intros ([| k] & bytes & st & H1 & H2 & H3 & ->); simpl in H1, H2.
      * injection H1 as <-. injection H2 as <-. left.
        destruct (Nat.ltb_spec (Nat.min (length b) (ring_room cfg st0))
                                (length b)) as [Hlt | Hge]; [| lia].
        left. unfold no_room_message. rewrite Nat.add_0_r.
        rewrite Nat.min_r by lia. reflexivity.
      * right. exists k, bytes, st. repeat split; try assumption.
        f_equal. lia.
Qed.

(** X9. [data_received] never overwrites audio that has not been read, and
    drops what does not fit. For each stream, what the second loop leaves
    in its ring is what was there followed by the bytes of its channel, as
    many of them as there is room for (streams after the second get no
    bytes); the ring does not grow beyond its capacity; the counters and
    the encoder of the stream are not touched; and the message about the
    missing room is printed for a stream exactly when bytes of its channel
    were dropped. *)
Theorem usb_audio_is_appended_or_dropped cfg left_ch right_ch l k st :
  l !! k = Some st ->
  let bytes := default [] ([left_ch; right_ch] !! k) in
  exists st',
    (usb_put cfg 0 [left_ch; right_ch] l).1 !! k = Some st' /\
    audio_ring_buf st' = audio_ring_buf st ++ take (ring_room cfg st) bytes /\
    ((length (audio_ring_buf st) <= AUDIO_RING_BUF_BYTES cfg)%nat ->
     (length (audio_ring_buf st') <= AUDIO_RING_BUF_BYTES cfg)%nat) /\
    (In (no_room_message cfg k (ring_room cfg st) (length bytes))
        (usb_put cfg 0 [left_ch; right_ch] l).2
     <-> (ring_room cfg st < length bytes)%nat) /\
    seq_num st' = seq_num st /\ sent_cnt st' = sent_cnt st /\
    lc3_encoder st' = lc3_encoder st.
Proof.
  intros Hk bytes.
  destruct (usb_put_ring cfg [left_ch; right_ch] 0 l k st Hk)
    as (st' & H1 & H2 & H3 & H4 & H5).
  exists st'. split; [exact H1 |]. split; [exact H2 |].
  split.
  { intros Hle. rewrite H2, length_app, length_take. unfold ring_room. lia. }
  split; [| auto].
  rewrite usb_put_out. split.
  - intros (k' & bytes' & st2 & Hc & Hl & Hlt & Heq).
    unfold no_room_message in Heq.
    injection Heq as Hk' _ _.
    assert (k' = k) as -> by lia.
    rewrite Hk in Hl. injection Hl as <-.
    unfold bytes. rewrite Hc. exact Hlt.
  - intros Hlt. unfold bytes in *.
    destruct ([left_ch; right_ch] !! k) as [b |] eqn:Hc; [| simpl in Hlt; lia].
    exists k, b, st. repeat split; auto.
Qed.


Lemma usb_channel_lookup (c : nat) (p : list Z * list Z) :
  (c < 2)%nat -> [p.1; p.2] !! c = Some (usb_channel c p).
Proof. destruct c as [| [| c]]; simpl; [reflexivity | reflexivity | lia]. Qed.

Lemma usb_packets_ring cfg c :
  CONFIG_USB_DEVICE_AUDIO cfg = true -> (c < 2)%nat ->
  forall packets s st,
    streams s !! c = Some st ->
    (length (audio_ring_buf st)
     + length (concat (map (usb_channel c) packets))
     <= AUDIO_RING_BUF_BYTES cfg)%nat ->
    usb_count s + Z.of_nat (length packets) <= INT_MAX ->
    exists s' st',
      run cfg (map (fun p => ev_usb_data p.1 p.2) packets) s = Some s' /\
      streams s' !! c = Some st' /\
      audio_ring_buf st'
      = audio_ring_buf st ++ concat (map (usb_channel c) packets) /\
      lc3_encoder st' = lc3_encoder st /\
      seq_num st' = seq_num st /\ sent_cnt st' = sent_cnt st.
Proof.
  intros Husb Hc.
  induction packets as [| p packets IH]; intros s st Hst Hlen Hcount.
  - exists s, st. simpl. rewrite app_nil_r. repeat split; auto.
  - cbn [map concat] in *. rewrite length_app in Hlen.
    cbn [length] in Hcount.
    destruct (usb_put_ring cfg [p.1; p.2] 0 (streams s) c st Hst)
      as (st1 & H1 & H2 & H3 & H4 & H5).
    rewrite (usb_channel_lookup c p Hc) in H2. cbn [default] in H2.
    unfold id in H2.
    rewrite take_ge in H2 by (unfold ring_room; lia).
    cbn [run]. unfold step. rewrite Husb.
    destruct (Z.eqb_spec (usb_count s) INT_MAX) as [| _]; [lia |].
    destruct (usb_put cfg 0 [p.1; p.2] (streams s)) as [l' out].
    cbn [fst] in H1.
    match goal with
    | |- context [run cfg _ ?s1] =>
        destruct (IH s1 st1) as (s' & st' & Hrun & Hst' & Hrb & He & Hq & Hn)
    end.
    { exact H1. }
    { rewrite H2, length_app. lia. }
    { simpl. lia. }
    exists s', st'. split; [exact Hrun |]. split; [exact Hst' |].
    rewrite Hrb, H2, <- app_assoc.
    repeat split; congruence.
Qed.

Lemma concat_map_length_const {A B : Type} (f : A -> list B) (c : nat) l :
  Forall (fun x => length (f x) = c) l ->
  length (concat (map f l)) = (length l * c)%nat.
Proof.
  induction 1 as [| x l Hx Hl IH]; [reflexivity |].
  cbn [map concat]. rewrite length_app, Hx, IH. simpl. lia.
Qed.

Lemma usb_frame_sizes cfg :
  (usb_packets_per_frame
   * Z.to_nat (USB_NUM_SAMPLES cfg * USB_BYTES_PER_SAMPLE))%nat
  = sizeof_send_pcm_data cfg /\
  (2 * sizeof_send_pcm_data cfg)%nat = AUDIO_RING_BUF_BYTES cfg.
Proof.
  unfold sizeof_send_pcm_data, AUDIO_RING_BUF_BYTES, MAX_NUM_SAMPLES,
    USB_NUM_SAMPLES, MAX_SAMPLE_RATE, BROADCAST_SAMPLE_RATE.
  destruct (CONFIG_BAP_BROADCAST cfg); split; reflexivity.
Qed.

(** X10. The audio of the headset reaches the encoder as it came. When the
    ring of one of the first two streams is empty and ten packets come
    (10 ms of audio, [USB_NUM_SAMPLES] samples per channel each), all of
    their bytes are stored, and the next call of [send_data] for the
    stream hands to the encoder exactly the bytes of its channel, in the
    order of arrival, with no padding, and leaves the ring empty. The
    ten calls of [data_received] are counted in an [int]: the counter is
    to have room for them. *)
Theorem ten_usb_packets_make_one_frame cfg c packets s st enc :
  CONFIG_USB_DEVICE_AUDIO cfg = true ->
  (c < 2)%nat ->
  streams s !! c = Some st ->
  audio_ring_buf st = [] ->
  lc3_encoder st = Some enc ->
  length packets = usb_packets_per_frame ->
  usb_count s + Z.of_nat usb_packets_per_frame <= INT_MAX ->
  Forall (fun p => length (usb_channel c p)
                   = Z.to_nat (USB_NUM_SAMPLES cfg * USB_BYTES_PER_SAMPLE))
         packets ->
  exists s' st',
    run cfg (map (fun p => ev_usb_data p.1 p.2) packets) s = Some s' /\
    streams s' !! c = Some st' /\
    audio_ring_buf st' = concat (map (usb_channel c) packets) /\
    forall env pcm,
      net_buf_alloc_null env = false ->
      length pcm = sizeof_send_pcm_data cfg ->
      (send_data cfg c env st' pcm).1.2 = concat (map (usb_channel c) packets)
      /\ audio_ring_buf (send_data cfg c env st' pcm).1.1 = [].
Proof.
  intros Husb Hc Hst Hrb Henc Hn Hcount Hsizes.
  destruct (usb_frame_sizes cfg) as [Hframe Hcap].
  pose proof (concat_map_length_const _ _ _ Hsizes) as Hlen.
  rewrite Hn, Hframe in Hlen.
  destruct (usb_packets_ring cfg c Husb Hc packets s st Hst)
    as (s' & st' & Hrun & Hst' & Hrb' & Henc' & _);
    [rewrite Hrb; simpl; lia | rewrite Hn; exact Hcount |].
  rewrite Hrb in Hrb'. cbn [app] in Hrb'.
  exists s', st'. split; [exact Hrun |]. split; [exact Hst' |].
  split; [exact Hrb' |]. intros env pcm Hnull Hpcm.
  pose proof (send_data_usb_pcm cfg c env st' pcm enc Husb Hnull
                ltac:(congruence) Hpcm) as H.
  destruct (send_data cfg c env st' pcm) as [[st2 pcm2] out].
  destruct H as [-> Hd]. cbn [fst snd]. rewrite Hd, Hrb'.
  rewrite take_ge, drop_ge by lia.
  rewrite Hlen, Nat.sub_diag. cbn [replicate]. rewrite app_nil_r. auto.
Qed.

Lemma send_data_without_usb cfg i env st pcm :
  CONFIG_USB_DEVICE_AUDIO cfg = false ->
  (send_data cfg i env st pcm).1.2 = pcm /\
  audio_ring_buf (send_data cfg i env st pcm).1.1 = audio_ring_buf st.
Proof.
  intros Husb. unfold send_data. rewrite Husb.
  destruct (net_buf_alloc_null env); [auto |].
  destruct (lc3_encoder st); [| auto].
  destruct (lc3_encode_ret env =? -1); [auto |].
  destruct (bt_bap_stream_send_ret env <? 0); auto.
Qed.

(** X11. The frame [send_data] encodes for a stream is the stream's own. With
    the USB headset as audio it consists of the bytes of the stream's
    ring and zeros, whatever the shared buffer [send_pcm_data] held from
    the call before (for another stream); without it [send_data] leaves
    the buffer as it is, whatever the answers of its callees. *)
Theorem pcm_frame_is_of_the_stream_alone cfg i env st pcm pcm' enc :
  (CONFIG_USB_DEVICE_AUDIO cfg = true ->
   net_buf_alloc_null env = false ->
   lc3_encoder st = Some enc ->
   length pcm = sizeof_send_pcm_data cfg ->
   length pcm' = sizeof_send_pcm_data cfg ->
   (send_data cfg i env st pcm).1.2 = (send_data cfg i env st pcm').1.2 /\
   (send_data cfg i env st pcm).1.2
   = take (sizeof_send_pcm_data cfg) (audio_ring_buf st)
     ++ replicate (sizeof_send_pcm_data cfg - length (audio_ring_buf st)) 0 /\
   length (send_data cfg i env st pcm).1.2 = sizeof_send_pcm_data cfg) /\
  (CONFIG_USB_DEVICE_AUDIO cfg = false ->
   (send_data cfg i env st pcm).1.2 = pcm /\
   audio_ring_buf (send_data cfg i env st pcm).1.1 = audio_ring_buf st).
Proof.
  split.
  - intros Husb Hnull Henc Hlen Hlen'.
    pose proof (send_data_usb_pcm cfg i env st pcm enc Husb Hnull Henc Hlen)
      as H.
    pose proof (send_data_usb_pcm cfg i env st pcm' enc Husb Hnull Henc Hlen')
      as H'.
    destruct (send_data cfg i env st pcm) as [[st1 p1] o1].
    destruct (send_data cfg i env st pcm') as [[st2 p2] o2].
    destruct H as [-> _], H' as [-> _]. cbn [fst snd].
    split; [reflexivity |]. split; [reflexivity |].
    rewrite length_app, length_take, length_replicate. lia.
  - apply send_data_without_usb.
Qed.

(** ** The rings in the system *)

Lemma send_data_ring cfg i env st pcm :
  exists n, audio_ring_buf (send_data cfg i env st pcm).1.1
            = drop n (audio_ring_buf st).
Proof.
  unfold send_data, ring_buf_get.
  destruct (net_buf_alloc_null env); [exists 0%nat; reflexivity |].
  destruct (lc3_encoder st); [| exists 0%nat; reflexivity].
  destruct (CONFIG_USB_DEVICE_AUDIO cfg); simpl;
    destruct (lc3_encode_ret env =? -1); simpl;
    try (destruct (bt_bap_stream_send_ret env <? 0); simpl);
    solve [exists 0%nat; reflexivity
          | exists (sizeof_send_pcm_data cfg); reflexivity].
Qed.

Lemma setup_encoders_ring env g i l k st' :
  (setup_encoders env g i l).1 !! k = Some st' ->
  exists st, l !! k = Some st /\ audio_ring_buf st' = audio_ring_buf st.
Proof.
  revert i k; induction l as [| st l IH]; intros i k; simpl;
    [destruct k; discriminate |].
  specialize (IH (S i)).
  destruct (setup_encoders env g (S i) l) as [l' out]; simpl in *.
  destruct k as [| k]; simpl.
  - intros [= <-]. eauto.
  - apply IH.
Qed.

Lemma init_lc3_thread_ring cfg env g l pcm k st' :
  init_streams (init_lc3_thread cfg env g l pcm) !! k = Some st' ->
  exists st, l !! k = Some st /\ audio_ring_buf st' = audio_ring_buf st.
Proof.
  unfold init_lc3_thread.
  repeat (case_match; simpl; eauto).
  match goal with
  | H : setup_encoders ?e ?g ?i ?l = _ |- _ =>
      pose proof (setup_encoders_ring e g i l k st') as Hp;
      rewrite H in Hp
  end.
  exact Hp.
Qed.

Lemma rings_kept_insert cfg l i st st' n :
  rings_kept cfg l -> l !! i = Some st ->
  audio_ring_buf st' = drop n (audio_ring_buf st) ->
  rings_kept cfg (<[i := st']> l).
Proof.
  intros H Hi Hrb k x Hk.
  destruct (decide (i = k)) as [<- | Hne].
  - rewrite list_lookup_insert_eq in Hk by (apply lookup_lt_Some in Hi; exact Hi).
    injection Hk as <-. destruct (H i st Hi) as [H1 H2].
    rewrite Hrb, length_drop. split; [lia |].
    intros Hge. rewrite (H2 Hge). apply drop_nil.
  - rewrite list_lookup_insert_ne in Hk by exact Hne. exact (H k x Hk).
Qed.

Lemma rings_kept_replicate cfg n : rings_kept cfg (replicate n stream0).
Proof.
  intros i st [-> _]%lookup_replicate. simpl. split; [lia | reflexivity].
Qed.

Lemma rings_kept_step cfg ev s s' :
  rings_kept cfg (streams s) -> step cfg ev s = Some s' ->
  rings_kept cfg (streams s').
Proof.
  intros R H. destruct ev; unfold step in H.
  - destruct (main_pc s); try discriminate. injection H as <-.
    destruct (main_setup_streams cfg env s) as [-> | ->];
      [exact R | apply rings_kept_replicate].
  - destruct (main_pc s); try discriminate.
    + destruct (k_sem_take (sem_started s)); [| discriminate].
      destruct (main_at_wait_started cfg _). injection H as <-. exact R.
    + injection H as <-. exact R.
  - destruct (encoder_pc s); try discriminate. injection H as <-. simpl.
    intros i st' Hi. apply init_lc3_thread_ring in Hi as (st & Hst & ->).
    exact (R i st Hst).
  - destruct (encoder_pc s); try discriminate.
    destruct (k_sem_take (lc3_encoder_sem s)); [| discriminate].
    injection H as <-. exact R.
  - destruct (encoder_pc s) as [| | a | a | |]; try discriminate.
    destruct (streams s !! a) as [sta |] eqn:Hsta; [| discriminate].
    destruct (tx_pool s) as [| pool]; [discriminate |].
    destruct (send_data_ring cfg a env sta (send_pcm_data s)) as [m Hn].
    destruct (send_data cfg a env sta (send_pcm_data s)) as [[st' pcm] out].
    simpl in Hn. injection H as <-.
    assert (rings_kept cfg (<[a := st']> (streams s)))
      by (eapply rings_kept_insert; eauto).
    destruct (accepted out); simpl; assumption.
  - destruct (streams s !! stream) as [sta |] eqn:Hsta; [| discriminate].
    injection H as <-. simpl.
    apply (rings_kept_insert cfg _ _ sta _ 0%nat); auto.
  - destruct (streams s !! stream); [| discriminate].
    injection H as <-. exact R.
  - destruct (iso_queue s !! stream) as [[| q] |]; try discriminate.
    injection H as <-. exact R.
  - destruct (CONFIG_USB_DEVICE_AUDIO cfg); [| discriminate].
    destruct (usb_count s =? INT_MAX); [discriminate |].
    pose proof (usb_put_length cfg 0 [left_ch; right_ch] (streams s)) as Hlen.
    pose proof (fun k st => usb_put_ring cfg [left_ch; right_ch] 0
                              (streams s) k st) as Hput.
    destruct (usb_put cfg 0 [left_ch; right_ch] (streams s)) as [l' out].
    injection H as <-. simpl in *.
    intros k st' Hk.
    assert (Hlt : (k < length (streams s))%nat)
      by (rewrite <- Hlen; apply lookup_lt_Some in Hk; exact Hk).
    apply lookup_lt_is_Some_2 in Hlt as [st Hst].
    destruct (Hput k st Hst) as (st2 & Hst2 & Hrb & _).
    rewrite Hk in Hst2. injection Hst2 as <-.
    destruct (R k st Hst) as [R1 R2]. rewrite Hrb. split.
    + rewrite length_app, length_take. unfold ring_room. lia.
    + intros Hge. rewrite (R2 Hge).
      destruct k as [| [| k]]; [lia | lia |]. simpl. apply take_nil.
Qed.

(** X12. The audio of the headset reaches the first two streams only. In
    every execution the ring of each stream holds at most
    [AUDIO_RING_BUF_BYTES] bytes, and the ring of a stream after the
    second is empty: with the USB headset as audio, what [send_data]
    encodes for such a stream is a frame of zeros. *)
Theorem usb_audio_reaches_two_streams_only cfg sched s i st :
  run cfg sched (boot cfg) = Some s ->
  streams s !! i = Some st ->
  (length (audio_ring_buf st) <= AUDIO_RING_BUF_BYTES cfg)%nat /\
  ((2 <= i)%nat ->
   audio_ring_buf st = [] /\
   forall env enc pcm,
     CONFIG_USB_DEVICE_AUDIO cfg = true ->
     net_buf_alloc_null env = false ->
     lc3_encoder st = Some enc ->
     length pcm = sizeof_send_pcm_data cfg ->
     (send_data cfg i env st pcm).1.2
     = replicate (sizeof_send_pcm_data cfg) 0).
Proof.
  intros Hrun Hst.
  assert (R : rings_kept cfg (streams s)).
  { refine (run_invariant cfg (fun s => rings_kept cfg (streams s))
              (rings_kept_step cfg) sched (boot cfg) s _ Hrun).
    apply rings_kept_replicate. }
  destruct (R i st Hst) as [R1 R2]. split; [exact R1 |].
  intros Hge. specialize (R2 Hge). split; [exact R2 |].
  intros env enc pcm Husb Hnull Henc Hlen.
  pose proof (send_data_usb_pcm cfg i env st pcm enc Husb Hnull Henc Hlen)
    as H.
  destruct (send_data cfg i env st pcm) as [[st' pcm'] out].
  destruct H as [-> _]. simpl. rewrite R2. rewrite take_nil. simpl.
  rewrite Nat.sub_0_r. reflexivity.
Qed.

(** ** The buffers of [tx_pool] *)

(** X13. Credits are backed by buffers. In every execution the credits in
    [lc3_encoder_sem] and those the encoder thread holds for the cycle
    under way are at most the free buffers of [tx_pool], and the free
    buffers and those queued in the stack are the [TOTAL_BUF_NEEDED]
    buffers of the pool. So a call of [send_data] is never kept waiting
    in [net_buf_alloc]: whenever the encoder thread stands before one,
    the pool has a free buffer and the call runs. *)
Theorem send_data_never_waits_for_a_buffer cfg sched s :
  run cfg sched (boot cfg) = Some s ->
  (count (lc3_encoder_sem s) + pending cfg (encoder_pc s) <= tx_pool s)%nat /\
  (tx_pool s + sum_list (iso_queue s))%nat = TOTAL_BUF_NEEDED cfg /\
  forall i env,
    encoder_pc s = encoder_send i ->
    (0 < tx_pool s)%nat /\
    exists s', step cfg (ev_encoder_send env) s = Some s'.
Proof.
  intros Hrun. pose proof (inv_run _ _ _ Hrun) as I.
  pose proof I as [Hs Hq Hl Hls Hpool Hcred Hmpc Hepc _ _ _ _ _ _].
  assert (Hle : (seeded cfg (main_pc s) <= TOTAL_BUF_NEEDED cfg)%nat).
  { destruct (main_pc s); simpl in *;
      unfold TOTAL_BUF_NEEDED, BROADCAST_ENQUEUE_COUNT, stream_count in *; lia. }
  split; [lia |]. split; [exact Hpool |].
  intros i env Hpc.
  pose proof (pool_not_empty cfg s i I Hpc) as Hpos.
  split; [exact Hpos |].
  unfold step. rewrite Hpc in *.
  assert (Hi : (i < length (streams s))%nat) by (rewrite Hs; exact Hepc).
  apply lookup_lt_is_Some_2 in Hi as [st ->].
  destruct (tx_pool s) as [| pool]; [lia |].
  destruct (send_data cfg i env st (send_pcm_data s)) as [[st' pcm] out].
  eexists. reflexivity.
Qed.

Lemma send_data_buffers cfg i env st pcm :
  let out := (send_data cfg i env st pcm).2 in
  count_if is_alloc out
  = (count_if is_unref out + count_if is_accepted out)%nat /\
  count_if is_accepted out = (if accepted out then 1 else 0)%nat /\
  count_if is_sent out = 0%nat.
Proof.
  cbv zeta. rewrite (proj1 (send_data_spec cfg i env st pcm)).
  unfold send_data_writes.
  destruct (net_buf_alloc_null env); [simpl; auto |].
  destruct (lc3_encoder st); [| simpl; auto].
  destruct (lc3_encode_ret env =? -1); [simpl; auto |].
  destruct (Z.ltb_spec (bt_bap_stream_send_ret env) 0) as [Hlt | Hge].
  - simpl. destruct (Z.leb_spec 0 (bt_bap_stream_send_ret env)); [lia |].
    simpl. auto.
  - destruct (_ =? 0); simpl;
      (destruct (Z.leb_spec 0 (bt_bap_stream_send_ret env)); [| lia]);
      simpl; auto.
Qed.

Lemma count_if_quiet (p : effect -> bool) (t out : list effect) :
  (forall e, p e = true -> is_buffer_effect e = true) ->
  forallb (fun e => negb (is_buffer_effect e)) out = true ->
  count_if p (t ++ out) = count_if p t.
Proof.
  intros Hp Hout. rewrite count_if_app.
  assert (count_if p out = 0%nat) as ->; [| lia].
  induction out as [| e out IH]; [reflexivity |].
  simpl in *. apply andb_prop in Hout as [He Hout]. rewrite (IH Hout).
  destruct (p e) eqn:E; [| reflexivity].
  rewrite (Hp e E) in He. discriminate.
Qed.

Lemma printk_quiet (out : list effect) :
  forallb is_printk out = true ->
  forallb (fun e => negb (is_buffer_effect e)) out = true.
Proof.
  rewrite !forallb_forall. intros H e He. specialize (H e He).
  destruct e; simpl in *; congruence.
Qed.

Lemma alloc_is_buffer e : is_alloc e = true -> is_buffer_effect e = true.
Proof. unfold is_buffer_effect. intros ->. reflexivity. Qed.
Lemma unref_is_buffer e : is_unref e = true -> is_buffer_effect e = true.
Proof. unfold is_buffer_effect. intros ->. rewrite orb_true_r. reflexivity. Qed.
Lemma accepted_is_buffer e : is_accepted e = true -> is_buffer_effect e = true.
Proof. unfold is_buffer_effect. intros ->. rewrite orb_true_r. reflexivity. Qed.
Lemma sent_is_buffer e : is_sent e = true -> is_buffer_effect e = true.
Proof. unfold is_buffer_effect. intros ->. rewrite orb_true_r. reflexivity. Qed.

Lemma buffers_quiet (s s' : sys) (out : list effect) :
  trace s' = trace s ++ out ->
  iso_queue s' = iso_queue s ->
  forallb (fun e => negb (is_buffer_effect e)) out = true ->
  buffers_accounted s -> buffers_accounted s'.
Proof.
  intros Htr Hq Hout [H1 H2].
  split; rewrite Htr, ?Hq;
    rewrite ?(count_if_quiet is_alloc _ _ alloc_is_buffer Hout),
      ?(count_if_quiet is_unref _ _ unref_is_buffer Hout),
      ?(count_if_quiet is_accepted _ _ accepted_is_buffer Hout),
      ?(count_if_quiet is_sent _ _ sent_is_buffer Hout);
    assumption.
Qed.

Lemma buffers_accounted_step cfg ev s s' :
  inv cfg s -> buffers_accounted s -> step cfg ev s = Some s' ->
  buffers_accounted s'.
Proof.
  intros I B H.
  pose proof I as [Hs Hq Hl Hls Hpool Hcred Hmpc Hepc _ _ _ _ _ _].
  destruct ev.
  - destruct (step_effects _ _ _ _ H) as (out & Htr & Hout).
    unfold step in H. destruct (main_pc s); try discriminate.
    injection H as <-.
    destruct (main_setup_spec cfg env s)
      as (_ & _ & _ & _ & _ & _ & _ & _ & Hq' & _).
    apply (buffers_quiet s _ out Htr Hq' (printk_quiet _ Hout) B).
  - destruct (step_effects _ _ _ _ H) as (out & Htr & Hout).
    assert (Hq' : iso_queue s' = iso_queue s).
    { unfold step in H. destruct (main_pc s); try discriminate.
      - destruct (k_sem_take (sem_started s)); [| discriminate].
        destruct (main_at_wait_started cfg _). injection H as <-. reflexivity.
      - injection H as <-. reflexivity. }
    apply (buffers_quiet s _ out Htr Hq'); [| exact B].
    destruct Hout as [(i & out' & _ & -> & Ho) | (i & j & _ & ->)];
      [| reflexivity].
    simpl. apply printk_quiet, Ho.
  - destruct (step_effects _ _ _ _ H) as (out & Htr & Hout).
    assert (Hq' : iso_queue s' = iso_queue s).
    { unfold step in H. destruct (encoder_pc s); try discriminate.
      injection H as <-. reflexivity. }
    apply (buffers_quiet s _ out Htr Hq' (printk_quiet _ Hout) B).
  - destruct (step_effects _ _ _ _ H) as (out & Htr & _ & -> & _).
    assert (Hq' : iso_queue s' = iso_queue s).
    { unfold step in H. destruct (encoder_pc s); try discriminate.
      destruct (k_sem_take (lc3_encoder_sem s)); [| discriminate].
      injection H as <-. reflexivity. }
    apply (buffers_quiet s _ _ Htr Hq'); [reflexivity | exact B].
  - unfold step in H.
    destruct (encoder_pc s) as [| | i | i | |] eqn:Hpc; try discriminate.
    destruct (streams s !! i) as [st |] eqn:Hst; [| discriminate].
    destruct (tx_pool s) as [| pool] eqn:Htx; [discriminate |].
    pose proof (send_data_buffers cfg i env st (send_pcm_data s))
      as (A1 & A2 & A3).
    destruct (send_data cfg i env st (send_pcm_data s)) as [[st' pcm] out].
    cbn [snd] in A1, A2, A3. injection H as <-.
    assert (Hi : (i < length (iso_queue s))%nat) by (rewrite Hq; exact Hepc).
    pose proof (accepted_queue _ _ Hi) as Hsum.
    destruct B as [B1 B2].
    split; destruct (accepted out); simpl; rewrite !count_if_app, ?Hsum; lia.
  - destruct (step_effects _ _ _ _ H) as (out & Htr & ->).
    assert (Hq' : iso_queue s' = iso_queue s).
    { unfold step in H. destruct (streams s !! stream); [| discriminate].
      injection H as <-. reflexivity. }
    apply (buffers_quiet s _ _ Htr Hq'); [reflexivity | exact B].
  - destruct (step_effects _ _ _ _ H) as (out & Htr & ->).
    assert (Hq' : iso_queue s' = iso_queue s).
    { unfold step in H. destruct (streams s !! stream); [| discriminate].
      injection H as <-. reflexivity. }
    apply (buffers_quiet s _ _ Htr Hq'); [reflexivity | exact B].
  - unfold step in H.
    destruct (iso_queue s !! stream) as [[| q] |] eqn:Hqi; try discriminate.
    injection H as <-. destruct B as [B1 B2].
    pose proof (sum_list_insert _ _ _ q Hqi) as Hsum.
    split; simpl; rewrite !count_if_app; simpl; lia.
  - destruct (step_effects _ _ _ _ H) as (out & Htr & Hout).
    assert (Hq' : iso_queue s' = iso_queue s).
    { unfold step in H. destruct (CONFIG_USB_DEVICE_AUDIO cfg); [| discriminate].
      destruct (usb_count s =? INT_MAX); [discriminate |].
      destruct (usb_put cfg 0 _ (streams s)). injection H as <-. reflexivity. }
    apply (buffers_quiet s _ out Htr Hq' (printk_quiet _ Hout) B).
Qed.

(** X14. No buffer of [tx_pool] is lost and none is released twice. In every
    call of [send_data], whatever its callees answer, the buffer it got is
    either taken by the stack or released, once. So in every execution
    the buffers got from the pool are those released and those the stack
    took, and the buffers the stack took are those whose sent
    notification has come and those still queued there. *)
Theorem every_buffer_is_sent_or_released cfg sched s :
  run cfg sched (boot cfg) = Some s ->
  (forall i env st pcm,
      count_if is_alloc (send_data cfg i env st pcm).2
      = (count_if is_unref (send_data cfg i env st pcm).2
         + count_if is_accepted (send_data cfg i env st pcm).2)%nat /\
      (count_if is_alloc (send_data cfg i env st pcm).2 <= 1)%nat) /\
  count_if is_alloc (trace s)
  = (count_if is_unref (trace s) + count_if is_accepted (trace s))%nat /\
  count_if is_accepted (trace s)
  = (count_if is_sent (trace s) + sum_list (iso_queue s))%nat /\
  (count_if is_alloc (trace s) + tx_pool s)%nat
  = (count_if is_unref (trace s) + count_if is_sent (trace s)
     + TOTAL_BUF_NEEDED cfg)%nat.
Proof.
  intros Hrun.
  assert (H : inv cfg s /\ buffers_accounted s).
  { refine (run_invariant cfg (fun s => inv cfg s /\ buffers_accounted s)
              _ sched (boot cfg) s _ Hrun).
    - intros ev s1 s2 [I B] H.
      split; [exact (inv_step _ _ _ _ I H)
             | exact (buffers_accounted_step _ _ _ _ I B H)].
    - split; [apply inv_boot |].
      split; simpl; rewrite ?sum_list_replicate_0; reflexivity. }
  destruct H as [I [B1 B2]].
  pose proof I as [_ _ _ _ Hpool _ _ _ _ _ _ _ _ _].
  split; [| split; [exact B1 | split; [exact B2 | lia]]].
  intros i env st pcm.
  destruct (send_data_buffers cfg i env st pcm) as (A1 & A2 & A3).
  split; [exact A1 |].
  pose proof (send_data_one_call cfg i env st pcm) as Hone.
  assert (forall out, (count_if is_alloc out <= count_if is_send_data out)%nat)
    as Hle.
  { induction out as [| e out IH]; simpl; [lia |].
    destruct e as [| [] | | | | | | | |]; simpl; lia. }
  specialize (Hle (send_data cfg i env st pcm).2). lia.
Qed.

(** ** The start-up of [main] *)

Lemma main_before_thread_outcome cfg env :
  (thread_start_ok cfg env = true /\
   exists out, main_before_thread cfg env = (out, inr tt)) \/
  (thread_start_ok cfg env = false /\
   exists out, main_before_thread cfg env = (out, inl 0)).
Proof.
  unfold thread_start_ok, main_before_thread, fail_if, nonzero, bind, emit,
    return_, pure.
  destruct (bt_enable env =? 0); cbn [negb andb]; [| right; eauto].
  destruct (CONFIG_USB_DEVICE_AUDIO cfg); [| left; eauto].
  destruct (device_is_ready env); cbn [negb andb]; [| right; eauto].
  destruct (usb_enable env =? 0); cbn [negb andb orb]; [left; eauto |].
  destruct (usb_enable env =? - EALREADY); cbn [negb]; [left | right]; eauto.
Qed.

Lemma main_after_thread_outcome cfg env :
  (advertising_ok cfg env = true /\
   exists out, main_after_thread cfg env = (out, inr tt)) \/
  (advertising_ok cfg env = false /\
   exists out code,
     main_after_thread cfg env = (out, inl code) /\
     (code <> 0 -> CONFIG_STATIC_BROADCAST_ID cfg = false /\
                   code = bt_rand env)).
Proof.
  unfold advertising_ok, main_after_thread, setup_broadcast_source, fail_if,
    nonzero, bind, emit, return_, pure.
  destruct (bt_le_ext_adv_create env =? 0); cbn [negb andb];
    [| right; split; [reflexivity |]; do 2 eexists; split;
       [reflexivity | congruence]].
  destruct (bt_le_per_adv_set_param env =? 0); cbn [negb andb];
    [| right; split; [reflexivity |]; do 2 eexists; split;
       [reflexivity | congruence]].
  destruct (bt_bap_broadcast_source_create env =? 0); cbn [negb andb];
    [| right; split; [reflexivity |]; do 2 eexists; split;
       [reflexivity | congruence]].
  destruct (CONFIG_STATIC_BROADCAST_ID cfg); cbn [negb andb orb].
  all: try (destruct (Z.eqb_spec (bt_rand env) 0); cbn [negb andb];
            [| right; split; [reflexivity |]; do 2 eexists; split;
               [reflexivity | auto]]).
  all: destruct (bt_le_ext_adv_set_data env =? 0); cbn [negb andb];
    [| right; split; [reflexivity |]; do 2 eexists; split;
       [reflexivity | congruence]].
  all: destruct (bt_bap_broadcast_source_get_base env =? 0); cbn [negb andb];
    [| right; split; [reflexivity |]; do 2 eexists; split;
       [reflexivity | congruence]].
  all: destruct (bt_le_per_adv_set_data env =? 0); cbn [negb andb];
    [| right; split; [reflexivity |]; do 2 eexists; split;
       [reflexivity | congruence]].
  all: destruct (bt_le_ext_adv_start env =? 0); cbn [negb andb];
    [| right; split; [reflexivity |]; do 2 eexists; split;
       [reflexivity | congruence]].
  all: destruct (bt_le_per_adv_start env =? 0); cbn [negb andb];
    [| right; split; [reflexivity |]; do 2 eexists; split;
       [reflexivity | congruence]].
  all: destruct (bt_bap_broadcast_source_start env =? 0); cbn [negb andb];
    [left; eauto
    | right; split; [reflexivity |]; do 2 eexists; split;
      [reflexivity | congruence]].
Qed.


(** X15. How the start-up of [main] ends. The encoder thread is started
    exactly when the calls before [k_thread_start] succeed ([usb_enable]
    may also answer [-EALREADY]); it is then started whatever the later
    calls answer. [main] comes to the loop that waits for the streams
    exactly when every call succeeds; otherwise it returns, and the value
    it returns is 0 except when [bt_rand] fails, whose error it returns. *)
Theorem main_startup_outcomes cfg env s :
  (thread_start_ok cfg env = true ->
   encoder_pc (main_setup cfg env s) = encoder_entry) /\
  (thread_start_ok cfg env = false ->
   encoder_pc (main_setup cfg env s) = encoder_pc s /\
   main_pc (main_setup cfg env s) = main_returned 0) /\
  (thread_start_ok cfg env = true -> advertising_ok cfg env = true ->
   main_pc (main_setup cfg env s) = (main_at_wait_started cfg 0).1) /\
  (thread_start_ok cfg env = true -> advertising_ok cfg env = false ->
   exists code,
     main_pc (main_setup cfg env s) = main_returned code /\
     (code <> 0 -> CONFIG_STATIC_BROADCAST_ID cfg = false /\
                   code = bt_rand env)).
Proof.
  unfold main_setup.
  destruct (main_before_thread_outcome cfg env)
    as [[Hb (o1 & Hb')] | [Hb (o1 & Hb')]]; rewrite Hb', Hb.
  - destruct (main_after_thread_outcome cfg env)
      as [[Ha (o2 & Ha')] | [Ha (o2 & code & Ha' & Hcode)]]; rewrite Ha', Ha.
    + destruct (main_at_wait_started cfg 0) as [pc out].
      split; [intros _ | split; [intros [=] | split; [intros _ _
                                                      | intros _ [=]]]];
        destruct (nonzero (bt_enable env)), (CONFIG_USB_DEVICE_AUDIO cfg);
        reflexivity.
    + split; [intros _ | split; [intros [=] | split; [intros _ [=]
                                                      | intros _ _]]].
      * destruct (nonzero (bt_enable env)), (CONFIG_USB_DEVICE_AUDIO cfg);
          reflexivity.
      * exists code. split; [| exact Hcode].
        destruct (nonzero (bt_enable env)), (CONFIG_USB_DEVICE_AUDIO cfg);
          reflexivity.
  - split; [intros [=] | split; [intros _ | split; intros [=]]].
    destruct (nonzero (bt_enable env)); split; reflexivity.
Qed.

Lemma count_if_zero (p : effect -> bool) (t : list effect) :
  (forall e, In e t -> p e = false) -> count_if p t = 0%nat.
Proof.
  induction t as [| e t IH]; intros H; [reflexivity |].
  simpl. rewrite (H e (or_introl eq_refl)), IH; [reflexivity |].
  intros x Hx. apply H. right. exact Hx.
Qed.

Lemma step_keeps_returned cfg ev s s' code :
  main_pc s = main_returned code -> step cfg ev s = Some s' ->
  main_pc s' = main_returned code.
Proof.
  intros Hpc H. destruct ev; unfold step in H; rewrite ?Hpc in H;
    try discriminate.
  - destruct (encoder_pc s); try discriminate. injection H as <-. exact Hpc.
  - destruct (encoder_pc s); try discriminate.
    destruct (k_sem_take (lc3_encoder_sem s)); [| discriminate].
    injection H as <-. exact Hpc.
  - destruct (encoder_pc s) as [| | a | a | |]; try discriminate.
    destruct (streams s !! a); [| discriminate].
    destruct (tx_pool s); [discriminate |].
    destruct (send_data cfg a env _ (send_pcm_data s)) as [[st' pcm] out].
    injection H as <-. destruct (accepted out); exact Hpc.
  - destruct (streams s !! stream); [| discriminate].
    injection H as <-. reflexivity.
  - destruct (streams s !! stream); [| discriminate].
    injection H as <-. reflexivity.
  - destruct (iso_queue s !! stream) as [[| q] |]; try discriminate.
    injection H as <-. reflexivity.
  - destruct (CONFIG_USB_DEVICE_AUDIO cfg); [| discriminate].
    destruct (usb_count s =? INT_MAX); [discriminate |].
    destruct (usb_put cfg 0 _ (streams s)). injection H as <-. exact Hpc.
Qed.

(** X16. After a failed start-up nothing is ever transmitted. When [main] has
    returned (a call of its start-up failed), then, although the encoder
    thread may have been started and may have set up its encoders, no
    credit has been seeded or taken, no buffer got, sent or released, and
    none ever will be: [main] stays returned in every continuation, the
    semaphore of the credits is empty and the encoder thread, if it runs,
    waits for its first credit. *)
Theorem failed_startup_never_transmits cfg sched s code :
  (0 < stream_count cfg)%nat ->
  run cfg sched (boot cfg) = Some s ->
  main_pc s = main_returned code ->
  count_if is_transmission (trace s) = 0%nat /\
  count (lc3_encoder_sem s) = 0%nat /\
  tx_pool s = TOTAL_BUF_NEEDED cfg /\
  step cfg ev_encoder_take s = None /\
  (forall env, step cfg (ev_encoder_send env) s = None) /\
  (forall i, step cfg (ev_sent i) s = None) /\
  forall sched' s', run cfg sched' s = Some s' ->
                    main_pc s' = main_returned code.
Proof.
  intros Hn Hrun Hpc.
  pose proof (inv_run _ _ _ Hrun)
    as [Hs Hq Hl Hls Hpool Hcred Hmpc Hepc _ _ Hwait _ _ _].
  pose proof (barrier_before_transmission _ _ _ Hrun) as Hbar.
  rewrite Hpc in *. simpl in Hcred, Hwait.
  assert (Hsum : sum_list (iso_queue s) = 0%nat) by lia.
  split; [| split; [lia | split; [lia | split; [| split; [| split]]]]].
  - apply count_if_zero. intros e Hin.
    destruct (is_transmission e) eqn:He; [| reflexivity].
    apply in_split in Hin as (t1 & t2 & Heq).
    destruct (Hbar t1 e t2 Heq He) as [Hle _].
    rewrite Heq, count_if_app in Hwait. lia.
  - unfold step. destruct (encoder_pc s); try reflexivity.
    unfold k_sem_take. replace (count (lc3_encoder_sem s)) with 0%nat by lia.
    reflexivity.
  - intros env. unfold step.
    destruct (encoder_pc s) as [| | a | a | |]; try reflexivity.
    simpl in Hcred. lia.
  - intros i. unfold step.
    destruct (iso_queue s !! i) as [[| q] |] eqn:Hqi; try reflexivity.
    apply lookup_sum_pos in Hqi. lia.
  - intros sched' s'.
    apply (run_invariant cfg (fun s => main_pc s = main_returned code)).
    + intros ev s1 s2 H1 H2. exact (step_keeps_returned _ _ _ _ _ H1 H2).
    + exact Hpc.
Qed.

Lemma step_keeps_tone cfg ev s s' :
  CONFIG_USB_DEVICE_AUDIO cfg = false ->
  main_pc s <> main_entry ->
  encoder_pc s <> encoder_not_started ->
  encoder_pc s <> encoder_entry ->
  step cfg ev s = Some s' ->
  main_pc s' <> main_entry /\
  encoder_pc s' <> encoder_not_started /\
  encoder_pc s' <> encoder_entry /\
  send_pcm_data s' = send_pcm_data s.
Proof.
  intros Husb Hm He1 He2 H. destruct ev; unfold step in H.
  - destruct (main_pc s); try discriminate. contradiction.
  - destruct (main_pc s) as [| a | a b | |] eqn:Hpc; try discriminate.
    + destruct (k_sem_take (sem_started s)); [| discriminate].
      destruct (main_at_wait_started cfg (S a)) as [pc out] eqn:Hat.
      injection H as <-. simpl. repeat split; auto.
      unfold main_at_wait_started, main_at_init_sending in Hat.
      repeat (destruct (_ <? _)%nat); injection Hat as <- <-; discriminate.
    + injection H as <-. simpl. repeat split; auto.
      unfold main_after_init_sending, main_at_init_sending.
      repeat (destruct (_ <? _)%nat); discriminate.
  - destruct (encoder_pc s); try discriminate. contradiction.
  - destruct (encoder_pc s) as [| | a | a | |] eqn:Hpc; try discriminate.
    destruct (k_sem_take (lc3_encoder_sem s)); [| discriminate].
    injection H as <-. simpl. repeat split; auto;
      unfold encoder_after_take; destruct (_ <? _)%nat; discriminate.
  - destruct (encoder_pc s) as [| | a | a | |] eqn:Hpc; try discriminate.
    destruct (streams s !! a) as [sta |]; [| discriminate].
    destruct (tx_pool s); [discriminate |].
    destruct (send_data_without_usb cfg a env sta (send_pcm_data s) Husb)
      as [Hpcm _].
    destruct (send_data cfg a env sta (send_pcm_data s)) as [[st' pcm] out].
    simpl in Hpcm. injection H as <-.
    destruct (accepted out); simpl; repeat split; auto;
      unfold encoder_after_send; destruct (_ <? _)%nat; discriminate.
  - destruct (streams s !! stream); [| discriminate].
    injection H as <-. simpl. auto.
  - destruct (streams s !! stream); [| discriminate].
    injection H as <-. simpl. auto.
  - destruct (iso_queue s !! stream) as [[| q] |]; try discriminate.
    injection H as <-. simpl. auto.
  - rewrite Husb in H. discriminate.
Qed.


(** X17. Without the USB headset the buffer [send_pcm_data] is written during
    the start-up only: once [main] has run its start-up and the encoder
    thread has reached its loop (or has returned), no step of the system
    changes it. Every frame of every stream, of the left one as of the
    right one, is encoded from the same samples. *)
Theorem tone_buffer_is_written_at_startup_only cfg sched s s' :
  CONFIG_USB_DEVICE_AUDIO cfg = false ->
  main_pc s <> main_entry ->
  encoder_pc s <> encoder_not_started ->
  encoder_pc s <> encoder_entry ->
  run cfg sched s = Some s' ->
  send_pcm_data s' = send_pcm_data s.
Proof.
  intros Husb Hm He1 He2 Hrun.
  enough (main_pc s' <> main_entry /\
          encoder_pc s' <> encoder_not_started /\
          encoder_pc s' <> encoder_entry /\
          send_pcm_data s' = send_pcm_data s) as (_ & _ & _ & H) by exact H.
  refine (run_invariant cfg
            (fun x => main_pc x <> main_entry /\
                      encoder_pc x <> encoder_not_started /\
                      encoder_pc x <> encoder_entry /\
                      send_pcm_data x = send_pcm_data s)
            _ sched s s' _ Hrun); [| auto].
  intros ev s1 s2 (H1 & H2 & H3 & H4) Hstep.
  destruct (step_keeps_tone cfg ev s1 s2 Husb H1 H2 H3 Hstep)
    as (K1 & K2 & K3 & K4).
  repeat split; try assumption. congruence.
Qed.

(** ** Stopped streams *)

Lemma without_stopped_app (t out : list effect) :
  without_stopped (t ++ out) = without_stopped t ++ without_stopped out.
Proof. apply List.filter_app. Qed.

Lemma same_but_stopped_refl s : same_but_stopped s s.
Proof. split; reflexivity. Qed.

Lemma same_but_stopped_trans s1 s2 s3 :
  same_but_stopped s1 s2 -> same_but_stopped s2 s3 -> same_but_stopped s1 s3.
Proof. intros [] []. split; congruence. Qed.

Ltac same_fields :=
  split; simpl; rewrite ?without_stopped_app; congruence.

Lemma main_setup_same cfg env s1 s2 :
  same_but_stopped s1 s2 ->
  same_but_stopped (main_setup cfg env s1) (main_setup cfg env s2).
Proof.
  intros []. unfold main_setup.
  destruct (main_before_thread cfg env) as [o1 [c1 | []]].
  - destruct (nonzero (bt_enable env)); same_fields.
  - destruct (main_after_thread cfg env) as [o2 [c2 | []]];
      [| destruct (main_at_wait_started cfg 0)];
      destruct (nonzero (bt_enable env)), (CONFIG_USB_DEVICE_AUDIO cfg);
      same_fields.
Qed.

Lemma step_same cfg ev s1 s2 t1 :
  same_but_stopped s1 s2 ->
  is_ev_stopped ev = false ->
  step cfg ev s1 = Some t1 ->
  exists t2, step cfg ev s2 = Some t2 /\ same_but_stopped t1 t2.
Proof.
  intros R Hev H. pose proof R as [].
  destruct ev; try discriminate; unfold step in *;
    rewrite <- ?same_main_pc0, <- ?same_encoder_pc0, <- ?same_sem_started0,
      <- ?same_lc3_encoder_sem0, <- ?same_streams0, <- ?same_tx_pool0,
      <- ?same_iso_queue0, <- ?same_globals0, <- ?same_pcm0,
      <- ?same_usb_count0.
  - destruct (main_pc s1) eqn:?; try discriminate. injection H as <-.
    eexists. split; [reflexivity |]. apply main_setup_same, R.
  - destruct (main_pc s1) eqn:?; try discriminate.
    + destruct (k_sem_take (sem_started s1)) eqn:?; [| discriminate].
      destruct (main_at_wait_started cfg _). injection H as <-.
      eexists. split; [reflexivity |]. same_fields.
    + injection H as <-. eexists. split; [reflexivity |]. same_fields.
  - destruct (encoder_pc s1) eqn:?; try discriminate. injection H as <-.
    eexists. split; [reflexivity |]. same_fields.
  - destruct (encoder_pc s1) eqn:?; try discriminate.
    destruct (k_sem_take (lc3_encoder_sem s1)) eqn:?; [| discriminate].
    injection H as <-. eexists. split; [reflexivity |]. same_fields.
  - destruct (encoder_pc s1) as [| | a | a | |] eqn:?; try discriminate.
    destruct (streams s1 !! a); [| discriminate].
    destruct (tx_pool s1) eqn:?; [discriminate |].
    destruct (send_data cfg a env _ (send_pcm_data s1)) as [[st' pcm] out].
    injection H as <-. eexists. split; [reflexivity |].
    destruct (accepted out); same_fields.
  - destruct (streams s1 !! stream); [| discriminate].
    injection H as <-. eexists. split; [reflexivity |]. same_fields.
  - destruct (iso_queue s1 !! stream) as [[| q] |]; try discriminate.
    injection H as <-. eexists. split; [reflexivity |]. same_fields.
  - destruct (CONFIG_USB_DEVICE_AUDIO cfg); [| discriminate].
    destruct (usb_count s1 =? INT_MAX); [discriminate |].
    destruct (usb_put cfg 0 _ (streams s1)).
    injection H as <-. eexists. split; [reflexivity |]. same_fields.
Qed.

Lemma step_stopped_same cfg i s t :
  step cfg (ev_stopped i) s = Some t -> same_but_stopped t s.
Proof.
  unfold step. destruct (streams s !! i); [| discriminate].
  intros [= <-]. split; simpl; rewrite ?without_stopped_app, ?app_nil_r;
    reflexivity.
Qed.

Lemma run_without_stopped cfg sched : forall s1 s2 t1,
  same_but_stopped s1 s2 ->
  run cfg sched s1 = Some t1 ->
  exists t2, run cfg (without_ev_stopped sched) s2 = Some t2 /\
             same_but_stopped t1 t2.
Proof.
  induction sched as [| ev sched IH]; intros s1 s2 t1 R H.
  - injection H as <-. exists s2. split; [reflexivity | exact R].
  - cbn [run] in H. destruct (step cfg ev s1) as [u1 |] eqn:Hstep;
      [| discriminate].
    unfold without_ev_stopped. cbn [List.filter].
    destruct (is_ev_stopped ev) eqn:Hev; cbn [negb].
    + destruct ev; try discriminate.
      apply step_stopped_same in Hstep.
      apply (IH u1 s2 t1); [| exact H].
      exact (same_but_stopped_trans _ _ _ Hstep R).
    + destruct (step_same cfg ev s1 s2 u1 R Hev Hstep) as (u2 & Hu2 & R').
      cbn [run]. rewrite Hu2. apply (IH u1 u2 t1 R' H).
Qed.

Lemma step_sem_stopped cfg ev s t :
  step cfg ev s = Some t ->
  limit (sem_stopped t) = limit (sem_stopped s) /\
  if is_ev_stopped ev
  then count (sem_stopped t)
       = (if (count (sem_stopped s) <? limit (sem_stopped s))%nat
          then S (count (sem_stopped s)) else count (sem_stopped s)) /\
       count_if is_stopped (trace t) = S (count_if is_stopped (trace s))
  else count (sem_stopped t) = count (sem_stopped s) /\
       count_if is_stopped (trace t) = count_if is_stopped (trace s).
Proof.
  intros H.
  assert (Hp : forall e, is_send_effect e = true -> is_stopped e = false)
    by (intros []; simpl; congruence).
  destruct (step_effects _ _ _ _ H) as (out & Htr & Hout).
  destruct ev; cbn [is_ev_stopped]; unfold step in H.
  - destruct (main_pc s); try discriminate. injection H as <-.
    rewrite Htr, (count_if_printk _ _ _ Hp Hout).
    unfold main_setup.
    destruct (main_before_thread cfg env) as [o1 [c1 | []]];
      [destruct (nonzero (bt_enable env)); auto |].
    destruct (main_after_thread cfg env) as [o2 [c2 | []]];
      [| destruct (main_at_wait_started cfg 0)];
      destruct (nonzero (bt_enable env)), (CONFIG_USB_DEVICE_AUDIO cfg);
      auto.
  - rewrite Htr.
    destruct Hout as [(i & out' & _ & -> & Ho) | (i & j & _ & ->)].
    + change (TookStarted :: out') with ([TookStarted] ++ out').
      rewrite app_assoc, (count_if_printk _ _ _ Hp Ho), count_if_app.
      simpl. rewrite Nat.add_0_r.
      destruct (main_pc s); try discriminate;
        [destruct (k_sem_take (sem_started s)); [| discriminate];
         destruct (main_at_wait_started cfg _) |];
        injection H as <-; auto.
    + rewrite count_if_app. simpl. rewrite Nat.add_0_r.
      destruct (main_pc s); try discriminate;
        [destruct (k_sem_take (sem_started s)); [| discriminate];
         destruct (main_at_wait_started cfg _) |];
        injection H as <-; auto.
  - rewrite Htr, (count_if_printk _ _ _ Hp Hout).
    destruct (encoder_pc s); try discriminate. injection H as <-. auto.
  - destruct Hout as (_ & -> & _). rewrite Htr, count_if_app. simpl.
    rewrite Nat.add_0_r.
    destruct (encoder_pc s); try discriminate.
    destruct (k_sem_take (lc3_encoder_sem s)); [| discriminate].
    injection H as <-. auto.
  - destruct Hout as (_ & Hout).
    rewrite Htr, (count_if_send_effects _ _ _ Hp Hout).
    destruct (encoder_pc s) as [| | a | a | |]; try discriminate.
    destruct (streams s !! a); [| discriminate].
    destruct (tx_pool s); [discriminate |].
    destruct (send_data cfg a env _ (send_pcm_data s)) as [[st' pcm] out'].
    injection H as <-. destruct (accepted out'); auto.
  - subst out. rewrite Htr, count_if_app. simpl. rewrite Nat.add_0_r.
    destruct (streams s !! stream); [| discriminate].
    injection H as <-. auto.
  - subst out. rewrite Htr, count_if_app. simpl.
    destruct (streams s !! stream); [| discriminate].
    injection H as <-. simpl. unfold stream_stopped_cb.
    rewrite k_sem_give_limit, k_sem_give_count. split; [reflexivity |].
    split; [reflexivity | lia].
  - destruct Hout as (-> & _). rewrite Htr, count_if_app. simpl.
    rewrite Nat.add_0_r.
    destruct (iso_queue s !! stream) as [[| q] |]; try discriminate.
    injection H as <-. auto.
  - rewrite Htr, (count_if_printk _ _ _ Hp Hout).
    destruct (CONFIG_USB_DEVICE_AUDIO cfg); [| discriminate].
    destruct (usb_count s =? INT_MAX); [discriminate |].
    destruct (usb_put cfg 0 _ (streams s)). injection H as <-. auto.
Qed.

(** X18. The program takes no notice of a stream that stops. Each stopped
    callback gives [sem_stopped], which nothing takes: the semaphore
    counts the callbacks up to its limit. Nothing else depends on them:
    the execution without its stopped callbacks runs as well and leads to
    the same streams, buffers, semaphores and threads and, but for the
    callbacks themselves, to the same trace. In particular the encoder
    thread goes on sending for a stream that has stopped. *)
Theorem stopped_streams_are_not_noticed cfg sched s :
  run cfg sched (boot cfg) = Some s ->
  count (sem_stopped s)
  = Nat.min (count_if is_stopped (trace s)) (stream_count cfg) /\
  exists s',
    run cfg (without_ev_stopped sched) (boot cfg) = Some s' /\
    same_but_stopped s s'.
Proof.
  intros Hrun. split.
  - enough (limit (sem_stopped s) = stream_count cfg /\
            count (sem_stopped s)
            = Nat.min (count_if is_stopped (trace s)) (stream_count cfg))
      as [_ H] by exact H.
    refine (run_invariant cfg
              (fun s => limit (sem_stopped s) = stream_count cfg /\
                        count (sem_stopped s)
                        = Nat.min (count_if is_stopped (trace s))
                                  (stream_count cfg))
              _ sched (boot cfg) s _ Hrun); [| split; reflexivity].
    intros ev s1 s2 [Hl Hc] Hstep.
    destruct (step_sem_stopped cfg ev s1 s2 Hstep) as [Hl' Hcase].
    split; [congruence |].
    destruct (is_ev_stopped ev); destruct Hcase as [-> ->]; [| exact Hc].
    rewrite Hl. destruct (Nat.ltb_spec (count (sem_stopped s1))
                            (stream_count cfg)); lia.
  - apply (run_without_stopped cfg sched (boot cfg) (boot cfg) s);
      [apply same_but_stopped_refl | exact Hrun].
Qed.

(** ** The parameters of [setup_broadcast_source] *)

Lemma subgroup_params_from_lookup cfg n : forall i k sg,
  subgroup_params_from cfg i n !! k = Some sg <->
  (k < n)%nat /\
  sg = {| params_count := streams_per_subgroup cfg;
          params := (i + k) * streams_per_subgroup cfg |}.
Proof.
  induction n as [| n IH]; intros i k sg; cbn [subgroup_params_from].
  - rewrite lookup_nil. split; [discriminate | lia].
  - destruct k as [| k]; simpl.
    + rewrite Nat.add_0_r. split; [intros [= <-]; split; [lia | reflexivity] |].
      intros [_ ->]. reflexivity.
    + rewrite IH. replace (S i + k)%nat with (i + S k)%nat by lia.
      split; intros [H1 H2]; (split; [lia | exact H2]).
Qed.

Lemma stream_params_from_lookup n : forall j k p,
  stream_params_from j n !! k = Some p <->
  (k < n)%nat /\
  p = {| sp_stream := j + k;
         sp_data := if (j + k =? 0)%nat then left_stream else right_stream |}.
Proof.
  induction n as [| n IH]; intros j k p; cbn [stream_params_from].
  - rewrite lookup_nil. split; [discriminate | lia].
  - destruct k as [| k]; simpl.
    + rewrite Nat.add_0_r. split; [intros [= <-]; split; [lia | reflexivity] |].
      intros [_ ->]. reflexivity.
    + rewrite IH. replace (S j + k)%nat with (j + S k)%nat by lia.
      split; intros [H1 H2]; (split; [lia | exact H2]).
Qed.

Lemma subgroup_params_from_length cfg n i :
  length (subgroup_params_from cfg i n) = n.
Proof. revert i; induction n; intros i; simpl; auto. Qed.

Lemma stream_params_from_length n j : length (stream_params_from j n) = n.
Proof. revert j; induction n; intros j; simpl; auto. Qed.

(** X19. The subgroups divide the streams among them as far as the division
    goes. Subgroup [i] points to [streams_per_subgroup] entries of
    [stream_params] from entry [i * streams_per_subgroup] on, all within
    the array; a stream belongs to a subgroup (to one only) exactly when
    its index is below [subgroup_count * streams_per_subgroup], so the
    [stream_count mod subgroup_count] last streams belong to none, and
    that product, not the number of streams, is what the message of
    [setup_broadcast_source] prints. Entry [j] of [stream_params] is
    stream [j], with the codec data of the left channel for the first
    stream and those of the right channel for every other. *)
Theorem subgroups_divide_the_streams cfg :
  (0 < CONFIG_BT_BAP_BROADCAST_SRC_SUBGROUP_COUNT cfg)%nat ->
  let subgroups := CONFIG_BT_BAP_BROADCAST_SRC_SUBGROUP_COUNT cfg in
  let per := streams_per_subgroup cfg in
  length (subgroup_param_array cfg) = subgroups /\
  length (stream_params_array cfg) = stream_count cfg /\
  (forall i sg, subgroup_param_array cfg !! i = Some sg ->
                params sg = (i * per)%nat /\ params_count sg = per /\
                (params sg + params_count sg <= stream_count cfg)%nat) /\
  (forall j, (exists i sg, subgroup_param_array cfg !! i = Some sg /\
                           in_subgroup sg j)
             <-> (j < subgroups * per)%nat) /\
  (forall j i i' sg sg',
      subgroup_param_array cfg !! i = Some sg -> in_subgroup sg j ->
      subgroup_param_array cfg !! i' = Some sg' -> in_subgroup sg' j ->
      i = i') /\
  (stream_count cfg - subgroups * per)%nat
  = (stream_count cfg mod subgroups)%nat /\
  (forall env, exists out,
      (setup_broadcast_source cfg env).1
      = Printk "Creating broadcast source with %zu subgroups with %zu streams"
               [Z.of_nat subgroups; Z.of_nat (subgroups * per)] :: out) /\
  (forall j p, stream_params_array cfg !! j = Some p ->
               sp_stream p = j /\
               (sp_data p = left_stream <-> j = 0%nat)).
Proof.
  intros Hpos subgroups per.
  assert (Hdiv : (subgroups * per <= stream_count cfg)%nat).
  { unfold per, streams_per_subgroup. fold subgroups.
    apply Nat.Div0.mul_div_le. }
  unfold subgroup_param_array, stream_params_array. fold subgroups.
  split; [| split; [| split; [| split; [| split; [| split; [| split]]]]]].
  - apply subgroup_params_from_length.
  - apply stream_params_from_length.
  - intros i sg [Hi ->]%subgroup_params_from_lookup. simpl.
    fold per. repeat split. nia.
  - intros j. split.
    + intros (i & sg & [Hi ->]%subgroup_params_from_lookup & Hin).
      unfold in_subgroup in Hin. simpl in Hin. fold per in Hin. nia.
    + intros Hj. assert (Hper : (0 < per)%nat) by nia.
      exists (j / per)%nat. eexists. split.
      * apply subgroup_params_from_lookup. split; [| reflexivity].
        apply Nat.Div0.div_lt_upper_bound. lia.
      * unfold in_subgroup. simpl. fold per.
        pose proof (Nat.div_mod_eq j per).
        pose proof (Nat.mod_upper_bound j per ltac:(lia)). nia.
  - intros j i i' sg sg' [Hi ->]%subgroup_params_from_lookup Hin
      [Hi' ->]%subgroup_params_from_lookup Hin'.
    unfold in_subgroup in *. simpl in *. fold per in Hin, Hin'. nia.
  - unfold per, streams_per_subgroup. fold subgroups.
    pose proof (Nat.div_mod_eq (stream_count cfg) subgroups). lia.
  - intros env. unfold setup_broadcast_source, bind, emit.
    destruct (fail_if _ _ _ _) as [o r]. exists o. cbn [fst app].
    do 4 f_equal.
    unfold per, streams_per_subgroup, stream_count. fold subgroups.
    rewrite Nat2Z.inj_mul, Nat2Z.inj_div. reflexivity.
  - intros j p [Hj ->]%stream_params_from_lookup. simpl.
    split; [reflexivity |]. destruct j; simpl; split; congruence.
Qed.


(** ** [fill_audio_buf_sin] *)

Lemma write_sample_length buf i v :
  length (write_sample buf i v) = length buf.
Proof. unfold write_sample. rewrite !length_insert. reflexivity. Qed.

Lemma write_sample_lookup buf i v :
  (2 * i + 1 < length buf)%nat ->
  write_sample buf i v !! (2 * i)%nat = Some (Z.land v 0xff) /\
  write_sample buf i v !! (2 * i + 1)%nat
  = Some (Z.land (Z.shiftr v 8) 0xff).
Proof.
  intros Hlt. unfold write_sample. split.
  - rewrite list_lookup_insert_ne by lia.
    apply list_lookup_insert_eq. lia.
  - apply list_lookup_insert_eq. rewrite length_insert. lia.
Qed.

Lemma write_sample_lookup_other buf i v j :
  j <> (2 * i)%nat -> j <> (2 * i + 1)%nat ->
  write_sample buf i v !! j = buf !! j.
Proof.
  intros H1 H2. unfold write_sample.
  rewrite !list_lookup_insert_ne by lia. reflexivity.
Qed.

Section WithSine.

Variable sine_sample : Z -> nat -> Z.

Lemma fill_loop_spec period n : forall i buf,
  (2 * (i + n) <= length buf)%nat ->
  length (fill_loop sine_sample period buf i n) = length buf /\
  (forall k, (i <= k < i + n)%nat ->
     fill_loop sine_sample period buf i n !! (2 * k)%nat
     = Some (Z.land (sine_sample period k) 0xff) /\
     fill_loop sine_sample period buf i n !! (2 * k + 1)%nat
     = Some (Z.land (Z.shiftr (sine_sample period k) 8) 0xff)) /\
  (forall j, (j < 2 * i \/ 2 * (i + n) <= j)%nat ->
     fill_loop sine_sample period buf i n !! j = buf !! j).
Proof.
  induction n as [| n IH]; intros i buf Hlen; cbn [fill_loop].
  - split; [reflexivity |]. split; [intros k Hk; lia | reflexivity].
  - destruct (IH (S i) (write_sample buf i (sine_sample period i)))
      as (H1 & H2 & H3); [rewrite write_sample_length; lia |].
    rewrite write_sample_length in H1.
    destruct (write_sample_lookup buf i (sine_sample period i)) as [W1 W2];
      [lia |].
    split; [exact H1 |]. split.
    + intros k Hk. destruct (decide (k = i)) as [-> | Hne].
      * rewrite !H3 by lia. auto.
      * apply H2. lia.
    + intros j Hj. rewrite H3 by lia.
      apply write_sample_lookup_other; lia.
Qed.

(** X20. The sine wave stays within [send_pcm_data]. For a frame of at most
    [MAX_FRAME_DURATION_US] at a sample rate of at most [MAX_SAMPLE_RATE],
    [fill_audio_buf_sin] writes [length_us * sample_rate_hz / 1000000]
    samples, at most the [MAX_NUM_SAMPLES] the buffer has: sample [i] gets
    the 16 bits of its value, the bytes after the last sample written are
    left as they were, and the length of the buffer is kept. At the
    maximal duration and rate the whole buffer is written, so nothing of
    the mock data of [main] is left. *)
Theorem sine_is_written_within_the_buffer cfg buf
    length_us frequency_hz sample_rate_hz :
  0 <= length_us <= MAX_FRAME_DURATION_US ->
  0 <= sample_rate_hz <= MAX_SAMPLE_RATE cfg ->
  frequency_hz <> 0 ->
  length buf = sizeof_send_pcm_data cfg ->
  let n := Z.to_nat (length_us * sample_rate_hz / USEC_PER_SEC) in
  let period := Z.quot sample_rate_hz frequency_hz in
  exists buf',
    fill_audio_buf_sin_bytes sine_sample buf length_us frequency_hz
                             sample_rate_hz = Some buf' /\
    length buf' = length buf /\
    Z.of_nat n <= MAX_NUM_SAMPLES cfg /\
    (forall i, (i < n)%nat ->
       buf' !! (2 * i)%nat = Some (Z.land (sine_sample period i) 0xff) /\
       buf' !! (2 * i + 1)%nat
       = Some (Z.land (Z.shiftr (sine_sample period i) 8) 0xff)) /\
    (forall j, (2 * n <= j)%nat -> buf' !! j = buf !! j) /\
    (length_us = MAX_FRAME_DURATION_US ->
     sample_rate_hz = MAX_SAMPLE_RATE cfg ->
     (2 * n)%nat = length buf).
Proof.
  intros Hus Hrate Hfreq Hlen n period.
  assert (Hmax : MAX_SAMPLE_RATE cfg <= 48000 /\
                 MAX_NUM_SAMPLES cfg * USEC_PER_SEC
                 = MAX_FRAME_DURATION_US * MAX_SAMPLE_RATE cfg /\
                 0 <= MAX_NUM_SAMPLES cfg).
  { unfold MAX_NUM_SAMPLES, MAX_SAMPLE_RATE, BROADCAST_SAMPLE_RATE.
    destruct (CONFIG_BAP_BROADCAST cfg); cbv; repeat split; congruence. }
  destruct Hmax as (Hmax & Hnum & Hnum0).
  unfold MAX_FRAME_DURATION_US, USEC_PER_SEC in *.
  assert (Hprod : 0 <= length_us * sample_rate_hz <= 480000000) by nia.
  assert (Hn : 0 <= length_us * sample_rate_hz / 1000000
               <= MAX_NUM_SAMPLES cfg).
  { split; [apply Z.div_pos; lia |].
    apply Z.div_le_upper_bound; [lia | nia]. }
  assert (Hsize : Z.of_nat (length buf) = 2 * MAX_NUM_SAMPLES cfg).
  { rewrite Hlen. unfold sizeof_send_pcm_data. rewrite Z2Nat.id by lia.
    reflexivity. }
  unfold fill_audio_buf_sin_bytes, sine_num_samples, INT_MIN, INT_MAX,
    UINT_MAX, USEC_PER_SEC.
  destruct (Z.eqb_spec frequency_hz 0) as [| _]; [contradiction |].
  destruct (Z.leb_spec (-2147483648) (length_us * sample_rate_hz)); [| lia].
  destruct (Z.leb_spec (length_us * sample_rate_hz) 2147483647); [| lia].
  cbn [andb negb].
  rewrite (Z.mod_small (length_us * sample_rate_hz)) by lia.
  destruct (Z.ltb_spec (Z.of_nat (length buf))
              (2 * (length_us * sample_rate_hz / 1000000))); [lia |].
  fold n. fold period.
  destruct (fill_loop_spec period n 0 buf) as (F1 & F2 & F3); [unfold n; lia |].
  eexists. split; [reflexivity |]. split; [exact F1 |].
  split; [unfold n; lia |]. split; [intros i Hi; apply F2; lia |].
  split; [intros j Hj; apply F3; lia |].
  intros -> ->. unfold n.
  replace (10000 * MAX_SAMPLE_RATE cfg / 1000000) with (MAX_NUM_SAMPLES cfg)
    by (apply Z.div_unique_exact; lia).
  lia.
Qed.

End WithSine.

(** The theorem at a packet of 192 bytes. *)
Lemma data_received_bounds_witness :
  is_Some (data_received usb_config (Some (replicate 192 7)) 192 [] 0).
Proof.
  destruct (data_received_bounds usb_config (replicate 192 7) 192 [] 0)
    as (_ & _ & H).
  destruct H as (H & _); [lia | rewrite length_replicate; lia |].
  apply H; [apply Nat.leb_le; reflexivity | discriminate].
Defined.

(** The theorem at a packet of three frames that comes after the
    start-up, of which the 16 kHz preset takes the first. *)
Lemma data_received_downsampling_witness :
  exists s',
    step usb_config (ev_usb_data [1; 2] [3; 4])
         (state_after usb_config startup) = Some s' /\
    usb_count s' = 1.
Proof.
  assert (Hr : exists r,
             data_received usb_config (Some three_frames) 12
                           (streams (state_after usb_config startup))
                           (usb_count (state_after usb_config startup))
             = Some r /\
             usb_count_after r = 1)
    by (eexists; split; vm_compute; reflexivity).
  destruct Hr as (r & Hr & Hc).
  pose proof (data_received_takes_every_ratio_th_frame usb_config
                three_frames 12 (state_after usb_config startup) r
                eq_refl ltac:(lia) Hr)
    as H.
  cbv zeta in H.
  destruct H as (_ & _ & _ & _ & _ & s' & Hstep & _ & Hcount & _).
  exists s'. split; [exact Hstep | congruence].
Defined.

(** The theorem at a ring of three bytes that gets two more. *)
Lemma usb_audio_appended_witness :
  exists st',
    (usb_put usb_config 0 [[9; 9]; []] [short_ring_stream]).1 !! 0%nat
    = Some st' /\
    audio_ring_buf st' = [1; 2; 3; 9; 9].
Proof.
  destruct (usb_audio_is_appended_or_dropped usb_config [9; 9] []
              [short_ring_stream] 0 short_ring_stream eq_refl)
    as (st' & H1 & H2 & _).
  exists st'. split; [exact H1 | exact H2].
Defined.

(** The theorem at the left channel of ten packets that come after the
    start-up. *)
Lemma ten_usb_packets_witness :
  exists s' st',
    run usb_config (map (fun p => ev_usb_data p.1 p.2) ten_packets)
        (state_after usb_config startup) = Some s' /\
    streams s' !! 0%nat = Some st' /\
    audio_ring_buf st' = replicate 320 1.
Proof.
  destruct (ten_usb_packets_make_one_frame usb_config 0 ten_packets
              (state_after usb_config startup)
              (stream_with 0 0 {| dt_us := 10000; sr_hz := 16000 |} [])
              {| dt_us := 10000; sr_hz := 16000 |})
    as (s' & st' & H1 & H2 & H3 & _).
  - reflexivity.
  - lia.
  - vm_compute. reflexivity.
  - reflexivity.
  - reflexivity.
  - reflexivity.
  - vm_compute. discriminate.
  - repeat constructor.
  - exists s', st'. split; [exact H1 |]. split; [exact H2 | exact H3].
Defined.

(** The theorem at a call without the USB headset. *)
Lemma pcm_frame_witness :
  (send_data reference_config 0 send_ok short_ring_stream [5; 6]).1.2 = [5; 6].
Proof.
  destruct (pcm_frame_is_of_the_stream_alone reference_config 0 send_ok
              short_ring_stream [5; 6] [5; 6]
              {| dt_us := 10000; sr_hz := 16000 |}) as [_ H].
  apply H. reflexivity.
Defined.

(** The theorem at the third of three streams, after a packet of the
    headset. *)
Lemma usb_audio_third_stream_witness :
  (send_data three_stream_usb_config 2 send_ok
             (stream_with 0 0 {| dt_us := 10000; sr_hz := 16000 |} [])
             (replicate 320 7)).1.2
  = replicate 320 0.
Proof.
  destruct (usb_audio_reaches_two_streams_only three_stream_usb_config
              startup_three_streams
              (state_after three_stream_usb_config startup_three_streams)
              2 (stream_with 0 0 {| dt_us := 10000; sr_hz := 16000 |} []))
    as [_ H].
  - vm_compute. reflexivity.
  - vm_compute. reflexivity.
  - destruct H as [_ H]; [lia |].
    apply (H send_ok {| dt_us := 10000; sr_hz := 16000 |}); reflexivity.
Defined.

(** The theorem when the encoder thread stands before its first call of
    [send_data]. *)
Lemma send_data_never_waits_witness :
  (0 < tx_pool (state_after reference_config
                  (startup ++ [ev_encoder_take; ev_encoder_take])))%nat.
Proof.
  destruct (send_data_never_waits_for_a_buffer reference_config
              (startup ++ [ev_encoder_take; ev_encoder_take])
              (state_after reference_config
                 (startup ++ [ev_encoder_take; ev_encoder_take])))
    as (_ & _ & H); [vm_compute; reflexivity |].
  destruct (H 0%nat send_ok eq_refl) as [Hp _]. exact Hp.
Defined.

(** The theorem after one cycle of the reference scenario. *)
Lemma every_buffer_witness :
  count_if is_alloc (trace (state_after reference_config (startup ++ cycle)))
  = (count_if is_unref (trace (state_after reference_config (startup ++ cycle)))
     + count_if is_accepted
         (trace (state_after reference_config (startup ++ cycle))))%nat.
Proof.
  destruct (every_buffer_is_sent_or_released reference_config
              (startup ++ cycle)
              (state_after reference_config (startup ++ cycle)))
    as (_ & H & _); [vm_compute; reflexivity |].
  exact H.
Defined.

(** The theorem when every call succeeds. *)
Lemma main_startup_outcomes_witness :
  encoder_pc (main_setup reference_config main_ok (boot reference_config))
  = encoder_entry.
Proof.
  destruct (main_startup_outcomes reference_config main_ok
              (boot reference_config)) as (H & _).
  apply H. reflexivity.
Defined.

(** The theorem at a start-up in which the advertising set cannot be
    created. *)
Lemma failed_startup_witness :
  count_if is_transmission
           (trace (state_after reference_config failed_startup)) = 0%nat.
Proof.
  destruct (failed_startup_never_transmits reference_config failed_startup
              (state_after reference_config failed_startup) 0)
    as (H & _).
  - vm_compute. lia.
  - vm_compute. reflexivity.
  - reflexivity.
  - exact H.
Defined.

(** The theorem at a cycle of the reference scenario. *)
Lemma tone_buffer_witness :
  send_pcm_data (state_after reference_config (startup ++ cycle))
  = send_pcm_data (state_after reference_config startup).
Proof.
  apply (tone_buffer_is_written_at_startup_only reference_config cycle).
  - reflexivity.
  - vm_compute. discriminate.
  - vm_compute. discriminate.
  - vm_compute. discriminate.
  - vm_compute. reflexivity.
Defined.

(** The theorem at a run in which stream 0 stops. *)
Lemma stopped_streams_witness :
  count (sem_stopped (state_after reference_config stream_0_stops)) = 1%nat.
Proof.
  destruct (stopped_streams_are_not_noticed reference_config stream_0_stops
              (state_after reference_config stream_0_stops))
    as [H _]; [vm_compute; reflexivity |].
  rewrite H. reflexivity.
Defined.

(** The theorem at the reference configuration: one subgroup of two
    streams. *)
Lemma subgroups_witness :
  length (subgroup_param_array reference_config) = 1%nat.
Proof.
  pose proof (subgroups_divide_the_streams reference_config) as H.
  cbv zeta in H. destruct H as (H & _); [vm_compute; lia |].
  exact H.
Defined.

(** The theorem at the frame of the 16 kHz preset, for a sine that is
    zero throughout. *)
Lemma sine_witness :
  exists buf',
    fill_audio_buf_sin_bytes (fun _ _ => 0)
      (mock_pcm_data reference_config) 10000 AUDIO_TONE_FREQUENCY_HZ 16000
    = Some buf' /\
    length buf' = length (mock_pcm_data reference_config).
Proof.
  pose proof (sine_is_written_within_the_buffer (fun _ _ => 0)
                reference_config (mock_pcm_data reference_config)
                10000 AUDIO_TONE_FREQUENCY_HZ 16000) as H.
  cbv zeta in H.
  destruct H as (buf' & H1 & H2 & _).
  - unfold MAX_FRAME_DURATION_US. lia.
  - vm_compute. split; discriminate.
  - vm_compute. discriminate.
  - reflexivity.
  - exists buf'. split; [exact H1 | exact H2].
Defined.

(** ** The credits that are lost *)

Lemma accounted_boot cfg : accounted cfg (boot cfg).
Proof.
  split; [apply inv_boot | apply balance_boot |].
  split; simpl; rewrite ?sum_list_replicate_0; reflexivity.
Qed.

Lemma accounted_step cfg ev s s' :
  accounted cfg s -> step cfg ev s = Some s' -> accounted cfg s'.
Proof.
  intros [I B A] H.
  split; eauto using inv_step, balance_step, buffers_accounted_step.
Qed.

Lemma accounted_run cfg sched s s' :
  accounted cfg s -> run cfg sched s = Some s' -> accounted cfg s'.
Proof. apply (run_invariant cfg (accounted cfg) (accounted_step cfg)). Qed.

Lemma alloc_le_calls (t : list effect) :
  (count_if is_alloc t <= count_if is_send_data t)%nat.
Proof.
  induction t as [| e t IH]; simpl; [lia |].
  destruct e as [| [] | | | | | | | |]; simpl; lia.
Qed.

Lemma seeded_le_total cfg s :
  inv cfg s -> (seeded cfg (main_pc s) <= TOTAL_BUF_NEEDED cfg)%nat.
Proof.
  intros I. pose proof (inv_main_pc _ _ I) as Hpc.
  unfold seeded, TOTAL_BUF_NEEDED, BROADCAST_ENQUEUE_COUNT, stream_count in *.
  destruct (main_pc s); lia.
Qed.

(** The credits in the semaphore, in the stack and in the hands of the
    encoder thread, and those lost, are those seeded. *)
Lemma credits_equation cfg s :
  accounted cfg s ->
  (count_if is_accepted (trace s) <= count_if is_send_data (trace s))%nat /\
  (count (lc3_encoder_sem s) + sum_list (iso_queue s)
   + pending cfg (encoder_pc s) + failed_sends (trace s)
   = count_if is_seeded (trace s))%nat /\
  (count_if is_seeded (trace s) <= TOTAL_BUF_NEEDED cfg)%nat.
Proof.
  intros [I [B1 B2] [A1 A2]].
  pose proof (alloc_le_calls (trace s)) as Hle.
  pose proof (seeded_le_total cfg s I) as Hs.
  rewrite <- (inv_seeded _ _ I) in Hs.
  unfold failed_sends. lia.
Qed.

Lemma count_if_printk_only (p : effect -> bool) (out : list effect) :
  (forall e, is_printk e = true -> p e = false) ->
  forallb is_printk out = true -> count_if p out = 0%nat.
Proof.
  intros Hp Hout. apply count_if_zero. intros e He.
  apply Hp. rewrite forallb_forall in Hout. auto.
Qed.

Lemma sum_list_lookup_le (l : list nat) (i q : nat) :
  l !! i = Some q -> (q <= sum_list l)%nat.
Proof.
  revert i; induction l as [| x l IH]; intros [| i] H; simpl in *;
    try discriminate.
  - injection H as ->. lia.
  - specialize (IH i H). lia.
Qed.

(** Once all the credits are lost, a step neither takes a credit nor
    calls [send_data]. *)
Lemma lost_credits_step cfg ev s s' :
  accounted cfg s ->
  failed_sends (trace s) = TOTAL_BUF_NEEDED cfg ->
  step cfg ev s = Some s' ->
  count_if is_send_data (trace s') = count_if is_send_data (trace s) /\
  count_if is_took_credit (trace s') = count_if is_took_credit (trace s) /\
  failed_sends (trace s') = TOTAL_BUF_NEEDED cfg.
Proof.
  intros Acc Hf H.
  destruct (credits_equation cfg s Acc) as (Hle & Heq & Hs).
  pose proof (inv_encoder_pc _ _ (accounted_inv _ _ Acc)) as Hepc.
  destruct (step_effects _ _ _ _ H) as (out & Htr & Hev).
  assert (Hq : count_if is_send_data out = 0%nat /\
               count_if is_took_credit out = 0%nat /\
               count_if is_accepted out = 0%nat).
  { destruct ev.
    - repeat split; apply count_if_printk_only; auto;
        intros []; simpl; congruence.
    - destruct Hev as [(i & out' & _ & -> & Hout) | (i & j & _ & ->)];
        [| repeat split; reflexivity].
      simpl. repeat split; apply count_if_printk_only; auto;
        intros []; simpl; congruence.
    - repeat split; apply count_if_printk_only; auto;
        intros []; simpl; congruence.
    - destruct Hev as (_ & _ & Hc). lia.
    - destruct Hev as ((i & Hpc) & _). rewrite Hpc in Hepc, Heq.
      simpl in Heq. lia.
    - subst out. repeat split; reflexivity.
    - subst out. repeat split; reflexivity.
    - destruct Hev as (_ & q & Hq).
      pose proof (sum_list_lookup_le _ _ _ Hq). lia.
    - repeat split; apply count_if_printk_only; auto;
        intros []; simpl; congruence. }
  destruct Hq as (Q1 & Q2 & Q3).
  unfold failed_sends in *. rewrite Htr, !count_if_app. lia.
Qed.

(** X21. A call of [send_data] that ends without the stack taking the buffer
    costs a credit for good. In every execution the credits in
    [lc3_encoder_sem], those of the buffers queued in the stack, those the
    encoder thread has taken for calls it has yet to make, and one for
    each call of [send_data] that failed, are the credits [main] has
    seeded. So when as many calls have failed as there are credits,
    [BROADCAST_ENQUEUE_COUNT] for each stream, the semaphore is empty
    and the encoder thread takes no further credit and calls [send_data]
    no more, whatever happens next. *)
Theorem a_failed_send_costs_a_credit cfg sched s :
  run cfg sched (boot cfg) = Some s ->
  (count_if is_accepted (trace s) <= count_if is_send_data (trace s))%nat /\
  (count (lc3_encoder_sem s) + sum_list (iso_queue s)
   + pending cfg (encoder_pc s) + failed_sends (trace s)
   = count_if is_seeded (trace s))%nat /\
  (count_if is_seeded (trace s) <= TOTAL_BUF_NEEDED cfg)%nat /\
  (failed_sends (trace s) = TOTAL_BUF_NEEDED cfg ->
   forall sched' s',
     run cfg sched' s = Some s' ->
     count (lc3_encoder_sem s') = 0%nat /\
     count_if is_took_credit (trace s') = count_if is_took_credit (trace s) /\
     count_if is_send_data (trace s') = count_if is_send_data (trace s)).
Proof.
  intros Hrun.
  pose proof (accounted_run cfg sched _ _ (accounted_boot cfg) Hrun) as Acc.
  destruct (credits_equation cfg s Acc) as (Hle & Heq & Hs).
  split; [exact Hle |]. split; [exact Heq |]. split; [exact Hs |].
  intros Hf sched' s' Hrun'.
  enough (accounted cfg s' /\
          failed_sends (trace s') = TOTAL_BUF_NEEDED cfg /\
          count_if is_took_credit (trace s')
          = count_if is_took_credit (trace s) /\
          count_if is_send_data (trace s') = count_if is_send_data (trace s))
    as (Acc' & Hf' & Ht & Hc).
  { destruct (credits_equation cfg s' Acc') as (_ & Heq' & Hs').
    split; [lia | split; assumption]. }
  refine (run_invariant cfg
            (fun x => accounted cfg x /\
                      failed_sends (trace x) = TOTAL_BUF_NEEDED cfg /\
                      count_if is_took_credit (trace x)
                      = count_if is_took_credit (trace s) /\
                      count_if is_send_data (trace x)
                      = count_if is_send_data (trace s))
            _ sched' s s' _ Hrun').
  - intros ev s1 s2 (A1 & F1 & T1 & C1) Hstep.
    destruct (lost_credits_step cfg ev s1 s2 A1 F1 Hstep) as (Q1 & Q2 & Q3).
    split; [exact (accounted_step _ _ _ _ A1 Hstep) |].
    split; [exact Q3 |]. split; congruence.
  - split; [exact Acc | split; [exact Hf | split; reflexivity]].
Qed.

(** The theorem after the three cycles of the reference scenario in which
    [lc3_encode] fails in every call. *)
Lemma a_failed_send_witness :
  failed_sends (trace (state_after reference_config all_encode_errors))
  = TOTAL_BUF_NEEDED reference_config /\
  count (lc3_encoder_sem (state_after reference_config all_encode_errors))
  = 0%nat.
Proof.
  split; [vm_compute; reflexivity |].
  destruct (a_failed_send_costs_a_credit reference_config all_encode_errors
              (state_after reference_config all_encode_errors))
    as (_ & _ & _ & H); [vm_compute; reflexivity |].
  destruct (H ltac:(vm_compute; reflexivity) [] _ eq_refl) as (H0 & _).
  exact H0.
Defined.

(** ** A cycle of the encoder thread *)

(** With enough credits the takes of a cycle run; they change the
    semaphore, the trace and the place of the thread only. *)
Lemma takes_run cfg (d : nat) : forall k s,
  encoder_pc s = encoder_take k ->
  (k + S d = stream_count cfg)%nat ->
  (S d <= count (lc3_encoder_sem s))%nat ->
  exists s', run cfg (replicate (S d) ev_encoder_take) s = Some s' /\
             encoder_pc s' = encoder_send 0 /\
             (count (lc3_encoder_sem s') + S d)%nat
             = count (lc3_encoder_sem s) /\
             trace s' = trace s ++ replicate (S d) TookCredit.
Proof.
  induction d as [| d IH]; intros k s Hpc Hk Hc.
  - simpl. rewrite Hpc. unfold k_sem_take.
    destruct (count (lc3_encoder_sem s)) as [| c]; [lia |].
    unfold encoder_after_take.
    destruct (Nat.ltb_spec (S k) (stream_count cfg)); [lia |].
    eexists; repeat split. simpl. lia.
  - change (replicate (S (S d)) ev_encoder_take)
      with (ev_encoder_take :: replicate (S d) ev_encoder_take).
    cbn [run]. unfold step. rewrite Hpc. unfold k_sem_take.
    destruct (count (lc3_encoder_sem s)) as [| c] eqn:Hcount; [lia |].
    unfold encoder_after_take.
    destruct (Nat.ltb_spec (S k) (stream_count cfg)); [| lia].
    edestruct (IH (S k)) as (s' & Hrun & Hpc' & Hc' & Htr');
      [| | | exists s'; split; [exact Hrun |]; split; [exact Hpc' |]; split];
      simpl in *; try reflexivity; try lia.
    rewrite Htr'. simpl. rewrite <- app_assoc. reflexivity.
Qed.

(** With fewer credits than takes are left, the thread takes the credits
    there are and then waits. *)
Lemma takes_wait cfg (c : nat) : forall k s,
  encoder_pc s = encoder_take k ->
  count (lc3_encoder_sem s) = c ->
  (k + c < stream_count cfg)%nat ->
  exists s', run cfg (replicate c ev_encoder_take) s = Some s' /\
             encoder_pc s' = encoder_take (k + c) /\
             count (lc3_encoder_sem s') = 0%nat /\
             trace s' = trace s ++ replicate c TookCredit /\
             step cfg ev_encoder_take s' = None.
Proof.
  induction c as [| c IH]; intros k s Hpc Hc Hk.
  - exists s. simpl. rewrite Nat.add_0_r, app_nil_r. repeat split; auto.
    rewrite Hpc. unfold k_sem_take. rewrite Hc. reflexivity.
  - change (replicate (S c) ev_encoder_take)
      with (ev_encoder_take :: replicate c ev_encoder_take).
    cbn [run]. unfold step at 1. rewrite Hpc. unfold k_sem_take. rewrite Hc.
    unfold encoder_after_take.
    destruct (Nat.ltb_spec (S k) (stream_count cfg)); [| lia].
    edestruct (IH (S k)) as (s' & Hrun & Hpc' & Hc' & Htr' & Hw);
      [| | | exists s'; split; [exact Hrun |]; split;
             [rewrite Hpc'; f_equal; lia
             | split; [exact Hc' | split; [| exact Hw]]]];
      simpl; try reflexivity; try lia.
    rewrite Htr'. simpl. rewrite <- app_assoc. reflexivity.
Qed.

Lemma run_none_app cfg a b s :
  (exists s', run cfg a s = Some s' /\ run cfg b s' = None) ->
  run cfg (a ++ b) s = None.
Proof. intros (s' & Ha & Hb). rewrite run_app, Ha. exact Hb. Qed.

(** What a call of [send_data] by the encoder thread changes. *)
Lemma send_step_spec cfg env s s' k :
  encoder_pc s = encoder_send k ->
  step cfg (ev_encoder_send env) s = Some s' ->
  encoder_pc s' = encoder_after_send cfg k /\
  lc3_encoder_sem s' = lc3_encoder_sem s /\
  exists st,
    streams s !! k = Some st /\
    trace s' = trace s ++ (send_data cfg k env st (send_pcm_data s)).2.
Proof.
  intros Hpc H. unfold step in H. rewrite Hpc in H.
  destruct (streams s !! k) as [st |] eqn:Hst; [| discriminate].
  destruct (tx_pool s) as [| pool] eqn:Hpool; [discriminate |].
  destruct (send_data cfg k env st (send_pcm_data s)) as [[st' pcm] out]
    eqn:Hsd.
  injection H as <-.
  destruct (accepted out); (split; [reflexivity |]);
    (split; [reflexivity |]); exists st; (split; [reflexivity |]);
    rewrite Hsd; reflexivity.
Qed.

(** A call of [send_data] by the encoder thread runs. *)
Lemma send_step_runs cfg env s k :
  inv cfg s -> encoder_pc s = encoder_send k ->
  exists s1, step cfg (ev_encoder_send env) s = Some s1.
Proof.
  intros I Hpc.
  pose proof (pool_not_empty cfg s k I Hpc) as Hpos.
  pose proof (inv_streams _ _ I) as Hs.
  pose proof (inv_encoder_pc _ _ I) as Hepc. rewrite Hpc in Hepc.
  unfold step. rewrite Hpc.
  assert (Hi : (k < length (streams s))%nat) by lia.
  apply lookup_lt_is_Some_2 in Hi as [st Hst]. rewrite Hst.
  destruct (tx_pool s) as [| pool]; [lia |].
  destruct (send_data cfg k env st (send_pcm_data s)) as [[st' pcm] out].
  eexists. reflexivity.
Qed.

(** The calls of [send_data] of a cycle run, whatever their callees
    answer. *)
Lemma sends_run cfg (d : nat) : forall k s envs,
  inv cfg s ->
  encoder_pc s = encoder_send k ->
  (k + S d = stream_count cfg)%nat ->
  length envs = S d ->
  exists s' out,
    run cfg (map ev_encoder_send envs) s = Some s' /\
    encoder_pc s' = encoder_take 0 /\
    lc3_encoder_sem s' = lc3_encoder_sem s /\
    trace s' = trace s ++ out /\
    count_if is_send_data out = S d /\
    forallb is_send_effect out = true.
Proof.
  induction d as [| d IH]; intros k s envs I Hpc Hk Hlen;
    destruct envs as [| env envs]; try discriminate;
    injection Hlen as Hlen.
  - destruct envs; [| discriminate]. clear Hlen.
    destruct (send_step_runs cfg env s k I Hpc) as (s1 & Hstep).
    destruct (send_step_spec cfg env s s1 k Hpc Hstep)
      as (Hpc1 & Hsem1 & st & Hst & Htr1).
    destruct (step_effects _ _ _ _ Hstep) as (out & Htr & _ & Hout).
    exists s1, out. cbn [map run]. rewrite Hstep.
    split; [reflexivity |].
    split.
    { rewrite Hpc1. unfold encoder_after_send.
      destruct (Nat.ltb_spec (S k) (stream_count cfg)); [lia | reflexivity]. }
    split; [exact Hsem1 |]. split; [exact Htr |].
    split; [| exact Hout].
    rewrite Htr in Htr1. apply app_inv_head in Htr1. rewrite Htr1.
    apply send_data_one_call.
  - destruct (send_step_runs cfg env s k I Hpc) as (s1 & Hstep).
    destruct (send_step_spec cfg env s s1 k Hpc Hstep)
      as (Hpc1 & Hsem1 & st & Hst & Htr1).
    destruct (step_effects _ _ _ _ Hstep) as (out & Htr & _ & Hout).
    assert (Hpc1' : encoder_pc s1 = encoder_send (S k)).
    { rewrite Hpc1. unfold encoder_after_send.
      destruct (Nat.ltb_spec (S k) (stream_count cfg)); [reflexivity | lia]. }
    destruct (IH (S k) s1 envs (inv_step _ _ _ _ I Hstep) Hpc1'
                 ltac:(lia) Hlen)
      as (s' & out' & Hrun & Hpc' & Hsem' & Htr' & Hn' & Hout').
    exists s', (out ++ out'). cbn [map run]. rewrite Hstep.
    split; [exact Hrun |]. split; [exact Hpc' |].
    split; [congruence |].
    split; [rewrite Htr', Htr, app_assoc; reflexivity |].
    split.
    + rewrite count_if_app, Hn'.
      rewrite Htr in Htr1. apply app_inv_head in Htr1. rewrite Htr1.
      rewrite send_data_one_call. reflexivity.
    + rewrite forallb_app, Hout, Hout'. reflexivity.
Qed.

(** X22. A cycle of the encoder thread runs to its end once it has its
    credits, and not before. When the thread stands at the beginning of
    a cycle and the semaphore holds a credit for each stream, the takes
    and the calls of [send_data] of the cycle all run, whatever the
    callees of [send_data] answer in each call: one call for each stream,
    and the thread is at the beginning of the next cycle with as many
    credits fewer. With fewer credits than streams it takes the credits
    there are and then waits in [k_sem_take] with the semaphore empty,
    before any call of [send_data] of that cycle. *)
Theorem encoder_cycle_completes cfg sched s envs :
  run cfg sched (boot cfg) = Some s ->
  encoder_pc s = encoder_take 0 ->
  length envs = stream_count cfg ->
  ((stream_count cfg <= count (lc3_encoder_sem s))%nat ->
   exists s' out,
     run cfg (encoder_cycle cfg envs) s = Some s' /\
     encoder_pc s' = encoder_take 0 /\
     (count (lc3_encoder_sem s') + stream_count cfg)%nat
     = count (lc3_encoder_sem s) /\
     trace s' = trace s ++ replicate (stream_count cfg) TookCredit ++ out /\
     count_if is_send_data out = stream_count cfg /\
     forallb is_send_effect out = true) /\
  ((count (lc3_encoder_sem s) < stream_count cfg)%nat ->
   run cfg (encoder_cycle cfg envs) s = None /\
   exists s',
     run cfg (replicate (count (lc3_encoder_sem s)) ev_encoder_take) s
     = Some s' /\
     encoder_pc s' = encoder_take (count (lc3_encoder_sem s)) /\
     count (lc3_encoder_sem s') = 0%nat /\
     trace s' = trace s ++ replicate (count (lc3_encoder_sem s)) TookCredit /\
     step cfg ev_encoder_take s' = None).
Proof.
  intros Hrun Hpc Hlen.
  pose proof (inv_run _ _ _ Hrun) as I.
  pose proof (inv_encoder_pc _ _ I) as Hepc. rewrite Hpc in Hepc.
  destruct (stream_count cfg) as [| d] eqn:HN; [lia |].
  split.
  - intros Hc.
    destruct (takes_run cfg d 0 s Hpc ltac:(lia) Hc)
      as (s1 & Hrun1 & Hpc1 & Hc1 & Htr1).
    assert (I1 : inv cfg s1).
    { apply (inv_run cfg (sched ++ replicate (S d) ev_encoder_take)).
      rewrite run_app, Hrun. exact Hrun1. }
    destruct (sends_run cfg d 0 s1 envs I1 Hpc1 ltac:(lia) Hlen)
      as (s' & out & Hrun2 & Hpc2 & Hsem2 & Htr2 & Hn & Hout).
    exists s', out. unfold encoder_cycle. rewrite HN, run_app, Hrun1.
    split; [exact Hrun2 |]. split; [exact Hpc2 |].
    split; [rewrite Hsem2; exact Hc1 |].
    split; [rewrite Htr2, Htr1, <- app_assoc; reflexivity |].
    split; [exact Hn | exact Hout].
  - intros Hc.
    destruct (takes_wait cfg (count (lc3_encoder_sem s)) 0 s Hpc eq_refl
                ltac:(lia)) as (s1 & Hrun1 & Hpc1 & Hc1 & Htr1 & Hw).
    split.
    + unfold encoder_cycle. rewrite HN.
      replace (S d)
        with (count (lc3_encoder_sem s)
              + S (d - count (lc3_encoder_sem s)))%nat by lia.
      rewrite replicate_add, <- app_assoc.
      apply run_none_app. exists s1. split; [exact Hrun1 |].
      cbn [replicate app run]. rewrite Hw. reflexivity.
    + exists s1. split; [exact Hrun1 |]. split; [exact Hpc1 |].
      split; [exact Hc1 |]. split; [exact Htr1 | exact Hw].
Qed.

(** The theorem at the first cycle of the reference scenario, in which
    the stack rejects the buffer of stream 1. *)
Lemma encoder_cycle_witness :
  exists s',
    run reference_config (encoder_cycle reference_config answers_of_a_cycle)
        (state_after reference_config startup) = Some s' /\
    encoder_pc s' = encoder_take 0.
Proof.
  destruct (encoder_cycle_completes reference_config startup
              (state_after reference_config startup) answers_of_a_cycle)
    as [H _].
  - vm_compute. reflexivity.
  - vm_compute. reflexivity.
  - reflexivity.
  - destruct H as (s' & out & H1 & H2 & _); [vm_compute; lia |].
    exists s'. split; [exact H1 | exact H2].
Defined.

End BroadcasterFacts.
